(** * LiveUser presence hub: a shallow embedding of [main.go]

    The hub of [main.go] keeps, per site key, a [Site] aggregate (a member
    count and the set of attached [Client]s) and fans count updates out to
    the members over bounded channels.  The Go objects live behind pointers
    ([*Site], [*Client]) and are shared between the hub, the sites and the
    client goroutines, so the embedding keeps an explicit store of [Site]
    and [Client] objects addressed by pointer and passes it through every
    operation.  Operations that can panic in Go (send on a closed channel,
    close of a closed channel) return in the [outcome] monad.

    Beside the hub and the read loop, the embedding covers the write loop,
    the shutdown notice of [main], and the request helpers [getRealIP] and
    [parseJSConfig].

    The goroutines are followed in two ways: turn by turn ([readPump_step],
    [run_events]), where a reader takes a whole turn of its loop and the
    hub handles the commands of the turn, and step by step ([fire],
    [run_actions]), where the readers, the writers and the hub take their
    steps in any order. *)

From Stdlib Require Import Ascii.
From stdpp Require Import gmap strings list fin_maps.

Local Open Scope Z_scope.

Set Warnings "-clear-no-such-hyp".

(** ** Machine integers *)

(** Go's [int] is 64 bits wide on the platforms the server is built for;
    [Count++] and [Count--] wrap around. *)
Definition int_max : Z := 2 ^ 63 - 1.

Definition int_min : Z := - 2 ^ 63.

Definition wrap_int (z : Z) : Z := (z + 2 ^ 63) mod 2 ^ 64 - 2 ^ 63.

(** ** Protocol messages ([type Message struct]) *)

Record Message := mkMessage {
  Message_Type : string;
  Message_SiteID : string;
  Message_Count : Z;
  Message_Message : string;
  Message_Timestamp : Z
}.

(** ** Channels ([chan Message] with a buffer) *)

Record Chan := mkChan {
  chan_buf : list Message;   (* queued messages, oldest first *)
  chan_closed : bool
}.

(** [make(chan Message, 16)] in [handleWebSocket]. *)
Definition send_capacity : nat := 16.

Definition make_chan : Chan := {| chan_buf := []; chan_closed := false |}.

Inductive panic :=
| send_on_closed_channel
| close_of_closed_channel
| invalid_pointer.

Inductive outcome (A : Type) :=
| Ok (a : A)
| Panic (p : panic).
Arguments Ok {A} a.
Arguments Panic {A} p.

#[global] Instance outcome_ret : MRet outcome := fun A a => Ok a.
#[global] Instance outcome_bind : MBind outcome := fun A B f m =>
  match m with
  | Ok a => f a
  | Panic p => Panic p
  end.

(** Dereferencing a pointer held in the store. *)
Definition deref {A} (m : gmap positive A) (p : positive) : outcome A :=
  match m !! p with
  | Some a => Ok a
  | None => Panic invalid_pointer
  end.

(** The three ways a [select { case ch <- m: ... default: ... }] can go. *)
Inductive try_send_result :=
| Sent (ch : Chan)
| WouldBlock
| SendPanics.

Definition chan_full (ch : Chan) : bool :=
  bool_decide (send_capacity ≤ length (chan_buf ch))%nat.

Definition try_send (ch : Chan) (m : Message) : try_send_result :=
  if chan_closed ch then SendPanics
  else if chan_full ch then WouldBlock
  else Sent {| chan_buf := chan_buf ch ++ [m]; chan_closed := false |}.

(** [close(ch)]. *)
Definition close_chan (ch : Chan) : outcome Chan :=
  if chan_closed ch then Panic close_of_closed_channel
  else Ok {| chan_buf := chan_buf ch; chan_closed := true |}.

(** ** Sites, clients and the hub *)

(** [type Site struct]: [Connections] is a [map[*Client]bool] whose values
    are always [true], that is, a set of client pointers. *)
Record Site := mkSite {
  Site_ID : string;
  Site_Count : Z;
  Site_Connections : gset positive
}.

(** [type Client struct]: [conn] is kept as the open/closed state of the
    underlying connection; [hub] is the one global hub. *)
Record Client := mkClient {
  Client_conn_open : bool;
  Client_site : option positive;
  Client_send : Chan;
  Client_ip : string
}.

(** The two command channels of the hub. *)
Inductive Command :=
| Register (client : positive)
| Unregister (client : positive).

(** The hub with the objects it reaches: [sites] is [Hub.sites], [site_mem]
    and [client_mem] hold the [Site] and [Client] objects, and [received]
    is the history of commands the hub has taken from its [register] and
    [unregister] channels, oldest first. *)
Record State := mkState {
  sites : gmap string positive;
  site_mem : gmap positive Site;
  client_mem : gmap positive Client;
  received : list Command
}.

(** [NewHub()]. *)
Definition NewHub : State :=
  {| sites := ∅; site_mem := ∅; client_mem := ∅; received := [] |}.

Definition set_site_mem (w : State) (m : gmap positive Site) : State :=
  {| sites := sites w; site_mem := m; client_mem := client_mem w;
     received := received w |}.

Definition set_client_mem (w : State) (m : gmap positive Client) : State :=
  {| sites := sites w; site_mem := site_mem w; client_mem := m;
     received := received w |}.

Definition set_sites (w : State) (m : gmap string positive) : State :=
  {| sites := m; site_mem := site_mem w; client_mem := client_mem w;
     received := received w |}.

Definition with_send (cl : Client) (ch : Chan) : Client :=
  {| Client_conn_open := Client_conn_open cl; Client_site := Client_site cl;
     Client_send := ch; Client_ip := Client_ip cl |}.

Definition with_site (cl : Client) (s : option positive) : Client :=
  {| Client_conn_open := Client_conn_open cl; Client_site := s;
     Client_send := Client_send cl; Client_ip := Client_ip cl |}.

Definition with_Connections (s : Site) (c : gset positive) : Site :=
  {| Site_ID := Site_ID s; Site_Count := Site_Count s; Site_Connections := c |}.

(** ** [broadcastToSite] *)

(** The struct literal at the head of [broadcastToSite]; [now] is
    [time.Now().Unix()]. *)
Definition update_message (siteID : string) (count now : Z) : Message :=
  {| Message_Type := "update"; Message_SiteID := siteID;
     Message_Count := count; Message_Message := "";
     Message_Timestamp := now |}.

(** One pass of [for client := range site.Connections]: [l] lists the keys
    still to visit, [conns] is the map being iterated (and deleted from),
    [clients] the client objects. *)
Fixpoint broadcast_loop (message : Message) (l : list positive)
    (conns : gset positive) (clients : gmap positive Client)
    : outcome (gset positive * gmap positive Client) :=
  match l with
  | [] => Ok (conns, clients)
  | client :: l' =>
      cl ← deref clients client;
      match try_send (Client_send cl) message with
      | Sent ch =>
          broadcast_loop message l' conns (<[client := with_send cl ch]> clients)
      | WouldBlock =>
          ch ← close_chan (Client_send cl);
          broadcast_loop message l' (conns ∖ {[client]})
            (<[client := with_send cl ch]> clients)
      | SendPanics => Panic send_on_closed_channel
      end
  end.

Definition broadcastToSite (siteID : string) (count now : Z) (w : State)
    : outcome State :=
  let message := update_message siteID count now in
  match sites w !! siteID with
  | None => Ok w
  | Some p =>
      site ← deref (site_mem w) p;
      '(conns, clients) ←
        broadcast_loop message (elements (Site_Connections site))
          (Site_Connections site) (client_mem w);
      Ok (set_client_mem
            (set_site_mem w (<[p := with_Connections site conns]> (site_mem w)))
            clients)
  end.

(** ** [handleRegister], [handleUnregister], [getSite] *)

Definition handleRegister (now : Z) (client : positive) (w : State)
    : outcome State :=
  cl ← deref (client_mem w) client;
  match Client_site cl with
  | None => Ok w
  | Some p =>
      site ← deref (site_mem w) p;
      let site' :=
        {| Site_ID := Site_ID site;
           Site_Count := wrap_int (Site_Count site + 1);
           Site_Connections := {[client]} ∪ Site_Connections site |} in
      let count := Site_Count site' in
      broadcastToSite (Site_ID site) count now
        (set_site_mem w (<[p := site']> (site_mem w)))
  end.

Definition handleUnregister (now : Z) (client : positive) (w : State)
    : outcome State :=
  cl ← deref (client_mem w) client;
  match Client_site cl with
  | None => Ok w
  | Some p =>
      site ← deref (site_mem w) p;
      if decide (client ∈ Site_Connections site) then
        let conns := Site_Connections site ∖ {[client]} in
        ch ← close_chan (Client_send cl);
        let dec := wrap_int (Site_Count site - 1) in
        let count := if dec <? 0 then 0 else dec in
        let connectionsLeft := size conns in
        let w1 :=
          set_client_mem
            (set_site_mem w
               (<[p := {| Site_ID := Site_ID site; Site_Count := count;
                          Site_Connections := conns |}]> (site_mem w)))
            (<[client := with_send cl ch]> (client_mem w)) in
        if decide (connectionsLeft = 0%nat) then
          Ok (set_sites w1 (delete (Site_ID site) (sites w1)))
        else broadcastToSite (Site_ID site) count now w1
      else Ok w
  end.

Definition getSite (siteID : string) (w : State) : positive * State :=
  match sites w !! siteID with
  | Some p => (p, w)
  | None =>
      let p := fresh (dom (site_mem w)) in
      let site :=
        {| Site_ID := siteID; Site_Count := 0; Site_Connections := ∅ |} in
      (p, set_sites (set_site_mem w (<[p := site]> (site_mem w)))
            (<[siteID := p]> (sites w)))
  end.

(** ** [Hub.Run] *)

(** The hub takes [cmd] from one of its two channels. *)
Definition receive (cmd : Command) (w : State) : State :=
  {| sites := sites w; site_mem := site_mem w; client_mem := client_mem w;
     received := received w ++ [cmd] |}.

(** One turn of the [select] in [Run]: the hub takes a command from one of
    its two channels and handles it to completion before taking the next. *)
Definition Run_step (now : Z) (cmd : Command) (w : State) : outcome State :=
  match cmd with
  | Register client => handleRegister now client (receive cmd w)
  | Unregister client => handleUnregister now client (receive cmd w)
  end.

(** ** [strings.TrimSpace]

    The Go standard library function, on the UTF-8 bytes of the string:
    it removes the leading and trailing runes with [unicode.IsSpace]. *)

(** Number of bytes of the white-space rune a byte sequence starts with,
    [0] when it starts with none.  The sequences are the UTF-8 encodings
    of U+0009..U+000D, U+0020, U+0085, U+00A0, U+1680, U+2000..U+200A,
    U+2028, U+2029, U+202F, U+205F and U+3000. *)
Definition leading_space (l : list N) : nat :=
  match l with
  | (9 | 10 | 11 | 12 | 13 | 32)%N :: _ => 1
  | 194%N :: (133 | 160)%N :: _ => 2
  | 225%N :: 154%N :: 128%N :: _ => 3
  | 226%N :: 128%N :: b :: _ =>
      if bool_decide (128 ≤ b ≤ 138 ∨ b = 168 ∨ b = 169 ∨ b = 175)%N
      then 3 else 0
  | 226%N :: 129%N :: 159%N :: _ => 3
  | 227%N :: 128%N :: 128%N :: _ => 3
  | _ => 0
  end%nat.

(** The same for the rune a byte sequence ends with; [l] is the sequence
    reversed. *)
Definition trailing_space (l : list N) : nat :=
  match l with
  | (9 | 10 | 11 | 12 | 13 | 32)%N :: _ => 1
  | (133 | 160)%N :: 194%N :: _ => 2
  | 128%N :: 154%N :: 225%N :: _ => 3
  | 159%N :: 129%N :: 226%N :: _ => 3
  | 128%N :: 128%N :: 227%N :: _ => 3
  | b :: 128%N :: 226%N :: _ =>
      if bool_decide (128 ≤ b ≤ 138 ∨ b = 168 ∨ b = 169 ∨ b = 175)%N
      then 3 else 0
  | _ => 0
  end%nat.

Fixpoint trim_with (width : list N → nat) (fuel : nat) (l : list N) : list N :=
  match fuel with
  | O => l
  | S fuel' =>
      match width l with
      | O => l
      | k => trim_with width fuel' (drop k l)
      end
  end.

Definition bytes_of_string (s : string) : list N :=
  Ascii.N_of_ascii <$> String.list_ascii_of_string s.

Definition string_of_bytes (l : list N) : string :=
  String.string_of_list_ascii (Ascii.ascii_of_N <$> l).

Definition TrimSpace (s : string) : string :=
  let b := bytes_of_string s in
  let b1 := trim_with leading_space (length b) b in
  let b2 := trim_with trailing_space (length b1) (reverse b1) in
  string_of_bytes (reverse b2).

(** ** [handleWebSocket], [readPump], [writePump] *)

(** [handleWebSocket] after a successful upgrade: a new [Client] with no
    site and an empty [send] channel of capacity 16. *)
Definition handleWebSocket (clientIP : string) (w : State) : positive * State :=
  let c := fresh (dom (client_mem w)) in
  let cl :=
    {| Client_conn_open := true; Client_site := None;
       Client_send := make_chan; Client_ip := clientIP |} in
  (c, set_client_mem w (<[c := cl]> (client_mem w))).

(** What one turn of the read loop gets from [c.conn.ReadMessage] followed
    by [json.Unmarshal]: a read error (also an oversized frame, a timeout,
    a close), a frame that does not decode into a [Message], or the decoded
    [Message]. *)
Inductive Inbound :=
| ReadError
| UnmarshalError
| Decoded (msg : Message).



Inductive LoopCtl :=
| Continue
| Break.

(** [c.conn.Close()]. *)
Definition conn_Close (c : positive) (w : State) : outcome State :=
  cl ← deref (client_mem w) c;
  Ok (set_client_mem w
        (<[c := {| Client_conn_open := false; Client_site := Client_site cl;
                   Client_send := Client_send cl; Client_ip := Client_ip cl |}]>
           (client_mem w))).

(** [c.site != nil && c.site.ID != siteID] *)
Definition holds_other_site (c : positive) (siteID : string) (w : State)
    : outcome bool :=
  cl ← deref (client_mem w) c;
  match Client_site cl with
  | None => Ok false
  | Some p =>
      site ← deref (site_mem w) p;
      Ok (bool_decide (Site_ID site ≠ siteID))
  end.

(** [c.site == nil || c.site.ID != siteID] *)
Definition needs_site (c : positive) (siteID : string) (w : State)
    : outcome bool :=
  cl ← deref (client_mem w) c;
  match Client_site cl with
  | None => Ok true
  | Some p =>
      site ← deref (site_mem w) p;
      Ok (bool_decide (Site_ID site ≠ siteID))
  end.

(** [site := c.hub.getSite(siteID); c.site = site] *)
Definition resolve_site (c : positive) (siteID : string) (w : State)
    : outcome State :=
  let '(site, w2) := getSite siteID w in
  cl ← deref (client_mem w2) c;
  Ok (set_client_mem w2 (<[c := with_site cl (Some site)]> (client_mem w2))).

(** A send on [c.hub.register] or [c.hub.unregister] returns as soon as
    [Run] has received the command; the handler then runs in the goroutine
    of the hub while the reader goes on.  After the send on [unregister]
    of line 376 the reader goes on to [getSite] and to [c.site = site]
    (lines 380 and 381) while [handleUnregister] reads [client.site]
    (lines 130 to 134), without a lock: the handler reads the old site
    ([HubFirst]) or the one the reader has just assigned ([ReaderFirst]).
    After the send on [register], and after the deferred send on
    [unregister], the reader touches nothing the handler reads before the
    handler is done. *)
Inductive Order :=
| HubFirst
| ReaderFirst.

Definition reader_first (o : Order) : bool :=
  match o with
  | HubFirst => false
  | ReaderFirst => true
  end.

(** One turn of the [for] loop of [readPump], and the deferred function
    when the loop is left, when no other goroutine than the hub acts
    during the turn: the hub handles the command of a send before the
    reader goes on, except for its read of [client.site] after the send of
    line 376, which comes in the order [o].  [t1] and [t2] are the hub's
    clock readings for the two commands. *)
Definition readPump_step (o : Order) (t1 t2 : Z) (c : positive) (inp : Inbound)
    (w : State) : outcome (LoopCtl * State) :=
  match inp with
  | ReadError =>
      w1 ← Run_step t1 (Unregister c) w;
      w2 ← conn_Close c w1;
      Ok (Break, w2)
  | UnmarshalError => Ok (Continue, w)
  | Decoded msg =>
      if bool_decide (Message_Type msg = "join" ∧ Message_SiteID msg ≠ "") then
        let siteID := TrimSpace (Message_SiteID msg) in
        other ← holds_other_site c siteID w;
        if reader_first o && other then
          let w0 := receive (Unregister c) w in
          needs ← needs_site c siteID w0;
          if needs : bool then
            w3 ← resolve_site c siteID w0;
            w1 ← handleUnregister t1 c w3;
            w4 ← Run_step t2 (Register c) w1;
            Ok (Continue, w4)
          else
            w1 ← handleUnregister t1 c w0;
            Ok (Continue, w1)
        else
          w1 ← (if other : bool then Run_step t1 (Unregister c) w else Ok w);
          needs ← needs_site c siteID w1;
          if needs : bool then
            w3 ← resolve_site c siteID w1;
            w4 ← Run_step t2 (Register c) w3;
            Ok (Continue, w4)
          else Ok (Continue, w1)
      else Ok (Continue, w)
  end.

(** One receive of [writePump] from [c.send]: the oldest queued message is
    taken and written (the write succeeds); on a closed and drained channel the writer sends
    the close frame, returns, and its deferred function closes the
    connection.  [None] when the receive would block. *)
Definition writePump_recv (c : positive) (w : State)
    : outcome (option (LoopCtl * option Message * State)) :=
  cl ← deref (client_mem w) c;
  match chan_buf (Client_send cl) with
  | message :: rest =>
      let ch := {| chan_buf := rest; chan_closed := chan_closed (Client_send cl) |} in
      Ok (Some (Continue, Some message,
                set_client_mem w (<[c := with_send cl ch]> (client_mem w))))
  | [] =>
      if chan_closed (Client_send cl) then
        w1 ← conn_Close c w;
        Ok (Some (Break, None, w1))
      else Ok None
  end.

(** ** The JSON form of a [Message]

    [WriteJSON] encodes the struct with [encoding/json] under the field
    tags of [type Message struct]: [type] is always written, and the
    fields tagged [omitempty] are left out when they hold the zero value
    of their type.  The encoding is kept as the list of members of the
    JSON object, in field order. *)

Inductive JSON :=
| JString (s : string)
| JNumber (z : Z).

Definition omitempty_string (name s : string) : list (string * JSON) :=
  if decide (s = "") then [] else [(name, JString s)].

Definition omitempty_int (name : string) (z : Z) : list (string * JSON) :=
  if decide (z = 0) then [] else [(name, JNumber z)].

Definition marshal_Message (m : Message) : list (string * JSON) :=
  [("type", JString (Message_Type m))]
  ++ omitempty_string "siteId" (Message_SiteID m)
  ++ omitempty_int "count" (Message_Count m)
  ++ omitempty_string "message" (Message_Message m)
  ++ omitempty_int "timestamp" (Message_Timestamp m).

(** The value of member [name] of a JSON object, if it has one. *)
Fixpoint json_member (name : string) (obj : list (string * JSON)) : option JSON :=
  match obj with
  | [] => None
  | (k, v) :: rest => if decide (k = name) then Some v else json_member name rest
  end.

(** ** Sequential runs of the server *)

(** The runs in which every event is over before the next one begins: a
    connection is accepted, a reader takes one turn of its loop and the hub
    handles each command of the turn at once, a writer takes one message
    from its queue.  These are some of the schedules of the server; the
    others are those of [run_actions] below. *)
Inductive Event :=
| Accepts (clientIP : string)
| Reads (c : positive) (inp : Inbound)
| Writes (c : positive).

Definition run_event (now : Z) (e : Event) (w : State) : outcome State :=
  match e with
  | Accepts clientIP => Ok (handleWebSocket clientIP w).2
  | Reads c inp => r ← readPump_step HubFirst now now c inp w; Ok r.2
  | Writes c =>
      r ← writePump_recv c w;
      Ok (match r with Some (_, _, w') => w' | None => w end)
  end.

Fixpoint run_events (es : list (Z * Event)) (w : State) : outcome State :=
  match es with
  | [] => Ok w
  | (now, e) :: es' => w' ← run_event now e w; run_events es' w'
  end.

(** ** The goroutines of the server, step by step *)

(** Where the reader of a client stands. *)
Inductive Reader :=
| AtRead                      (* in [ReadMessage], line 362 *)
| AtTest (siteID : string)    (* past the [if] of line 375, before the one
                                 of line 379 *)
| AtAssign (site : positive)  (* [getSite] has returned, line 380 *)
| AtRegister                  (* [c.site] is assigned, before the send of
                                 line 382 *)
| AtDefer                     (* the loop is left, before the send of
                                 line 350 *)
| AtClose                     (* before [c.conn.Close()], line 351 *)
| Gone.

(** The hub with the goroutines around it: [pending] is the command [Run]
    has received and whose handler has not run yet, [readers] tells where
    the reader of each client stands. *)
Record Server := mkServer {
  shared : State;
  pending : option Command;
  readers : gmap positive Reader
}.

(** The server when [main] has started the hub. *)
Definition boot : Server :=
  {| shared := NewHub; pending := None; readers := ∅ |}.

(** The steps of the goroutines: [handleWebSocket] sets up a client;
    [ReadMessage] returns in the reader of [c]; the reader of [c], past
    [ReadMessage], takes its next step; [Run] runs the handler of the
    command it has received; the writer of [c] takes a message from
    [c.send]. *)
Inductive Action :=
| Upgrade (clientIP : string)
| Frame (c : positive) (inp : Inbound)
| ReaderStep (c : positive)
| HubStep
| WriterStep (c : positive).

Definition with_reader (sv : Server) (w : State) (c : positive) (r : Reader)
    : Server :=
  {| shared := w; pending := pending sv; readers := <[c := r]> (readers sv) |}.

(** A send on one of the channels of the hub: it goes through when [Run]
    waits in its [select], and the reader then stands at [r]; while [Run]
    is in a handler the reader waits, and nothing happens. *)
Definition send_command (sv : Server) (cmd : Command) (c : positive) (r : Reader)
    : Server :=
  match pending sv with
  | None =>
      {| shared := receive cmd (shared sv); pending := Some cmd;
         readers := <[c := r]> (readers sv) |}
  | Some _ => sv
  end.

(** One step.  A handler runs as one step: it reads [client.site] at its
    head, looks into [hub.sites] once and touches each [send] channel at
    most once, so that a step of another goroutine that falls within the
    handler has the effect of the same step before or after it.  The tests
    of lines 375 and 379 read [c.site], which only the reader writes, and
    the [ID] of a site, which nobody writes.  A step that a goroutine
    cannot take where it stands leaves the server as it is. *)
Definition fire (now : Z) (a : Action) (sv : Server) : outcome Server :=
  let w := shared sv in
  match a with
  | Upgrade clientIP =>
      let '(c, w1) := handleWebSocket clientIP w in
      Ok (with_reader sv w1 c AtRead)
  | Frame c inp =>
      match readers sv !! c with
      | Some AtRead =>
          match inp with
          | ReadError => Ok (with_reader sv w c AtDefer)
          | UnmarshalError => Ok sv
          | Decoded msg =>
              if bool_decide (Message_Type msg = "join" ∧ Message_SiteID msg ≠ "")
              then
                let siteID := TrimSpace (Message_SiteID msg) in
                other ← holds_other_site c siteID w;
                if other : bool
                then Ok (send_command sv (Unregister c) c (AtTest siteID))
                else Ok (with_reader sv w c (AtTest siteID))
              else Ok sv
          end
      | _ => Ok sv
      end
  | ReaderStep c =>
      match readers sv !! c with
      | Some (AtTest siteID) =>
          needs ← needs_site c siteID w;
          if needs : bool then
            let '(site, w1) := getSite siteID w in
            Ok (with_reader sv w1 c (AtAssign site))
          else Ok (with_reader sv w c AtRead)
      | Some (AtAssign site) =>
          cl ← deref (client_mem w) c;
          Ok (with_reader sv
                (set_client_mem w (<[c := with_site cl (Some site)]> (client_mem w)))
                c AtRegister)
      | Some AtRegister => Ok (send_command sv (Register c) c AtRead)
      | Some AtDefer => Ok (send_command sv (Unregister c) c AtClose)
      | Some AtClose => w1 ← conn_Close c w; Ok (with_reader sv w1 c Gone)
      | _ => Ok sv
      end
  | HubStep =>
      match pending sv with
      | Some (Register c) =>
          w1 ← handleRegister now c w;
          Ok {| shared := w1; pending := None; readers := readers sv |}
      | Some (Unregister c) =>
          w1 ← handleUnregister now c w;
          Ok {| shared := w1; pending := None; readers := readers sv |}
      | None => Ok sv
      end
  | WriterStep c =>
      match readers sv !! c with
      | Some _ =>
          r ← writePump_recv c w;
          Ok {| shared := (match r with Some (_, _, w1) => w1 | None => w end);
                pending := pending sv; readers := readers sv |}
      | None => Ok sv
      end
  end.

Fixpoint run_actions (acts : list (Z * Action)) (sv : Server) : outcome Server :=
  match acts with
  | [] => Ok sv
  | (now, a) :: acts' => sv' ← fire now a sv; run_actions acts' sv'
  end.

(** ** Vocabulary of the statements *)

(** What a member's [Client] object looks like after one broadcast pass over
    it: the message is queued, or, on a full queue, the channel is closed. *)
Definition deliver (message : Message) (cl : Client) : Client :=
  if chan_full (Client_send cl)
  then with_send cl {| chan_buf := chan_buf (Client_send cl); chan_closed := true |}
  else with_send cl {| chan_buf := chan_buf (Client_send cl) ++ [message];
                       chan_closed := false |}.

(** Every key of the registry leads to a [Site] object that carries this
    key as its [ID]. *)
Definition registry_wf (w : State) : Prop :=
  ∀ k p, sites w !! k = Some p →
         ∃ s, site_mem w !! p = Some s ∧ Site_ID s = k.

(** The state [handleUnregister] reaches before it reclaims the site or
    broadcasts, when the client is a member. *)
Definition detached (c : positive) (cl : Client) (p : positive) (site : Site)
    (w : State) : State :=
  set_client_mem
    (set_site_mem w
       (<[p := {| Site_ID := Site_ID site;
                  Site_Count :=
                    (if wrap_int (Site_Count site - 1) <? 0 then 0
                     else wrap_int (Site_Count site - 1));
                  Site_Connections := Site_Connections site ∖ {[c]} |}]>
          (site_mem w)))
    (<[c := with_send cl {| chan_buf := chan_buf (Client_send cl);
                            chan_closed := true |}]> (client_mem w)).

(** The [Site] after [handleRegister] has added the client and counted it,
    when the count does not overflow. *)
Definition attached (c : positive) (site : Site) : Site :=
  {| Site_ID := Site_ID site; Site_Count := Site_Count site + 1;
     Site_Connections := {[c]} ∪ Site_Connections site |}.

(** The count of a site is the number of its members, and not negative. *)
Definition count_matches (s : Site) : Prop :=
  Site_Count s = Z.of_nat (size (Site_Connections s)) ∧ 0 ≤ Site_Count s.

(** ** Invariants of the hub *)

(** [s'] is [s] with some members removed. *)
Definition site_shrinks (s s' : Site) : Prop :=
  Site_ID s' = Site_ID s ∧ Site_Count s' = Site_Count s ∧
  Site_Connections s' ⊆ Site_Connections s.

(** The same [Site] objects are allocated in [w] and [w'], and each of
    [w'] is the one of [w] with some members removed. *)
Definition sites_shrink (w w' : State) : Prop :=
  ∀ q, option_Forall2 site_shrinks (site_mem w !! q) (site_mem w' !! q).

(** What holds of the hub between two events of a sequential run (not of
    every state of the server, see [switch_overtaken] and
    [join_overtaken]): the registry leads to sites
    carrying their key; the site a client refers to is allocated; a member
    of a site is a client that refers to this site and whose [send]
    channel is open; a client without a site has an open channel; a client
    that refers to a site without being a member of it has a closed one;
    no queue holds more than its capacity. *)
Record hub_inv (w : State) : Prop := mk_hub_inv {
  inv_registry : registry_wf w;
  inv_site :
    ∀ c cl p, client_mem w !! c = Some cl → Client_site cl = Some p →
              is_Some (site_mem w !! p);
  inv_member :
    ∀ p s c, site_mem w !! p = Some s → c ∈ Site_Connections s →
             ∃ cl, client_mem w !! c = Some cl ∧ Client_site cl = Some p ∧
                   chan_closed (Client_send cl) = false;
  inv_idle :
    ∀ c cl, client_mem w !! c = Some cl → Client_site cl = None →
            chan_closed (Client_send cl) = false;
  inv_left :
    ∀ c cl p s, client_mem w !! c = Some cl → Client_site cl = Some p →
                site_mem w !! p = Some s → c ∉ Site_Connections s →
                chan_closed (Client_send cl) = true;
  inv_capacity :
    ∀ c cl, client_mem w !! c = Some cl →
            (length (chan_buf (Client_send cl)) ≤ send_capacity)%nat
}.

(** The count of every site is at least the number of its members and at
    most [n]. *)
Definition counts_le (n : Z) (w : State) : Prop :=
  ∀ p s, site_mem w !! p = Some s →
         Z.of_nat (size (Site_Connections s)) ≤ Site_Count s ≤ n.

(** The count of every site is at least the number of its members and at
    most the number of commands the hub has received. *)
Definition counts_inv (w : State) : Prop :=
  counts_le (Z.of_nat (length (received w))) w.

(** Every message waiting in a queue is an update with a count of at
    least one. *)
Definition queues_ok (w : State) : Prop :=
  ∀ c cl m, client_mem w !! c = Some cl → m ∈ chan_buf (Client_send cl) →
            Message_Type m = "update" ∧ 1 ≤ Message_Count m.

(** The frame [inp] asks client [c], which refers to a site, to join a
    site with another key. *)
Definition switches (c : positive) (inp : Inbound) (w : State) : Prop :=
  ∃ msg cl p site,
    inp = Decoded msg ∧ Message_Type msg = "join" ∧ Message_SiteID msg ≠ "" ∧
    client_mem w !! c = Some cl ∧ Client_site cl = Some p ∧
    site_mem w !! p = Some site ∧
    Site_ID site ≠ TrimSpace (Message_SiteID msg).

(** The states of the hub the server gets into, before [main] starts its
    shutdown loop. *)
Definition reachable (w : State) : Prop :=
  ∃ acts sv, run_actions acts boot = Ok sv ∧ shared sv = w.

(** The counts of the updates waiting in the queue of client [c]. *)
Definition queued_counts (c : positive) (w : State) : list Z :=
  match client_mem w !! c with
  | Some cl => Message_Count <$> chan_buf (Client_send cl)
  | None => []
  end.

(** ** The write loop until it waits or returns *)

(** How a run of the [for] loop of [writePump] stands: the receive from
    [c.send] blocks, the function has returned, or the run was cut short. *)
Inductive Writer :=
| Waiting
| Returned
| Running.

(** At most [fuel] receives of [writePump] from [c.send], with the
    messages handed to [WriteJSON], oldest first. *)
Fixpoint writePump_run (fuel : nat) (c : positive) (w : State)
    : outcome (list Message * Writer * State) :=
  match fuel with
  | O => Ok ([], Running, w)
  | S fuel' =>
      r ← writePump_recv c w;
      match r with
      | None => Ok ([], Waiting, w)
      | Some (Break, _, w1) => Ok ([], Returned, w1)
      | Some (Continue, written, w1) =>
          '(rest, st, w2) ← writePump_run fuel' c w1;
          Ok (match written with Some m => m :: rest | None => rest end, st, w2)
      end
  end.

(** ** The shutdown notice of [main] *)

(** The struct literal [shutdownMsg]. *)
Definition shutdown_message : Message :=
  {| Message_Type := "shutdown"; Message_SiteID := ""; Message_Count := 0;
     Message_Message := "服务器重启中，请稍后重连"; Message_Timestamp := 0 |}.

(** [for client := range site.Connections]: the notice is sent if the
    queue has room, and the connection is closed either way.  A send on a
    closed channel panics also under [select] with a [default] branch. *)
Fixpoint shutdown_clients (l : list positive) (w : State) : outcome State :=
  match l with
  | [] => Ok w
  | client :: l' =>
      cl ← deref (client_mem w) client;
      w1 ← match try_send (Client_send cl) shutdown_message with
           | Sent ch =>
               Ok (set_client_mem w (<[client := with_send cl ch]> (client_mem w)))
           | WouldBlock => Ok w
           | SendPanics => Panic send_on_closed_channel
           end;
      w2 ← conn_Close client w1;
      shutdown_clients l' w2
  end.

(** [for _, site := range hub.sites]. *)
Fixpoint shutdown_sites (l : list (string * positive)) (w : State)
    : outcome State :=
  match l with
  | [] => Ok w
  | (_, p) :: l' =>
      site ← deref (site_mem w) p;
      w1 ← shutdown_clients (elements (Site_Connections site)) w;
      shutdown_sites l' w1
  end.

(** The part of [main] that runs after the quit signal. *)
Definition main_shutdown (w : State) : outcome State :=
  shutdown_sites (map_to_list (sites w)) w.

(** ** The HTTP request: [getRealIP] and [parseJSConfig] *)

(** What the handlers read of a [*http.Request]: [Request_Header] is
    [r.Header.Get] (the first value of the header, the empty string when
    there is none), [Request_Query] is [r.URL.Query()]. *)
Record Request := mkRequest {
  Request_Header : string → string;
  Request_RemoteAddr : string;
  Request_Query : gmap string (list string)
}.

(** [strings.Split(s, sep)] for a separator of one byte. *)
Fixpoint Split (sep : Ascii.ascii) (s : string) : list string :=
  match s with
  | EmptyString => [EmptyString]
  | String a s' =>
      if decide (a = sep) then EmptyString :: Split sep s'
      else match Split sep s' with
           | field :: fields => String a field :: fields
           | [] => [String a EmptyString]
           end
  end.

(** [getRealIP]; [None] is the panic of an index out of range. *)
Definition getRealIP (r : Request) : option string :=
  let ip := Request_Header r "X-Forwarded-For" in
  if decide (ip ≠ "") then Split ","%char ip !! 0%nat
  else
    let ip := Request_Header r "X-Real-IP" in
    if decide (ip ≠ "") then Some ip
    else
      let ip := Request_Header r "CF-Connecting-IP" in
      if decide (ip ≠ "") then Some ip
      else Some (Request_RemoteAddr r).

(** [type JSConfig struct]. *)
Record JSConfig := mkJSConfig {
  JSConfig_SiteID : string;
  JSConfig_DisplayElementID : string;
  JSConfig_ReconnectDelay : Z;
  JSConfig_Debug : bool;
  JSConfig_Type : string
}.

Definition with_SiteID (config : JSConfig) (siteID : string) : JSConfig :=
  {| JSConfig_SiteID := siteID;
     JSConfig_DisplayElementID := JSConfig_DisplayElementID config;
     JSConfig_ReconnectDelay := JSConfig_ReconnectDelay config;
     JSConfig_Debug := JSConfig_Debug config;
     JSConfig_Type := JSConfig_Type config |}.

(** [url.Values.Get]: the first value of the key, the empty string when
    the key has none. *)
Definition Values_Get (params : gmap string (list string)) (key : string)
    : string :=
  match params !! key with
  | Some (value :: _) => value
  | _ => ""
  end.

Definition getParam (params : gmap string (list string))
    (key defaultValue : string) : string :=
  let value := Values_Get params key in
  if decide (value ≠ "") then value else defaultValue.

(** [strconv.ParseBool]; [None] is the syntax error. *)
Definition ParseBool (str : string) : option bool :=
  if bool_decide (str ∈ ["1"; "t"; "T"; "true"; "TRUE"; "True"]) then Some true
  else if bool_decide (str ∈ ["0"; "f"; "F"; "false"; "FALSE"; "False"])
       then Some false
       else None.

Definition getBoolParam (params : gmap string (list string)) (key : string)
    (defaultValue : bool) : bool :=
  let value := Values_Get params key in
  if decide (value ≠ "") then
    match ParseBool value with
    | Some boolValue => boolValue
    | None => defaultValue
    end
  else defaultValue.

Section request_parsers.

(** [strconv.Atoi] and the [Host] of [url.Parse], [None] being the error;
    the functions below do not depend on how these parse. *)
Variable Atoi : string → option Z.
Variable url_Parse_Host : string → option string.

Definition getIntParam (params : gmap string (list string)) (key : string)
    (defaultValue : Z) : Z :=
  let value := Values_Get params key in
  if decide (value ≠ "") then
    match Atoi value with
    | Some intValue => intValue
    | None => defaultValue
    end
  else defaultValue.

Definition parseJSConfig (r : Request) : JSConfig :=
  let params := Request_Query r in
  let config :=
    {| JSConfig_SiteID := getParam params "siteId" "";
       JSConfig_DisplayElementID := getParam params "displayElementId" "liveuser";
       JSConfig_ReconnectDelay := getIntParam params "reconnectDelay" 3000;
       JSConfig_Debug := getBoolParam params "debug" true;
       JSConfig_Type := getParam params "type" "all" |} in
  if decide (JSConfig_SiteID config = "") then
    let referer := Request_Header r "Referer" in
    let config1 :=
      if decide (referer ≠ "") then
        match url_Parse_Host referer with
        | Some host => with_SiteID config host
        | None => config
        end
      else config in
    if decide (JSConfig_SiteID config1 = "") then with_SiteID config1 "default-site"
    else config1
  else config.

End request_parsers.

(** ** Vocabulary of the shutdown and of a leave *)



(** ** Runs in which no queue fills up *)

(** No [send] queue is full. *)
Definition no_backlog (w : State) : bool :=
  bool_decide (map_Forall (λ _ cl, chan_full (Client_send cl) = false)
                 (client_mem w)).

(** No [send] queue is full when an event of the run starts. *)
Fixpoint calm (es : list (Z * Event)) (w : State) : bool :=
  match es with
  | [] => true
  | (now, e) :: es' =>
      no_backlog w &&
      match run_event now e w with
      | Ok w' => calm es' w'
      | Panic _ => true
      end
  end.

(** The count of every site is the number of its members, the site
    registered under a key has members, and a site that has members is
    registered under its [ID]. *)
Record tidy (w : State) : Prop := mk_tidy {
  tidy_count : ∀ p s, site_mem w !! p = Some s → count_matches s;
  tidy_registered :
    ∀ k p, sites w !! k = Some p →
           ∃ s, site_mem w !! p = Some s ∧ Site_Connections s ≠ ∅;
  tidy_members :
    ∀ p s, site_mem w !! p = Some s → Site_Connections s ≠ ∅ →
           sites w !! Site_ID s = Some p
}.

(** ** States and runs used as examples *)

Definition join (siteID : string) : Inbound :=
  Decoded {| Message_Type := "join"; Message_SiteID := siteID;
             Message_Count := 0; Message_Message := "";
             Message_Timestamp := 0 |}.

(** A viewer connects, joins [blog] and goes away again. *)
Definition visit (now : Z) (c : positive) : list (Z * Event) :=
  [(now, Accepts "198.51.100.20"); (now, Reads c (join "blog"));
   (now, Writes c); (now + 1, Reads c ReadError)].

(** Viewer 1 joins [blog] and its writer never gets to take a message from
    the queue; seven viewers come and go, and viewer 9 joins: sixteen
    updates are waiting in the queue of viewer 1. *)
Definition stalled_viewer : list (Z * Event) :=
  [(0, Accepts "203.0.113.7"); (0, Reads 1%positive (join "blog"))]
  ++ visit 10 2 ++ visit 20 3 ++ visit 30 4 ++ visit 40 5
  ++ visit 50 6 ++ visit 60 7 ++ visit 70 8
  ++ [(80, Accepts "198.51.100.21"); (80, Reads 9%positive (join "blog"))].

(** Three viewers join [blog] one after the other. *)
Definition three_join : list (Z * Event) :=
  [(0, Accepts "203.0.113.1"); (1, Reads 1%positive (join "blog"));
   (2, Accepts "203.0.113.2"); (3, Reads 2%positive (join "blog"));
   (4, Accepts "203.0.113.3"); (5, Reads 3%positive (join "blog"))].

(** A client of site [blog] with [queued] updates waiting. *)
Definition example_client (site : option positive) (queued : nat) : Client :=
  {| Client_conn_open := true; Client_site := site;
     Client_send := {| chan_buf := replicate queued (update_message "blog" 1 0);
                       chan_closed := false |};
     Client_ip := "203.0.113.7" |}.

(** A site with two members, the first of which has sixteen updates
    waiting in its queue. *)
Definition slow_member_site : Site :=
  {| Site_ID := "blog"; Site_Count := 2;
     Site_Connections := {[1%positive; 2%positive]} |}.

Definition slow_member_state : State :=
  {| sites := {["blog" := 1%positive]};
     site_mem := {[1%positive := slow_member_site]};
     client_mem := <[1%positive := example_client (Some 1%positive) 16]>
                     {[2%positive := example_client (Some 1%positive) 0]};
     received := [] |}.

(** One viewer has joined [blog]. *)
Definition joined_state : State :=
  {| sites := {["blog" := 1%positive]};
     site_mem := {[1%positive := {| Site_ID := "blog"; Site_Count := 1;
                                    Site_Connections := {[1%positive]} |}]};
     client_mem := {[1%positive := example_client (Some 1%positive) 1]};
     received := [Register 1%positive] |}.



(** Viewer 1 joins [blog]; viewer 2 connects and its reader resolves
    [blog] to the registered aggregate; viewer 1 goes away, the hub
    detaches it and reclaims the aggregate, before it takes the register
    command of viewer 2. *)
Definition reclaimed_before_attach : outcome State :=
  w ← run_events [(0, Accepts "203.0.113.7"); (0, Reads 1%positive (join "blog"));
                  (1, Accepts "198.51.100.20")] NewHub;
  w ← resolve_site 2 "blog" w;
  run_events [(2, Reads 1%positive ReadError)] w.

(** After that, a third viewer connects and joins [blog], for which
    [getSite] makes a new aggregate. *)
Definition rehomed_before_attach : outcome State :=
  w ← reclaimed_before_attach;
  run_events [(3, Accepts "198.51.100.21"); (3, Reads 3%positive (join "blog"))] w.

(** ** What every step of the server keeps *)

(** The number of commands whose handler may have counted a client: the
    commands received, but for a [register] whose handler is still to
    run. *)
Definition handled (sv : Server) : Z :=
  Z.of_nat (length (received (shared sv)))
  - match pending sv with
    | Some (Register _) => 1
    | _ => 0
    end.

(** No count is below the number of members or above the number of
    commands handled, and the queues hold updates with a count of at least
    one. *)
Definition counted (sv : Server) : Prop :=
  0 ≤ handled sv ∧
  counts_le (handled sv) (shared sv) ∧
  queues_ok (shared sv).

(** The keys of the registry, and the keys the readers are about to
    resolve, are trimmed. *)
Definition keys_trimmed (sv : Server) : Prop :=
  (∀ k p, sites (shared sv) !! k = Some p → TrimSpace k = k) ∧
  (∀ c k, readers sv !! c = Some (AtTest k) → TrimSpace k = k).

(** A viewer connects and joins [blog], step by step. *)
Definition first_join : list (Z * Action) :=
  [(0, Upgrade "203.0.113.7"); (0, Frame 1%positive (join "blog"));
   (0, ReaderStep 1%positive); (0, ReaderStep 1%positive);
   (0, ReaderStep 1%positive); (0, HubStep)].

(** Viewer 1 of [blog] asks for [news]: the hub handles the unregister
    command before the reader has assigned the new site, or after. *)
Definition switch_in_order : list (Z * Action) :=
  first_join
  ++ [(5, Frame 1%positive (join "news")); (5, HubStep);
      (5, ReaderStep 1%positive); (5, ReaderStep 1%positive);
      (5, ReaderStep 1%positive); (5, HubStep)].

Definition switch_overtaken : list (Z * Action) :=
  first_join
  ++ [(5, Frame 1%positive (join "news")); (5, ReaderStep 1%positive);
      (5, ReaderStep 1%positive); (5, HubStep);
      (5, ReaderStep 1%positive); (5, HubStep)].

(** Viewer 2 resolves [blog] and assigns it; viewer 1 goes away and the
    hub reclaims the aggregate before viewer 2 sends its register
    command. *)
Definition join_overtaken : list (Z * Action) :=
  first_join
  ++ [(1, Upgrade "198.51.100.20"); (1, Frame 2%positive (join "blog"));
      (1, ReaderStep 2%positive); (1, ReaderStep 2%positive);
      (2, Frame 1%positive ReadError); (2, ReaderStep 1%positive);
      (2, HubStep); (2, ReaderStep 1%positive)].

(** After the overtaken switch viewer 1 goes away; then a second viewer
    joins [blog]. *)
Definition leave_after_switch : list (Z * Action) :=
  switch_overtaken
  ++ [(6, Frame 1%positive ReadError); (6, ReaderStep 1%positive);
      (6, HubStep); (6, ReaderStep 1%positive)].

Definition join_after_switch : list (Z * Action) :=
  leave_after_switch
  ++ [(7, Upgrade "198.51.100.20"); (7, Frame 2%positive (join "blog"));
      (7, ReaderStep 2%positive); (7, ReaderStep 2%positive);
      (7, ReaderStep 2%positive); (7, HubStep)].

(** * Properties *)

(** ** The monad and the channel operations *)

Lemma bind_Ok {A B} (f : A → outcome B) (a : A) : (Ok a ≫= f) = f a.
Proof. reflexivity. Qed.

Lemma bind_Ok_inv {A B} (f : A → outcome B) (m : outcome A) (b : B) :
  (m ≫= f) = Ok b → ∃ a, m = Ok a ∧ f a = Ok b.
Proof. destruct m as [a|p]; simpl; [eauto | discriminate]. Qed.

Lemma deref_Some {A} (m : gmap positive A) p a : m !! p = Some a → deref m p = Ok a.
Proof. unfold deref. by intros ->. Qed.

Lemma deref_Ok_inv {A} (m : gmap positive A) p a : deref m p = Ok a → m !! p = Some a.
Proof. unfold deref. destruct (m !! p); congruence. Qed.

(** Open a [deref] of a pointer whose target is known. *)
Ltac deref_with H := rewrite (deref_Some _ _ _ H), bind_Ok.

Lemma try_send_open ch m :
  chan_closed ch = false →
  try_send ch m =
    if chan_full ch then WouldBlock
    else Sent {| chan_buf := chan_buf ch ++ [m]; chan_closed := false |}.
Proof. unfold try_send. by intros ->. Qed.

Lemma close_chan_open ch :
  chan_closed ch = false →
  close_chan ch = Ok {| chan_buf := chan_buf ch; chan_closed := true |}.
Proof. unfold close_chan. by intros ->. Qed.

Lemma wrap_int_small z : int_min ≤ z ≤ int_max → wrap_int z = z.
Proof.
  unfold int_min, int_max, wrap_int. intros Hz.
  rewrite Z.mod_small by lia. lia.
Qed.

(** ** [strings.TrimSpace] on some keys *)

Example TrimSpace_ascii : TrimSpace "  blog " = "blog".
Proof. reflexivity. Qed.

Example TrimSpace_inner : TrimSpace " my blog" = "my blog".
Proof. reflexivity. Qed.

(** A no-break space (U+00A0) in front, a line separator (U+2028) and a
    line feed behind. *)
Example TrimSpace_unicode :
  TrimSpace (string_of_bytes [194; 160; 98; 108; 111; 103; 226; 128; 168; 10]%N)
  = "blog".
Proof. reflexivity. Qed.

(** A key of white space only passes the test [msg.SiteID != ""] of
    [readPump] and trims to the empty key. *)
Example TrimSpace_blank : TrimSpace "   " = "".
Proof. reflexivity. Qed.

(** ** The broadcast loop *)

Section broadcast_pass.
Context (message : Message).

(** One step of the loop on a member whose channel is open. *)
Lemma broadcast_loop_cons_open c l conns clients cl :
  clients !! c = Some cl →
  chan_closed (Client_send cl) = false →
  broadcast_loop message (c :: l) conns clients =
    broadcast_loop message l
      (if chan_full (Client_send cl) then conns ∖ {[c]} else conns)
      (<[c := deliver message cl]> clients).
Proof.
  intros Hc Hopen. simpl. deref_with Hc.
  rewrite try_send_open by done. unfold deliver.
  destruct (chan_full (Client_send cl)); [|done].
  by rewrite close_chan_open.
Qed.

(** A completed pass only removes members, keeps every [Client] object
    allocated and leaves the fields other than [send] alone. *)
Lemma broadcast_loop_frame l :
  ∀ conns clients conns' clients',
  broadcast_loop message l conns clients = Ok (conns', clients') →
  conns' ⊆ conns ∧
  (∀ c, c ∉ l → clients' !! c = clients !! c) ∧
  (∀ c cl, clients !! c = Some cl →
     ∃ cl', clients' !! c = Some cl' ∧
            Client_site cl' = Client_site cl ∧
            Client_conn_open cl' = Client_conn_open cl ∧
            Client_ip cl' = Client_ip cl ∧
            (chan_closed (Client_send cl) = true →
             chan_closed (Client_send cl') = true)).
Proof.
  induction l as [|x l IH]; intros conns clients conns' clients' Hrun.
  - simpl in Hrun. injection Hrun as <- <-. split; [done|]. split; [done|].
    intros c cl Hc. exists cl. by rewrite Hc.
  - simpl in Hrun. apply bind_Ok_inv in Hrun as (clx & Hx & Hrun).
    apply deref_Ok_inv in Hx.
    assert (∃ conns1 ch,
      conns1 ⊆ conns ∧
      broadcast_loop message l conns1 (<[x := with_send clx ch]> clients)
        = Ok (conns', clients')) as (conns1 & ch & Hsub & Hrec).
    { destruct (try_send (Client_send clx) message) as [ch| |]; [| |done].
      - exists conns, ch. by split.
      - apply bind_Ok_inv in Hrun as (ch & _ & Hrun).
        exists (conns ∖ {[x]}), ch. split; [set_solver|done]. }
    destruct (IH _ _ _ _ Hrec) as (Hsub' & Hout & Hin).
    split; [set_solver|]. split.
    + intros c Hc. rewrite Hout by set_solver.
      apply lookup_insert_ne. set_solver.
    + intros c cl Hc. destruct (decide (c = x)) as [->|Hne].
      * assert (cl = clx) as -> by congruence.
        destruct (Hin x (with_send clx ch)) as (cl' & ? & ? & ? & ? & Hcl).
        { apply lookup_insert_eq. }
        exists cl'. repeat split; try done.
        intros Hclosed. revert Hrun. unfold try_send. by rewrite Hclosed.
      * apply Hin. by rewrite lookup_insert_ne.
Qed.

(** The pass over members whose channels are all open: it completes, the
    members with a full queue are exactly the ones removed, and every
    visited [Client] is [deliver]ed to. *)
Lemma broadcast_loop_spec l :
  ∀ conns clients,
  NoDup l →
  (∀ c, c ∈ l → ∃ cl, clients !! c = Some cl ∧
                      chan_closed (Client_send cl) = false) →
  ∃ conns' clients',
    broadcast_loop message l conns clients = Ok (conns', clients') ∧
    (∀ c, c ∈ conns' ↔
          c ∈ conns ∧
          ¬ (c ∈ l ∧ ∃ cl, clients !! c = Some cl ∧
                           chan_full (Client_send cl) = true)) ∧
    (∀ c, c ∉ l → clients' !! c = clients !! c) ∧
    (∀ c cl, c ∈ l → clients !! c = Some cl →
             clients' !! c = Some (deliver message cl)).
Proof.
  induction l as [|x l IH]; intros conns clients Hnd Hopen.
  - exists conns, clients. simpl. split; [done|]. split; [|split].
    + intros c. split; [intros Hc; split; [done|] | tauto].
      intros [Hin _]. by apply elem_of_nil in Hin.
    + done.
    + intros c cl Hin. by apply elem_of_nil in Hin.
  - apply NoDup_cons in Hnd as [Hx Hnd].
    destruct (Hopen x) as (clx & Hclx & Hxopen); [left|].
    rewrite (broadcast_loop_cons_open _ _ _ _ _ Hclx Hxopen).
    destruct (IH (if chan_full (Client_send clx) then conns ∖ {[x]} else conns)
                 (<[x := deliver message clx]> clients) Hnd)
      as (conns' & clients' & Hrun & Hconns & Hout & Hin).
    { intros c Hc. destruct (Hopen c) as (cl & Hcl & Hcopen); [by right|].
      exists cl. split; [|done].
      rewrite lookup_insert_ne; [done|]. intros ->. done. }
    exists conns', clients'. split; [done|]. split; [|split].
    + intros c. rewrite Hconns. destruct (decide (c = x)) as [->|Hne].
      * rewrite lookup_insert_eq.
        destruct (chan_full (Client_send clx)) eqn:Hfull.
        -- split; [set_solver|]. intros [_ Hno]. exfalso. apply Hno.
           split; [left|]. eauto.
        -- split.
           ++ intros [Hc _]. split; [done|]. intros [_ (cl & Hcl & Hf)].
              congruence.
           ++ intros [Hc _]. split; [done|]. by intros [Hxl _].
      * rewrite lookup_insert_ne by done.
        assert (c ∈ x :: l ↔ c ∈ l) as -> by set_solver.
        destruct (chan_full (Client_send clx)); set_solver.
    + intros c Hc. rewrite Hout by set_solver.
      apply lookup_insert_ne. set_solver.
    + intros c cl Hc Hcl. apply elem_of_cons in Hc as [->|Hc].
      * rewrite Hout by done. rewrite lookup_insert_eq. congruence.
      * apply Hin; [done|]. rewrite lookup_insert_ne; [done|].
        intros ->. done.
Qed.

(** A member whose channel is already closed makes the pass panic. *)
Lemma broadcast_loop_closed_member l :
  ∀ conns clients c cl,
  c ∈ l → clients !! c = Some cl → chan_closed (Client_send cl) = true →
  ∃ p, broadcast_loop message l conns clients = Panic p.
Proof.
  induction l as [|x l IH]; intros conns clients c cl Hin Hc Hclosed.
  - by apply elem_of_nil in Hin.
  - simpl. destruct (clients !! x) as [clx|] eqn:Hx.
    2:{ unfold deref. rewrite Hx. simpl. eauto. }
    deref_with Hx.
    destruct (decide (x = c)) as [->|Hne].
    + assert (clx = cl) as -> by congruence.
      unfold try_send. rewrite Hclosed. eauto.
    + assert (c ∈ l) as Hcl by set_solver.
      unfold try_send.
      destruct (chan_closed (Client_send clx)) eqn:Hxc; [eauto|].
      destruct (chan_full (Client_send clx)).
      * rewrite close_chan_open by done. rewrite bind_Ok.
        eapply IH; [done| |done]. by rewrite lookup_insert_ne.
      * eapply IH; [done| |done]. by rewrite lookup_insert_ne.
Qed.

(** ** The order of the broadcast pass

    Go visits the keys of a map in an unspecified order.  The embedding
    visits them in the order of [elements]; the outcome of the pass is the
    same for every order. *)

Lemma broadcast_loop_cons x l conns clients :
  broadcast_loop message (x :: l) conns clients =
    match clients !! x with
    | None => Panic invalid_pointer
    | Some cl =>
        if chan_closed (Client_send cl) then Panic send_on_closed_channel
        else broadcast_loop message l
               (if chan_full (Client_send cl) then conns ∖ {[x]} else conns)
               (<[x := deliver message cl]> clients)
    end.
Proof.
  destruct (clients !! x) as [cl|] eqn:Hx.
  - destruct (chan_closed (Client_send cl)) eqn:Hclosed.
    + simpl. deref_with Hx.
      unfold try_send. by rewrite Hclosed.
    + by apply broadcast_loop_cons_open.
  - simpl. unfold deref. by rewrite Hx.
Qed.

Lemma broadcast_loop_swap x y l conns clients :
  is_Some (clients !! x) → is_Some (clients !! y) →
  broadcast_loop message (x :: y :: l) conns clients =
  broadcast_loop message (y :: x :: l) conns clients.
Proof.
  intros [clx Hx] [cly Hy]. destruct (decide (x = y)) as [->|Hne]; [done|].
  rewrite !broadcast_loop_cons, Hx, Hy.
  destruct (chan_closed (Client_send clx)) eqn:Hcx;
    destruct (chan_closed (Client_send cly)) eqn:Hcy;
    rewrite ?broadcast_loop_cons, ?lookup_insert_ne, ?Hx, ?Hy, ?Hcx, ?Hcy
      by done; try done.
  rewrite (insert_insert_ne (M:=gmap positive)) by done.
  f_equal.
  destruct (chan_full (Client_send clx)), (chan_full (Client_send cly));
    set_solver.
Qed.

(** X17: two passes that visit the same allocated members in different
    orders end alike: the same members are shed, the same queues get the
    message, or both passes panic. *)
Lemma broadcast_loop_perm l l' :
  l ≡ₚ l' →
  ∀ conns clients,
  (∀ c, c ∈ l → is_Some (clients !! c)) →
  broadcast_loop message l conns clients = broadcast_loop message l' conns clients.
Proof.
  induction 1 as [|x l l' Hperm IH|x y l|l l' l'' Hperm1 IH1 Hperm2 IH2];
    intros conns clients Halloc.
  - done.
  - rewrite !broadcast_loop_cons. destruct (clients !! x) as [cl|]; [|done].
    destruct (chan_closed (Client_send cl)); [done|].
    apply IH. intros c Hc. destruct (decide (c = x)) as [->|Hne].
    + rewrite lookup_insert_eq. eauto.
    + rewrite lookup_insert_ne by done. apply Halloc. by right.
  - apply broadcast_loop_swap; apply Halloc; set_solver.
  - rewrite IH1 by done. apply IH2. intros c Hc. apply Halloc.
    by rewrite Hperm1.
Qed.

End broadcast_pass.

(** ** [broadcastToSite] *)

(** A completed broadcast leaves the registry and the command history
    alone, changes no [Site] beyond shrinking a member set, and changes no
    [Client] beyond its [send] channel. *)
Lemma broadcastToSite_frame siteID count now w w' :
  broadcastToSite siteID count now w = Ok w' →
  sites w' = sites w ∧
  received w' = received w ∧
  (∀ q s, site_mem w !! q = Some s →
     ∃ s', site_mem w' !! q = Some s' ∧
           Site_ID s' = Site_ID s ∧ Site_Count s' = Site_Count s ∧
           Site_Connections s' ⊆ Site_Connections s) ∧
  (∀ c cl, client_mem w !! c = Some cl →
     ∃ cl', client_mem w' !! c = Some cl' ∧
            Client_site cl' = Client_site cl ∧
            Client_conn_open cl' = Client_conn_open cl ∧
            Client_ip cl' = Client_ip cl ∧
            (chan_closed (Client_send cl) = true →
             chan_closed (Client_send cl') = true)).
Proof.
  unfold broadcastToSite. destruct (sites w !! siteID) as [p|] eqn:Hreg.
  - intros Hrun. apply bind_Ok_inv in Hrun as (site & Hsite & Hrun).
    apply deref_Ok_inv in Hsite.
    apply bind_Ok_inv in Hrun as ([conns clients] & Hloop & Hrun).
    injection Hrun as <-. simpl.
    destruct (broadcast_loop_frame _ _ _ _ _ _ Hloop) as (Hsub & _ & Hcl).
    repeat split; try done.
    intros q s Hq. destruct (decide (q = p)) as [->|Hne].
    + rewrite lookup_insert_eq. eexists. split; [done|].
      assert (s = site) as -> by congruence. by simpl.
    + rewrite lookup_insert_ne by done. exists s. by rewrite Hq.
  - intros [= <-]. repeat split; try done.
    + intros q s Hq. exists s. by rewrite Hq.
    + intros c cl Hc. exists cl. by rewrite Hc.
Qed.

(** The broadcast to a registered aggregate all of whose members have an
    open channel. *)
Lemma broadcastToSite_spec siteID count now w p site :
  sites w !! siteID = Some p →
  site_mem w !! p = Some site →
  (∀ c, c ∈ Site_Connections site →
        ∃ cl, client_mem w !! c = Some cl ∧
              chan_closed (Client_send cl) = false) →
  ∃ w' conns',
    broadcastToSite siteID count now w = Ok w' ∧
    sites w' = sites w ∧
    received w' = received w ∧
    site_mem w' = <[p := with_Connections site conns']> (site_mem w) ∧
    (∀ c, c ∈ conns' ↔
          c ∈ Site_Connections site ∧
          ¬ ∃ cl, client_mem w !! c = Some cl ∧
                  chan_full (Client_send cl) = true) ∧
    (∀ c, c ∉ Site_Connections site → client_mem w' !! c = client_mem w !! c) ∧
    (∀ c cl, c ∈ Site_Connections site → client_mem w !! c = Some cl →
       client_mem w' !! c = Some (deliver (update_message siteID count now) cl)).
Proof.
  intros Hreg Hsite Hopen. unfold broadcastToSite. rewrite Hreg.
  deref_with Hsite.
  destruct (broadcast_loop_spec (update_message siteID count now)
              (elements (Site_Connections site)) (Site_Connections site)
              (client_mem w))
    as (conns' & clients' & Hrun & Hconns & Hout & Hin).
  { apply NoDup_elements. }
  { intros c Hc. apply Hopen. by apply elem_of_elements. }
  rewrite Hrun, bind_Ok. eexists _, conns'. split; [done|]. simpl.
  split; [done|]. split; [done|]. split; [done|]. split; [|split].
  - intros c. rewrite Hconns, elem_of_elements. tauto.
  - intros c Hc. apply Hout. by rewrite elem_of_elements.
  - intros c cl Hc Hcl. apply Hin; [by apply elem_of_elements | done].
Qed.

(** C2: for a registered site whose members all have an open queue and
    exactly one of them, [slow], a full one, [broadcastToSite] completes,
    removes exactly [slow] from the member set and closes its queue, and
    appends the update to the queue of each of the other members; the
    [Count] field of the site is left as it was, one more than the number
    of members that remain when it matched before. *)
Theorem broadcast_sheds_full_member siteID count now w p site slow :
  sites w !! siteID = Some p →
  site_mem w !! p = Some site →
  slow ∈ Site_Connections site →
  (∀ c, c ∈ Site_Connections site →
        ∃ cl, client_mem w !! c = Some cl ∧
              chan_closed (Client_send cl) = false ∧
              (chan_full (Client_send cl) = true ↔ c = slow)) →
  ∃ w' site',
    broadcastToSite siteID count now w = Ok w' ∧
    site_mem w' !! p = Some site' ∧
    Site_Connections site' = Site_Connections site ∖ {[slow]} ∧
    S (size (Site_Connections site')) = size (Site_Connections site) ∧
    Site_Count site' = Site_Count site ∧
    (∀ c cl, c ∈ Site_Connections site → c ≠ slow →
       client_mem w !! c = Some cl →
       client_mem w' !! c =
         Some (with_send cl
                 {| chan_buf := chan_buf (Client_send cl)
                                ++ [update_message siteID count now];
                    chan_closed := false |})) ∧
    (∀ cl, client_mem w !! slow = Some cl →
       client_mem w' !! slow =
         Some (with_send cl {| chan_buf := chan_buf (Client_send cl);
                               chan_closed := true |})).
Proof.
  intros Hreg Hsite Hslow Hmembers.
  destruct (broadcastToSite_spec siteID count now w p site Hreg Hsite)
    as (w' & conns' & Hrun & _ & _ & Hmem & Hconns & _ & Hin).
  { intros c Hc. destruct (Hmembers c Hc) as (cl & ? & ? & _). eauto. }
  assert (conns' = Site_Connections site ∖ {[slow]}) as ->.
  { apply set_eq. intros c.
    rewrite Hconns, elem_of_difference, elem_of_singleton.
    split; intros [Hc Hno]; (split; [done|]).
    - intros ->. apply Hno. destruct (Hmembers slow Hc) as (cl & ? & _ & Hf).
      exists cl. split; [done|]. by apply Hf.
    - intros (cl & Hcl & Hf). destruct (Hmembers c Hc) as (cl' & Hcl' & _ & Hiff).
      apply Hno, Hiff. congruence. }
  exists w', (with_Connections site (Site_Connections site ∖ {[slow]})).
  split; [done|]. split; [by rewrite Hmem, lookup_insert_eq|].
  split; [done|]. split; [|split; [done|split]].
  - simpl. rewrite size_difference by set_solver. rewrite size_singleton.
    assert (size (Site_Connections site) ≠ 0%nat); [|lia].
    intros Hz. apply size_empty_inv in Hz. set_solver.
  - intros c cl Hc Hne Hcl. rewrite (Hin c cl Hc Hcl). unfold deliver.
    destruct (Hmembers c Hc) as (cl' & Hcl' & _ & Hiff).
    assert (cl' = cl) as -> by congruence.
    destruct (chan_full (Client_send cl)); [|done].
    exfalso. by apply Hne, Hiff.
  - intros cl Hcl. rewrite (Hin slow cl Hslow Hcl). unfold deliver.
    destruct (Hmembers slow Hslow) as (cl' & Hcl' & _ & Hiff).
    assert (cl' = cl) as -> by congruence.
    destruct (chan_full (Client_send cl)); [done|].
    assert (false = true) by by apply Hiff. done.
Qed.

Lemma broadcast_sheds_full_member_witness :
  ∃ w' site',
    broadcastToSite "blog" 2 100 slow_member_state = Ok w' ∧
    site_mem w' !! 1%positive = Some site' ∧
    Site_Connections site' = Site_Connections slow_member_site ∖ {[1%positive]} ∧
    S (size (Site_Connections site')) = size (Site_Connections slow_member_site) ∧
    Site_Count site' = Site_Count slow_member_site ∧
    (∀ c cl, c ∈ Site_Connections slow_member_site → c ≠ 1%positive →
       client_mem slow_member_state !! c = Some cl →
       client_mem w' !! c =
         Some (with_send cl
                 {| chan_buf := chan_buf (Client_send cl)
                                ++ [update_message "blog" 2 100];
                    chan_closed := false |})) ∧
    (∀ cl, client_mem slow_member_state !! 1%positive = Some cl →
       client_mem w' !! 1%positive =
         Some (with_send cl {| chan_buf := chan_buf (Client_send cl);
                               chan_closed := true |})).
Proof.
  apply (broadcast_sheds_full_member "blog" 2 100 slow_member_state
           1%positive slow_member_site 1%positive).
  - reflexivity.
  - reflexivity.
  - apply elem_of_union_l, elem_of_singleton. reflexivity.
  - intros c Hc. apply elem_of_union in Hc as [Hc|Hc];
      apply elem_of_singleton in Hc; subst c.
    + exists (example_client (Some 1%positive) 16).
      split; [reflexivity|]. split; [reflexivity|].
      split; reflexivity.
    + exists (example_client (Some 1%positive) 0).
      split; [reflexivity|]. split; [reflexivity|].
      split; intros H; discriminate H.
Defined.

(** ** [handleUnregister] *)

Lemma handleUnregister_member now c cl p site w :
  client_mem w !! c = Some cl →
  Client_site cl = Some p →
  site_mem w !! p = Some site →
  c ∈ Site_Connections site →
  chan_closed (Client_send cl) = false →
  handleUnregister now c w =
    if decide (size (Site_Connections site ∖ {[c]}) = 0%nat)
    then Ok (set_sites (detached c cl p site w) (delete (Site_ID site) (sites w)))
    else broadcastToSite (Site_ID site)
           (if wrap_int (Site_Count site - 1) <? 0 then 0
            else wrap_int (Site_Count site - 1))
           now (detached c cl p site w).
Proof.
  intros Hc Hp Hsite Hin Hopen. unfold handleUnregister.
  deref_with Hc. rewrite Hp.
  deref_with Hsite.
  rewrite decide_True by done. rewrite close_chan_open by done.
  rewrite bind_Ok. reflexivity.
Qed.

Lemma handleUnregister_member_closed now c cl p site w :
  client_mem w !! c = Some cl →
  Client_site cl = Some p →
  site_mem w !! p = Some site →
  c ∈ Site_Connections site →
  chan_closed (Client_send cl) = true →
  handleUnregister now c w = Panic close_of_closed_channel.
Proof.
  intros Hc Hp Hsite Hin Hclosed. unfold handleUnregister.
  deref_with Hc. rewrite Hp.
  deref_with Hsite.
  rewrite decide_True by done. unfold close_chan. by rewrite Hclosed.
Qed.

(** Detaching a client that is not a member, or has no site, changes
    nothing. *)
Lemma handleUnregister_noop now c cl w :
  client_mem w !! c = Some cl →
  (Client_site cl = None ∨
   ∃ p site, Client_site cl = Some p ∧ site_mem w !! p = Some site ∧
             c ∉ Site_Connections site) →
  handleUnregister now c w = Ok w.
Proof.
  intros Hc Hcase. unfold handleUnregister.
  deref_with Hc.
  destruct Hcase as [->|(p & site & -> & Hsite & Hnotin)]; [done|].
  deref_with Hsite. by rewrite decide_False.
Qed.

(** What a completed detach of a member leaves behind. *)
Lemma handleUnregister_member_Ok now c cl p site w w' :
  client_mem w !! c = Some cl →
  Client_site cl = Some p →
  site_mem w !! p = Some site →
  c ∈ Site_Connections site →
  handleUnregister now c w = Ok w' →
  (∃ cl', client_mem w' !! c = Some cl' ∧ Client_site cl' = Some p ∧
          chan_closed (Client_send cl') = true) ∧
  (∃ s', site_mem w' !! p = Some s' ∧ Site_ID s' = Site_ID site ∧
         c ∉ Site_Connections s') ∧
  received w' = received w ∧
  (registry_wf w → registry_wf w').
Proof.
  intros Hc Hp Hsite Hin Hrun.
  destruct (chan_closed (Client_send cl)) eqn:Hopen.
  { by rewrite (handleUnregister_member_closed _ _ _ _ _ _ Hc Hp Hsite Hin Hopen)
      in Hrun. }
  rewrite (handleUnregister_member _ _ _ _ _ _ Hc Hp Hsite Hin Hopen) in Hrun.
  set (w1 := detached c cl p site w) in *.
  assert (client_mem w1 !! c =
          Some (with_send cl {| chan_buf := chan_buf (Client_send cl);
                                chan_closed := true |})) as Hc1.
  { apply lookup_insert_eq. }
  assert (∃ s1, site_mem w1 !! p = Some s1 ∧ Site_ID s1 = Site_ID site ∧
                c ∉ Site_Connections s1) as (s1 & Hs1 & Hid1 & Hnot1).
  { eexists. split; [apply lookup_insert_eq|]. simpl. split; [done|set_solver]. }
  assert (registry_wf w → registry_wf w1) as Hwf1.
  { intros Hwf k q Hk. destruct (Hwf k q Hk) as (s & Hs & Hid).
    unfold w1, detached. simpl. destruct (decide (q = p)) as [->|Hne].
    - rewrite lookup_insert_eq. eexists. split; [done|]. simpl. congruence.
    - rewrite lookup_insert_ne by done. eauto. }
  destruct (decide (size (Site_Connections site ∖ {[c]}) = 0%nat)).
  - injection Hrun as <-. simpl. split; [eauto|]. split; [eauto|].
    split; [done|]. intros Hwf k q Hk. simpl in Hk.
    apply lookup_delete_Some in Hk as [_ Hk]. by apply (Hwf1 Hwf).
  - apply broadcastToSite_frame in Hrun as (Hsites & Hrecv & Hsm & Hcm).
    split; [|split; [|split]].
    + destruct (Hcm _ _ Hc1) as (cl' & ? & Hs & _ & _ & Hcl). exists cl'.
      split; [done|]. split; [by rewrite Hs|]. by apply Hcl.
    + destruct (Hsm _ _ Hs1) as (s' & ? & ? & ? & Hsub). exists s'.
      split; [done|]. split; [congruence|]. set_solver.
    + by rewrite Hrecv.
    + intros Hwf k q Hk. rewrite Hsites in Hk.
      destruct (Hwf1 Hwf k q Hk) as (s & Hs & Hid).
      destruct (Hsm _ _ Hs) as (s' & ? & ? & _). exists s'. split; [done|]. congruence.
Qed.

Lemma handleUnregister_twice now now' c w w' :
  handleUnregister now c w = Ok w' → handleUnregister now' c w' = Ok w'.
Proof.
  intros Hrun.
  destruct (client_mem w !! c) as [cl|] eqn:Hc.
  2:{ unfold handleUnregister, deref in Hrun. by rewrite Hc in Hrun. }
  destruct (Client_site cl) as [p|] eqn:Hp.
  2:{ rewrite (handleUnregister_noop now c cl w Hc) in Hrun by auto.
      injection Hrun as <-. apply (handleUnregister_noop _ _ cl); auto. }
  destruct (site_mem w !! p) as [site|] eqn:Hsite.
  2:{ unfold handleUnregister in Hrun.
      rewrite (deref_Some _ _ _ Hc), bind_Ok, Hp in Hrun.
      unfold deref in Hrun. by rewrite Hsite in Hrun. }
  destruct (decide (c ∈ Site_Connections site)) as [Hin|Hnotin].
  - destruct (handleUnregister_member_Ok _ _ _ _ _ _ _ Hc Hp Hsite Hin Hrun)
      as ((cl' & Hc' & Hp' & _) & (s' & Hs' & _ & Hnot') & _).
    apply (handleUnregister_noop _ _ cl'); [done|]. right. eauto.
  - assert (Client_site cl = None ∨
            ∃ p site, Client_site cl = Some p ∧ site_mem w !! p = Some site ∧
                      c ∉ Site_Connections site) as Hcase by (right; eauto).
    rewrite (handleUnregister_noop now c cl w Hc Hcase) in Hrun.
    injection Hrun as <-. by apply (handleUnregister_noop _ _ cl).
Qed.

(** C6: [handleUnregister] on a client that has no site, or that is not in
    the member set of its site, returns the state it was given: count,
    member set, registry and everything else are unchanged; and running
    [handleUnregister] twice on the same client gives what running it once
    gives. *)
Theorem handleUnregister_idempotent :
  (∀ now c cl w,
     client_mem w !! c = Some cl →
     (Client_site cl = None ∨
      ∃ p site, Client_site cl = Some p ∧ site_mem w !! p = Some site ∧
                c ∉ Site_Connections site) →
     handleUnregister now c w = Ok w) ∧
  (∀ now now' c w,
     (handleUnregister now c w ≫= handleUnregister now' c)
     = handleUnregister now c w).
Proof.
  split.
  - intros now c cl w. apply handleUnregister_noop.
  - intros now now' c w. destruct (handleUnregister now c w) as [w'|e] eqn:Hrun.
    + rewrite bind_Ok. by apply (handleUnregister_twice now now' c w w').
    + reflexivity.
Qed.

Lemma handleUnregister_idempotent_witness :
  handleUnregister 0 1 (handleWebSocket "203.0.113.7" NewHub).2
    = Ok (handleWebSocket "203.0.113.7" NewHub).2 ∧
  (handleUnregister 0 2 slow_member_state ≫= handleUnregister 1 2)
    = handleUnregister 0 2 slow_member_state.
Proof.
  split.
  - apply (proj1 handleUnregister_idempotent 0 1%positive
             {| Client_conn_open := true; Client_site := None;
                Client_send := make_chan; Client_ip := "203.0.113.7" |}).
    + reflexivity.
    + left. reflexivity.
  - apply (proj2 handleUnregister_idempotent).
Defined.

(** ** [getSite] *)

Lemma getSite_fresh w : site_mem w !! fresh (dom (site_mem w)) = None.
Proof. apply not_elem_of_dom, is_fresh. Qed.

Lemma getSite_registers siteID w p w' :
  getSite siteID w = (p, w') →
  registry_wf w →
  registry_wf w' ∧
  sites w' !! siteID = Some p ∧
  client_mem w' = client_mem w ∧
  received w' = received w ∧
  (∀ q s, site_mem w !! q = Some s → site_mem w' !! q = Some s).
Proof.
  unfold getSite. intros Hget Hwf.
  destruct (sites w !! siteID) as [p0|] eqn:Hreg.
  - injection Hget as <- <-. done.
  - injection Hget as <- <-. simpl. split; [|split; [|split; [|split]]].
    + intros k q Hk. simpl in *. destruct (decide (k = siteID)) as [->|Hne].
      * rewrite lookup_insert_eq in Hk. injection Hk as <-.
        rewrite lookup_insert_eq. eauto.
      * rewrite lookup_insert_ne in Hk by done.
        destruct (Hwf k q Hk) as (s & Hs & Hid). exists s. split; [|done].
        rewrite lookup_insert_ne; [done|]. intros <-.
        by rewrite getSite_fresh in Hs.
    + apply lookup_insert_eq.
    + done.
    + done.
    + intros q s Hq. rewrite lookup_insert_ne; [done|]. intros <-.
      by rewrite getSite_fresh in Hq.
Qed.

(** C7: [getSite] is total; under a registered key it returns the
    registered aggregate and changes nothing; under an absent key it
    allocates a new aggregate with the key as [ID], count zero and no
    members, registers it under the key and returns it, leaving all other
    objects alone; a second call with the same key returns the same
    aggregate and changes nothing. *)
Theorem getSite_spec siteID w :
  ∃ p w',
    getSite siteID w = (p, w') ∧
    sites w' !! siteID = Some p ∧
    (∀ p0, sites w !! siteID = Some p0 → p = p0 ∧ w' = w) ∧
    (sites w !! siteID = None →
       site_mem w !! p = None ∧
       site_mem w' !! p =
         Some {| Site_ID := siteID; Site_Count := 0; Site_Connections := ∅ |} ∧
       sites w' = <[siteID := p]> (sites w) ∧
       (∀ q, q ≠ p → site_mem w' !! q = site_mem w !! q) ∧
       client_mem w' = client_mem w ∧
       received w' = received w) ∧
    getSite siteID w' = (p, w').
Proof.
  unfold getSite at 1. destruct (sites w !! siteID) as [p0|] eqn:Hreg.
  - exists p0, w. split; [done|]. split; [done|]. split; [|split].
    + intros p1 [= <-]. done.
    + done.
    + unfold getSite. by rewrite Hreg.
  - eexists _, _. split; [done|]. simpl. split; [apply lookup_insert_eq|].
    split; [done|]. split.
    + intros _. split; [apply getSite_fresh|]. split; [apply lookup_insert_eq|].
      split; [done|]. split; [|done].
      intros q Hq. by apply lookup_insert_ne.
    + unfold getSite. simpl. by rewrite lookup_insert_eq.
Qed.

Lemma getSite_spec_witness :
  ∃ p w',
    getSite "blog" NewHub = (p, w') ∧
    sites w' !! "blog" = Some p ∧
    (∀ p0, sites NewHub !! "blog" = Some p0 → p = p0 ∧ w' = NewHub) ∧
    (sites NewHub !! "blog" = None →
       site_mem NewHub !! p = None ∧
       site_mem w' !! p =
         Some {| Site_ID := "blog"; Site_Count := 0; Site_Connections := ∅ |} ∧
       sites w' = <["blog" := p]> (sites NewHub) ∧
       (∀ q, q ≠ p → site_mem w' !! q = site_mem NewHub !! q) ∧
       client_mem w' = client_mem NewHub ∧
       received w' = received NewHub) ∧
    getSite "blog" w' = (p, w').
Proof. apply (getSite_spec "blog" NewHub). Defined.

(** ** [handleRegister] *)

(** With a site and without overflow, [handleRegister] is the broadcast of
    the new count from the state in which the client is [attached]. *)
Lemma handleRegister_attached now c cl p site w :
  client_mem w !! c = Some cl →
  Client_site cl = Some p →
  site_mem w !! p = Some site →
  int_min ≤ Site_Count site < int_max →
  handleRegister now c w =
    broadcastToSite (Site_ID site) (Site_Count site + 1) now
      (set_site_mem w (<[p := attached c site]> (site_mem w))).
Proof.
  intros Hc Hp Hsite Hrange. unfold handleRegister.
  deref_with Hc. rewrite Hp. deref_with Hsite. simpl.
  rewrite wrap_int_small by (unfold int_min, int_max in *; lia).
  reflexivity.
Qed.




(** When a third viewer has joined [blog] in between, the key leads to a
    new aggregate: viewer 2 is added to the old one and counted there, and
    the update, with the count of the old aggregate, goes to viewer 3. *)
Example attach_after_key_reused :
  ∃ w w' old new,
    rehomed_before_attach = Ok w ∧
    handleRegister 4 2 w = Ok w' ∧
    sites w' !! "blog" = Some 2%positive ∧
    site_mem w' !! 1%positive = Some old ∧
    Site_Connections old = {[2%positive]} ∧ Site_Count old = 1 ∧
    site_mem w' !! 2%positive = Some new ∧
    Site_Connections new = {[3%positive]} ∧ Site_Count new = 1 ∧
    queued_counts 2 w' = [] ∧
    queued_counts 3 w' = [1; 1].
Proof.
  eexists _, _, _, _.
  split; [vm_compute; reflexivity|].
  split; [vm_compute; reflexivity|].
  split; [vm_compute; reflexivity|].
  split; [vm_compute; reflexivity|].
  split; [vm_compute; reflexivity|].
  split; [reflexivity|].
  split; [vm_compute; reflexivity|].
  split; [vm_compute; reflexivity|].
  split; [reflexivity|].
  split; vm_compute; reflexivity.
Qed.

(** ** The read loop and the order of the race *)

(** The turn in which the handler of every command runs before the reader
    goes on. *)
Lemma readPump_step_hub_first t1 t2 c inp w :
  readPump_step HubFirst t1 t2 c inp w =
    match inp with
    | ReadError =>
        w1 ← Run_step t1 (Unregister c) w;
        w2 ← conn_Close c w1;
        Ok (Break, w2)
    | UnmarshalError => Ok (Continue, w)
    | Decoded msg =>
        if bool_decide (Message_Type msg = "join" ∧ Message_SiteID msg ≠ "") then
          let siteID := TrimSpace (Message_SiteID msg) in
          other ← holds_other_site c siteID w;
          w1 ← (if other : bool then Run_step t1 (Unregister c) w else Ok w);
          needs ← needs_site c siteID w1;
          if needs : bool then
            w3 ← resolve_site c siteID w1;
            w4 ← Run_step t2 (Register c) w3;
            Ok (Continue, w4)
          else Ok (Continue, w1)
        else Ok (Continue, w)
    end.
Proof. reflexivity. Qed.



Lemma holds_other_site_same c cl p site w :
  client_mem w !! c = Some cl → Client_site cl = Some p →
  site_mem w !! p = Some site →
  holds_other_site c (Site_ID site) w = Ok false.
Proof.
  intros Hc Hp Hsite. unfold holds_other_site. deref_with Hc. rewrite Hp.
  deref_with Hsite. rewrite bool_decide_eq_false_2; [done|]. by intros Hne.
Qed.

(** ** Switching sites *)

Lemma receive_registry_wf cmd w : registry_wf w → registry_wf (receive cmd w).
Proof. done. Qed.

(** Attaching a client whose [send] channel is closed to a registered
    aggregate panics in the broadcast that follows. *)
Lemma handleRegister_closed_panics now c cl p site w :
  client_mem w !! c = Some cl →
  Client_site cl = Some p →
  site_mem w !! p = Some site →
  sites w !! Site_ID site = Some p →
  chan_closed (Client_send cl) = true →
  ∃ e, handleRegister now c w = Panic e.
Proof.
  intros Hc Hp Hsite Hreg Hclosed. unfold handleRegister.
  deref_with Hc. rewrite Hp.
  deref_with Hsite.
  unfold broadcastToSite. simpl. rewrite Hreg.
  rewrite (deref_Some _ p _ (lookup_insert_eq _ _ _)), bind_Ok. simpl.
  destruct (broadcast_loop_closed_member
              (update_message (Site_ID site) (wrap_int (Site_Count site + 1)) now)
              (elements ({[c]} ∪ Site_Connections site))
              ({[c]} ∪ Site_Connections site) (client_mem w) c cl)
    as (e & ->); [|done|done|by eauto].
  apply elem_of_elements. set_solver.
Qed.

(** A completed broadcast changes no other [Site] than the one registered
    under its key. *)
Lemma broadcastToSite_other siteID count now w w' q :
  broadcastToSite siteID count now w = Ok w' →
  sites w !! siteID ≠ Some q →
  site_mem w' !! q = site_mem w !! q.
Proof.
  unfold broadcastToSite. destruct (sites w !! siteID) as [p|].
  - intros Hrun Hne. apply bind_Ok_inv in Hrun as (site & _ & Hrun).
    apply bind_Ok_inv in Hrun as ([conns clients] & _ & Hrun).
    injection Hrun as <-. simpl. rewrite lookup_insert_ne; [done|].
    intros ->. done.
  - by intros [= <-] _.
Qed.

(** What a completed detach leaves alone: the commands received, the site
    reference, connection and address of every client, the [ID] of every
    site, and every site but the one of the client and the one registered
    under its key; it adds no key to the registry. *)
Lemma handleUnregister_frame now c w w' :
  handleUnregister now c w = Ok w' →
  received w' = received w ∧
  (∀ x cl, client_mem w !! x = Some cl →
     ∃ cl', client_mem w' !! x = Some cl' ∧
            Client_site cl' = Client_site cl) ∧
  (∀ q s, site_mem w !! q = Some s →
     ∃ s', site_mem w' !! q = Some s' ∧ Site_ID s' = Site_ID s) ∧
  (∀ k p, sites w' !! k = Some p → sites w !! k = Some p) ∧
  (∀ cl q, client_mem w !! c = Some cl → Client_site cl ≠ Some q →
     (∀ p site, Client_site cl = Some p → site_mem w !! p = Some site →
                sites w !! Site_ID site ≠ Some q) →
     site_mem w' !! q = site_mem w !! q).
Proof.
  unfold handleUnregister. intros Hrun.
  apply bind_Ok_inv in Hrun as (cl & Hc & Hrun). apply deref_Ok_inv in Hc.
  destruct (Client_site cl) as [p|] eqn:Hp.
  2:{ injection Hrun as <-. repeat split; eauto. }
  apply bind_Ok_inv in Hrun as (site & Hsite & Hrun). apply deref_Ok_inv in Hsite.
  destruct (decide (c ∈ Site_Connections site)) as [Hin|Hnotin].
  2:{ injection Hrun as <-. repeat split; eauto. }
  apply bind_Ok_inv in Hrun as (ch & Hch & Hrun).
  set (site1 := {| Site_ID := Site_ID site;
                   Site_Count :=
                     (if wrap_int (Site_Count site - 1) <? 0 then 0
                      else wrap_int (Site_Count site - 1));
                   Site_Connections := Site_Connections site ∖ {[c]} |}) in *.
  assert (∀ x clx, <[c := with_send cl ch]> (client_mem w) !! x = Some clx →
            ∃ cl0, client_mem w !! x = Some cl0 ∧
                   Client_site clx = Client_site cl0) as Hback.
  { intros x clx Hx. destruct (decide (x = c)) as [->|Hne].
    - rewrite lookup_insert_eq in Hx. injection Hx as <-. eauto.
    - rewrite lookup_insert_ne in Hx by done. eauto. }
  assert (∀ x cl0, client_mem w !! x = Some cl0 →
            ∃ clx, <[c := with_send cl ch]> (client_mem w) !! x = Some clx ∧
                   Client_site clx = Client_site cl0) as Hforth.
  { intros x cl0 Hx. destruct (decide (x = c)) as [->|Hne].
    - rewrite lookup_insert_eq. assert (cl0 = cl) as -> by congruence. eauto.
    - rewrite lookup_insert_ne by done. eauto. }
  assert (∀ q s, site_mem w !! q = Some s →
            ∃ s', <[p := site1]> (site_mem w) !! q = Some s' ∧
                  Site_ID s' = Site_ID s) as Hsites.
  { intros q s Hq. destruct (decide (q = p)) as [->|Hne].
    - rewrite lookup_insert_eq. assert (s = site) as -> by congruence. eauto.
    - rewrite lookup_insert_ne by done. eauto. }
  destruct (decide (size (Site_Connections site ∖ {[c]}) = 0%nat)) as [Hz|Hnz].
  - injection Hrun as <-. simpl. split; [done|]. split; [exact Hforth|].
    split; [exact Hsites|]. split.
    + intros k q Hk. by apply lookup_delete_Some in Hk as [_ Hk].
    + intros cl0 q Hc0 Hq _. assert (cl0 = cl) as -> by congruence.
      rewrite lookup_insert_ne; [done|]. congruence.
  - destruct (broadcastToSite_frame _ _ _ _ _ Hrun)
      as (Hs' & Hr' & Hm' & Hc').
    split; [done|]. split.
    { intros x cl0 Hx. destruct (Hforth x cl0 Hx) as (clx & Hclx & Hsx).
      destruct (Hc' x clx Hclx) as (cl' & Hcl' & Hs1 & _).
      exists cl'. split; [done|]. congruence. }
    split.
    { intros q s Hq. destruct (Hsites q s Hq) as (s1 & Hs1 & Hid1).
      destruct (Hm' q s1 Hs1) as (s' & Hs2 & Hid2 & _).
      exists s'. split; [done|]. congruence. }
    split; [by rewrite Hs'|].
    intros cl0 q Hc0 Hq Hkey. assert (cl0 = cl) as -> by congruence.
    rewrite (broadcastToSite_other _ _ _ _ _ q Hrun).
    + simpl. rewrite lookup_insert_ne; [done|]. congruence.
    + simpl. by apply (Hkey p site).
Qed.

(** The same for a completed attach, which leaves the registry as it is. *)
Lemma handleRegister_frame now c w w' :
  handleRegister now c w = Ok w' →
  received w' = received w ∧
  sites w' = sites w ∧
  (∀ x cl, client_mem w !! x = Some cl →
     ∃ cl', client_mem w' !! x = Some cl' ∧
            Client_site cl' = Client_site cl) ∧
  (∀ q s, site_mem w !! q = Some s →
     ∃ s', site_mem w' !! q = Some s' ∧ Site_ID s' = Site_ID s) ∧
  (∀ cl q, client_mem w !! c = Some cl → Client_site cl ≠ Some q →
     (∀ p site, Client_site cl = Some p → site_mem w !! p = Some site →
                sites w !! Site_ID site ≠ Some q) →
     site_mem w' !! q = site_mem w !! q).
Proof.
  unfold handleRegister. intros Hrun.
  apply bind_Ok_inv in Hrun as (cl & Hc & Hrun). apply deref_Ok_inv in Hc.
  destruct (Client_site cl) as [p|] eqn:Hp.
  2:{ injection Hrun as <-. repeat split; eauto. }
  apply bind_Ok_inv in Hrun as (site & Hsite & Hrun). apply deref_Ok_inv in Hsite.
  simpl in Hrun.
  destruct (broadcastToSite_frame _ _ _ _ _ Hrun) as (Hs' & Hr' & Hm' & Hc').
  split; [done|]. split; [done|]. split.
  { intros x cl0 Hx. destruct (Hc' x cl0 Hx) as (cl' & Hcl' & Hs1 & _). eauto. }
  split.
  { intros q s Hq. destruct (decide (q = p)) as [->|Hne].
    - assert (s = site) as -> by congruence.
      destruct (Hm' p _ (lookup_insert_eq _ _ _)) as (s' & Hs2 & Hid2 & _).
      eauto.
    - destruct (Hm' q s) as (s' & Hs2 & Hid2 & _).
      { simpl. by rewrite lookup_insert_ne. }
      eauto. }
  intros cl0 q Hc0 Hq Hkey. assert (cl0 = cl) as -> by congruence.
  rewrite (broadcastToSite_other _ _ _ _ _ q Hrun).
  - simpl. rewrite lookup_insert_ne; [done|]. congruence.
  - simpl. by apply (Hkey p site).
Qed.

Lemma getSite_cases siteID w p w2 :
  getSite siteID w = (p, w2) →
  (sites w !! siteID = Some p ∧ w2 = w) ∨
  (sites w !! siteID = None ∧ p = fresh (dom (site_mem w)) ∧
   w2 = set_sites
          (set_site_mem w
             (<[p := {| Site_ID := siteID; Site_Count := 0;
                        Site_Connections := ∅ |}]> (site_mem w)))
          (<[siteID := p]> (sites w))).
Proof.
  unfold getSite. destruct (sites w !! siteID) as [q|].
  - intros [= <- <-]. by left.
  - intros [= <- <-]. by right.
Qed.

(** The turn of a member of site A that reads a join for another key, when
    the reader assigns [c.site] before [handleUnregister] reads it: the
    detach is that of a client of the new site, and the attach follows. *)
Lemma readPump_step_reader_first t1 t2 c cl pa siteA msg w :
  registry_wf w →
  client_mem w !! c = Some cl →
  Client_site cl = Some pa →
  site_mem w !! pa = Some siteA →
  Message_Type msg = "join" →
  Message_SiteID msg ≠ "" →
  TrimSpace (Message_SiteID msg) ≠ Site_ID siteA →
  ∃ pb w2 sb,
    getSite (TrimSpace (Message_SiteID msg)) (receive (Unregister c) w) = (pb, w2) ∧
    registry_wf w2 ∧
    sites w2 !! TrimSpace (Message_SiteID msg) = Some pb ∧
    site_mem w2 !! pb = Some sb ∧
    Site_ID sb = TrimSpace (Message_SiteID msg) ∧
    pb ≠ pa ∧
    site_mem w2 !! pa = Some siteA ∧
    client_mem w2 = client_mem w ∧
    readPump_step ReaderFirst t1 t2 c (Decoded msg) w =
      (w1 ← handleUnregister t1 c
              (set_client_mem w2 (<[c := with_site cl (Some pb)]> (client_mem w)));
       w4 ← Run_step t2 (Register c) w1;
       Ok (Continue, w4)).
Proof.
  intros Hwf Hc Hp HsiteA Hty Hid Hother.
  set (k := TrimSpace (Message_SiteID msg)) in *.
  destruct (getSite k (receive (Unregister c) w)) as [pb w2] eqn:Hget.
  destruct (getSite_registers _ _ _ _ Hget (receive_registry_wf _ _ Hwf))
    as (Hwf2 & Hreg2 & Hcm2 & _ & Hkeep).
  destruct (Hwf2 _ _ Hreg2) as (sb & Hsb & Hidb).
  pose proof (Hkeep pa siteA HsiteA) as HsiteA2.
  exists pb, w2, sb. split; [done|]. split; [done|]. split; [done|].
  split; [done|]. split; [done|]. split; [intros ->; congruence|].
  split; [done|]. split; [done|].
  unfold readPump_step. rewrite bool_decide_eq_true_2 by done. fold k.
  assert (holds_other_site c k w = Ok true) as ->.
  { unfold holds_other_site. deref_with Hc. rewrite Hp. deref_with HsiteA.
    rewrite bool_decide_eq_true_2; [done|]. by intros Heq. }
  rewrite bind_Ok. simpl.
  assert (needs_site c k (receive (Unregister c) w) = Ok true) as ->.
  { unfold needs_site. simpl. deref_with Hc. rewrite Hp. deref_with HsiteA.
    rewrite bool_decide_eq_true_2; [done|]. by intros Heq. }
  rewrite bind_Ok. unfold resolve_site. rewrite Hget, Hcm2. simpl.
  deref_with Hc. by rewrite bind_Ok.
Qed.

(** C4: for a member of site A that reads a join frame for another site
    key, the turn of the read loop goes one of two ways.  When
    [handleUnregister] reads the old site, it detaches the client from A
    and closes its [send] channel, and the attach to B, which broadcasts to
    the members of B, the client among them, panics.  When the reader has
    assigned the new site first, the detach finds the client in B or not,
    and whenever the turn completes site A is as it was, the client still
    among its members and counted; if moreover the queue of the client is
    open and not full, the client is no member of the site registered
    under the key and the members of that site have open queues, the turn
    does complete, and the client is a member of both sites. *)
Theorem switch_site_fails t1 t2 c cl pa siteA msg w :
  registry_wf w →
  client_mem w !! c = Some cl →
  Client_site cl = Some pa →
  site_mem w !! pa = Some siteA →
  c ∈ Site_Connections siteA →
  Message_Type msg = "join" →
  Message_SiteID msg ≠ "" →
  TrimSpace (Message_SiteID msg) ≠ Site_ID siteA →
  (∃ e, readPump_step HubFirst t1 t2 c (Decoded msg) w = Panic e) ∧
  (∀ ctl w', readPump_step ReaderFirst t1 t2 c (Decoded msg) w = Ok (ctl, w') →
             site_mem w' !! pa = Some siteA) ∧
  (chan_closed (Client_send cl) = false →
   chan_full (Client_send cl) = false →
   (∀ pb sb, sites w !! TrimSpace (Message_SiteID msg) = Some pb →
             site_mem w !! pb = Some sb →
             (c ∉ Site_Connections sb) ∧
             int_min ≤ Site_Count sb < int_max ∧
             ∀ m, m ∈ Site_Connections sb →
                  ∃ clm, client_mem w !! m = Some clm ∧
                         chan_closed (Client_send clm) = false) →
   ∃ w' pb sb cl',
     readPump_step ReaderFirst t1 t2 c (Decoded msg) w = Ok (Continue, w') ∧
     sites w' !! TrimSpace (Message_SiteID msg) = Some pb ∧
     pb ≠ pa ∧
     site_mem w' !! pb = Some sb ∧
     c ∈ Site_Connections sb ∧
     site_mem w' !! pa = Some siteA ∧
     client_mem w' !! c = Some cl' ∧
     Client_site cl' = Some pb ∧
     chan_closed (Client_send cl') = false).
Proof.
  intros Hwf Hc Hp HsiteA Hin Hty Hid Hother.
  set (siteID := TrimSpace (Message_SiteID msg)) in *.
  split; [|split].
  - rewrite readPump_step_hub_first. rewrite bool_decide_eq_true_2 by done.
    cbv zeta. fold siteID.
    assert (holds_other_site c siteID w = Ok true) as ->.
    { unfold holds_other_site. deref_with Hc. rewrite Hp.
      deref_with HsiteA.
      rewrite bool_decide_eq_true_2; [done|]. by intros Heq. }
    rewrite bind_Ok.
    destruct (Run_step t1 (Unregister c) w) as [w1|e] eqn:Hun;
      [|by exists e].
    rewrite bind_Ok. unfold Run_step in Hun.
    destruct (handleUnregister_member_Ok t1 c cl pa siteA
                (receive (Unregister c) w) w1 Hc Hp HsiteA Hin Hun)
      as ((cl1 & Hc1 & Hp1 & Hclosed1) & (s1 & Hs1 & Hid1 & _) & _ & Hwf1).
    specialize (Hwf1 (receive_registry_wf _ _ Hwf)).
    assert (needs_site c siteID w1 = Ok true) as ->.
    { unfold needs_site. rewrite (deref_Some _ _ _ Hc1), bind_Ok, Hp1.
      deref_with Hs1.
      rewrite bool_decide_eq_true_2; [done|congruence]. }
    rewrite bind_Ok. unfold resolve_site.
    destruct (getSite siteID w1) as [pb w2] eqn:Hget.
    destruct (getSite_registers _ _ _ _ Hget Hwf1)
      as (Hwf2 & Hreg2 & Hcm2 & _ & _).
    destruct (Hwf2 _ _ Hreg2) as (sb & Hsb & Hidb).
    rewrite Hcm2, (deref_Some _ _ _ Hc1), !bind_Ok.
    destruct (handleRegister_closed_panics t2 c (with_site cl1 (Some pb)) pb sb
                (receive (Register c)
                   (set_client_mem w2
                      (<[c := with_site cl1 (Some pb)]> (client_mem w1)))))
      as (e & He).
    + apply lookup_insert_eq.
    + done.
    + done.
    + simpl. by rewrite Hidb.
    + done.
    + unfold Run_step. rewrite He. by eauto.
  - intros ctl w' Hrun.
    destruct (readPump_step_reader_first t1 t2 c cl pa siteA msg w)
      as (pb & w2 & sb & Hget & Hwf2 & Hreg2 & Hsb & Hidb & Hne & HsiteA2 & Hcm2
          & Heq); try done.
    rewrite Heq in Hrun. clear Heq. fold siteID in Hreg2, Hidb.
    set (w3 := set_client_mem w2 (<[c := with_site cl (Some pb)]> (client_mem w)))
      in Hrun.
    apply bind_Ok_inv in Hrun as (w1 & Hun & Hrun).
    apply bind_Ok_inv in Hrun as (w4 & Hreg & Hrun). injection Hrun as _ <-.
    assert (client_mem w3 !! c = Some (with_site cl (Some pb))) as Hc3.
    { apply lookup_insert_eq. }
    destruct (handleUnregister_frame _ _ _ _ Hun)
      as (_ & Hcl1 & Hs1 & Hk1 & Hother1).
    destruct (Hcl1 c _ Hc3) as (cl1 & Hc1 & Hp1). simpl in Hp1.
    destruct (Hs1 pb sb Hsb) as (sb1 & Hsb1 & Hidb1).
    assert (site_mem w1 !! pa = Some siteA) as HsiteA1.
    { rewrite (Hother1 _ pa Hc3).
      - done.
      - simpl. congruence.
      - intros p site [= <-] Hsite. simpl in Hsite.
        assert (site = sb) as -> by congruence.
        simpl. rewrite Hidb, Hreg2. congruence. }
    unfold Run_step in Hreg.
    destruct (handleRegister_frame _ _ _ _ Hreg) as (_ & _ & _ & _ & Hother4).
    rewrite (Hother4 cl1 pa Hc1).
    + done.
    + congruence.
    + intros p site Hp' Hsite. simpl in Hsite.
      assert (p = pb) as -> by congruence.
      assert (site = sb1) as -> by congruence.
      simpl. rewrite Hidb1, Hidb. intros Hk. apply Hk1 in Hk. simpl in Hk.
      congruence.
  - intros Hopen Hroom Hsite.
    destruct (readPump_step_reader_first t1 t2 c cl pa siteA msg w)
      as (pb & w2 & sb & Hget & Hwf2 & Hreg2 & Hsb & Hidb & Hne & HsiteA2 & Hcm2
          & ->); try done.
    fold siteID in Hget, Hreg2, Hidb.
    assert ((c ∉ Site_Connections sb) ∧ int_min ≤ Site_Count sb < int_max ∧
            ∀ m, m ∈ Site_Connections sb →
                 ∃ clm, client_mem w !! m = Some clm ∧
                        chan_closed (Client_send clm) = false)
      as (Hnew & Hrange & Hmembers).
    { destruct (getSite_cases _ _ _ _ Hget) as [[Hk ->]|(Hk & Hfresh & ->)].
      - apply (Hsite pb sb); done.
      - simpl in Hsb. rewrite lookup_insert_eq in Hsb. injection Hsb as <-.
        simpl. split; [set_solver|]. split; [unfold int_min, int_max; lia|].
        intros m Hm. set_solver. }
    set (w3 := set_client_mem w2 (<[c := with_site cl (Some pb)]> (client_mem w))).
    rewrite (handleUnregister_noop t1 c (with_site cl (Some pb)) w3).
    2:{ apply lookup_insert_eq. }
    2:{ right. exists pb, sb. done. }
    rewrite bind_Ok.
    change (Run_step t2 (Register c) w3)
      with (handleRegister t2 c (receive (Register c) w3)).
    rewrite (handleRegister_attached t2 c (with_site cl (Some pb)) pb sb
               (receive (Register c) w3));
      [|apply lookup_insert_eq|done|done|done].
    destruct (broadcastToSite_spec (Site_ID sb) (Site_Count sb + 1) t2
                (set_site_mem (receive (Register c) w3)
                   (<[pb := attached c sb]> (site_mem (receive (Register c) w3))))
                pb (attached c sb))
      as (w' & conns' & Hrun' & Hsites' & _ & Hmem' & Hconns' & _ & Hdel').
    { simpl. by rewrite Hidb. }
    { apply lookup_insert_eq. }
    { intros m Hm. simpl in Hm. destruct (decide (m = c)) as [->|Hmc].
      - exists (with_site cl (Some pb)). split; [apply lookup_insert_eq|done].
      - destruct (Hmembers m) as (clm & Hclm & Hmo); [set_solver|].
        exists clm. split; [|done]. simpl. by rewrite lookup_insert_ne. }
    rewrite Hrun', bind_Ok.
    exists w', pb, (with_Connections (attached c sb) conns'),
      (deliver (update_message (Site_ID sb) (Site_Count sb + 1) t2)
         (with_site cl (Some pb))).
    split; [done|]. split; [by rewrite Hsites'|]. split; [done|].
    split; [by rewrite Hmem', lookup_insert_eq|]. split.
    { simpl. apply Hconns'. split; [simpl; set_solver|].
      intros (clx & Hclx & Hfull). simpl in Hclx.
      rewrite lookup_insert_eq in Hclx. injection Hclx as <-. simpl in Hfull.
      congruence. }
    split.
    { rewrite Hmem'. simpl. by rewrite !lookup_insert_ne. }
    split.
    { apply Hdel'; [simpl; set_solver|]. simpl. apply lookup_insert_eq. }
    unfold deliver. simpl. by rewrite Hroom.
Qed.

Lemma joined_state_registry_wf : registry_wf joined_state.
Proof.
  intros k p Hk. simpl in Hk. apply lookup_singleton_Some in Hk as [<- <-].
  eexists. split; reflexivity.
Qed.

Lemma switch_site_fails_witness :
  (∃ e, readPump_step HubFirst 5 5 1 (join "news") joined_state = Panic e) ∧
  (∀ ctl w',
     readPump_step ReaderFirst 5 5 1 (join "news") joined_state = Ok (ctl, w') →
     site_mem w' !! 1%positive
     = Some {| Site_ID := "blog"; Site_Count := 1;
               Site_Connections := {[1%positive]} |}) ∧
  (chan_closed (Client_send (example_client (Some 1%positive) 1)) = false →
   chan_full (Client_send (example_client (Some 1%positive) 1)) = false →
   (∀ pb sb, sites joined_state !! TrimSpace "news" = Some pb →
             site_mem joined_state !! pb = Some sb →
             (1%positive ∉ Site_Connections sb) ∧
             int_min ≤ Site_Count sb < int_max ∧
             ∀ m, m ∈ Site_Connections sb →
                  ∃ clm, client_mem joined_state !! m = Some clm ∧
                         chan_closed (Client_send clm) = false) →
   ∃ w' pb sb cl',
     readPump_step ReaderFirst 5 5 1 (join "news") joined_state
     = Ok (Continue, w') ∧
     sites w' !! TrimSpace "news" = Some pb ∧
     pb ≠ 1%positive ∧
     site_mem w' !! pb = Some sb ∧
     1%positive ∈ Site_Connections sb ∧
     site_mem w' !! 1%positive
     = Some {| Site_ID := "blog"; Site_Count := 1;
               Site_Connections := {[1%positive]} |} ∧
     client_mem w' !! 1%positive = Some cl' ∧
     Client_site cl' = Some pb ∧
     chan_closed (Client_send cl') = false).
Proof.
  apply (switch_site_fails 5 5 1%positive (example_client (Some 1%positive) 1)
           1%positive
           {| Site_ID := "blog"; Site_Count := 1;
              Site_Connections := {[1%positive]} |}
           {| Message_Type := "join"; Message_SiteID := "news";
              Message_Count := 0; Message_Message := "";
              Message_Timestamp := 0 |} joined_state).
  - apply joined_state_registry_wf.
  - reflexivity.
  - reflexivity.
  - reflexivity.
  - simpl. apply elem_of_singleton_2. reflexivity.
  - reflexivity.
  - intros H. discriminate H.
  - vm_compute. intros H. discriminate H.
Defined.

(** The two ways on an example: viewer 1 of [blog] asks for [news]. *)
Example switch_site_panic_kind :
  readPump_step HubFirst 5 5 1 (join "news") joined_state
  = Panic send_on_closed_channel.
Proof. vm_compute. reflexivity. Qed.

Example switch_site_in_both :
  ∃ w' blog news,
    readPump_step ReaderFirst 5 5 1 (join "news") joined_state
    = Ok (Continue, w') ∧
    sites w' !! "blog" = Some 1%positive ∧
    site_mem w' !! 1%positive = Some blog ∧
    Site_Connections blog = {[1%positive]} ∧ Site_Count blog = 1 ∧
    sites w' !! "news" = Some 2%positive ∧
    site_mem w' !! 2%positive = Some news ∧
    Site_Connections news = {[1%positive]} ∧ Site_Count news = 1 ∧
    queued_counts 1 w' = [1; 1].
Proof.
  eexists _, _, _.
  split; [vm_compute; reflexivity|].
  split; [vm_compute; reflexivity|].
  split; [vm_compute; reflexivity|].
  split; [vm_compute; reflexivity|].
  split; [reflexivity|].
  split; [vm_compute; reflexivity|].
  split; [vm_compute; reflexivity|].
  split; [vm_compute; reflexivity|].
  split; [reflexivity|].
  vm_compute. reflexivity.
Qed.

(** ** The update frame *)

(** C8: the JSON object written for the update built by [broadcastToSite]
    always has the member [type] with value [update] and never has the
    member [message]; it has [siteId], [count] and [timestamp] with the
    site key, the count and the clock reading as values exactly when
    these are not the empty string and not zero: an empty key, a zero count
    and a zero timestamp are left out. *)
Theorem update_frame_members siteID count now :
  let frame := marshal_Message (update_message siteID count now) in
  json_member "type" frame = Some (JString "update") ∧
  json_member "siteId" frame
    = (if decide (siteID = "") then None else Some (JString siteID)) ∧
  json_member "count" frame
    = (if decide (count = 0) then None else Some (JNumber count)) ∧
  json_member "timestamp" frame
    = (if decide (now = 0) then None else Some (JNumber now)) ∧
  json_member "message" frame = None.
Proof.
  unfold marshal_Message, update_message, omitempty_string, omitempty_int.
  simpl. repeat split;
    destruct (decide (siteID = "")); destruct (decide (count = 0));
    destruct (decide (now = 0)); reflexivity.
Qed.

(** The update for a count of zero is written without a [count] member. *)
Lemma update_frame_omits_zero_count :
  ¬ is_Some (json_member "count"
               (marshal_Message (update_message "blog" 0 1700000000))).
Proof. vm_compute. intros [v H]. discriminate H. Qed.

(** A join for a key of white space only puts the viewer on the site with
    the empty key, and the update it gets is written without [siteId]. *)
Example blank_site_key_frame :
  ∃ w cl m,
    run_events [(5, Accepts "203.0.113.7"); (5, Reads 1%positive (join "  "))]
      NewHub = Ok w ∧
    client_mem w !! 1%positive = Some cl ∧
    chan_buf (Client_send cl) = [m] ∧
    marshal_Message m
    = [("type", JString "update"); ("count", JNumber 1); ("timestamp", JNumber 5)].
Proof.
  eexists _, _, _. split; [vm_compute; reflexivity|].
  split; [vm_compute; reflexivity|]. split; reflexivity.
Qed.

(** ** The read loop *)





(** C10: for a client that holds a site, a join frame whose site key
    trims to the [ID] of that site leaves the state as it is: the hub
    receives no command, the client's site reference, the site's count and
    member set and every queue are unchanged, and the loop goes on. *)
Theorem rejoin_same_site_noop o t1 t2 c cl p site msg w :
  client_mem w !! c = Some cl →
  Client_site cl = Some p →
  site_mem w !! p = Some site →
  Message_Type msg = "join" →
  TrimSpace (Message_SiteID msg) = Site_ID site →
  readPump_step o t1 t2 c (Decoded msg) w = Ok (Continue, w).
Proof.
  intros Hc Hp Hsite Hty Hsame. unfold readPump_step.
  case_bool_decide; [|done]. rewrite Hsame.
  rewrite (holds_other_site_same c cl p site w Hc Hp Hsite), bind_Ok.
  rewrite andb_false_r, bind_Ok.
  unfold needs_site. deref_with Hc. rewrite Hp.
  rewrite (deref_Some _ _ _ Hsite), !bind_Ok.
  rewrite bool_decide_eq_false_2 by (intros Hne; by apply Hne).
  done.
Qed.

Lemma rejoin_same_site_noop_witness :
  readPump_step ReaderFirst 5 6 1 (join "  blog ") joined_state
  = Ok (Continue, joined_state).
Proof.
  apply (rejoin_same_site_noop ReaderFirst 5 6 1%positive
           (example_client (Some 1%positive) 1) 1%positive
           {| Site_ID := "blog"; Site_Count := 1;
              Site_Connections := {[1%positive]} |}
           {| Message_Type := "join"; Message_SiteID := "  blog ";
              Message_Count := 0; Message_Message := "";
              Message_Timestamp := 0 |} joined_state);
    reflexivity.
Defined.

(** ** Three viewers of one site *)

(** Each join is announced to the members of the moment with the counts
    1, 2 and 3; when the third and then the second viewer go away the
    remaining ones get the counts 2 and 1; when the last one goes away the
    site is gone from the registry. *)
Example three_viewers :
  ∃ w3 w2 w1 w0,
    run_events three_join NewHub = Ok w3 ∧
    queued_counts 1 w3 = [1; 2; 3] ∧ queued_counts 2 w3 = [2; 3] ∧
    queued_counts 3 w3 = [3] ∧
    run_events [(6, Reads 3%positive ReadError)] w3 = Ok w2 ∧
    queued_counts 1 w2 = [1; 2; 3; 2] ∧ queued_counts 2 w2 = [2; 3; 2] ∧
    run_events [(7, Reads 2%positive ReadError)] w2 = Ok w1 ∧
    queued_counts 1 w1 = [1; 2; 3; 2; 1] ∧
    sites w1 !! "blog" = Some 1%positive ∧
    run_events [(8, Reads 1%positive ReadError)] w1 = Ok w0 ∧
    sites w0 = ∅.
Proof.
  eexists _, _, _, _.
  repeat (split; [vm_compute; reflexivity|]). vm_compute. reflexivity.
Qed.

(** ** Shedding and the count *)

(** C1: after [stalled_viewer] the count of [blog] is the number of its
    members, two; when a tenth viewer then joins, [handleRegister] counts
    three and its [broadcastToSite] sheds viewer 1, whose queue is full,
    without taking it off the count: the completed operation leaves the
    site with count three and two members. *)
Theorem shedding_breaks_count :
  ∃ w site w' site',
    run_events stalled_viewer NewHub = Ok w ∧
    site_mem w !! 1%positive = Some site ∧
    count_matches site ∧
    run_events [(90, Accepts "198.51.100.22");
                (90, Reads 10%positive (join "blog"))] w = Ok w' ∧
    site_mem w' !! 1%positive = Some site' ∧
    Site_Count site' = 3 ∧
    size (Site_Connections site') = 2%nat ∧
    ¬ count_matches site'.
Proof.
  eexists _, _, _, _.
  split; [vm_compute; reflexivity|].
  split; [vm_compute; reflexivity|].
  split; [by vm_compute|].
  split; [vm_compute; reflexivity|].
  split; [vm_compute; reflexivity|].
  split; [reflexivity|].
  split; [vm_compute; reflexivity|].
  intros [Hcount _]. vm_compute in Hcount. discriminate Hcount.
Qed.

(** C3: after [stalled_viewer], viewer 9 goes away: [handleUnregister]
    removes it, finds one member left and broadcasts, and the broadcast
    sheds viewer 1, whose queue is full: the completed detach leaves
    [blog] in the registry with an empty member set. *)
Theorem shedding_leaves_empty_site_registered :
  ∃ w w' site',
    run_events stalled_viewer NewHub = Ok w ∧
    (∀ o, readPump_step o 90 90 9 ReadError w = Ok (Break, w')) ∧
    sites w' !! "blog" = Some 1%positive ∧
    site_mem w' !! 1%positive = Some site' ∧
    Site_Connections site' = ∅.
Proof.
  eexists _, _, _.
  split; [vm_compute; reflexivity|].
  split; [vm_compute; reflexivity|].
  split; [vm_compute; reflexivity|].
  split; [vm_compute; reflexivity|].
  reflexivity.
Qed.

(** ** Count and registry when no queue is full

    On the paths that do not shed, the count stays the number of members
    and the site stays registered exactly as long as it has members. *)

Lemma handleRegister_count_matches now c cl p site w :
  client_mem w !! c = Some cl →
  Client_site cl = Some p →
  site_mem w !! p = Some site →
  sites w !! Site_ID site = Some p →
  c ∉ Site_Connections site →
  count_matches site →
  Site_Count site < int_max →
  (∀ m, m ∈ {[c]} ∪ Site_Connections site →
        ∃ clm, client_mem w !! m = Some clm ∧
               chan_closed (Client_send clm) = false ∧
               chan_full (Client_send clm) = false) →
  ∃ w' site',
    handleRegister now c w = Ok w' ∧
    sites w' !! Site_ID site = Some p ∧
    site_mem w' !! p = Some site' ∧
    Site_Connections site' = {[c]} ∪ Site_Connections site ∧
    count_matches site'.
Proof.
  intros Hc Hp Hsite Hreg Hnew [Hcount Hpos] Hmax Hroom.
  rewrite (handleRegister_attached _ _ _ _ _ _ Hc Hp Hsite)
    by (unfold int_min; lia).
  destruct (broadcastToSite_spec (Site_ID site) (Site_Count site + 1) now
              (set_site_mem w (<[p := attached c site]> (site_mem w)))
              p (attached c site))
    as (w' & conns' & Hrun & Hsites & _ & Hmem & Hconns & _).
  { done. }
  { apply lookup_insert_eq. }
  { intros m Hm. destruct (Hroom m Hm) as (clm & ? & ? & _). eauto. }
  assert (conns' = {[c]} ∪ Site_Connections site) as ->.
  { apply set_eq. intros m. rewrite Hconns. split; [by intros [? _]|].
    intros Hm. split; [done|]. intros (clm & Hclm & Hfull).
    destruct (Hroom m Hm) as (clm' & Hclm' & _ & Hnf). simpl in Hclm.
    congruence. }
  exists w', (with_Connections (attached c site) ({[c]} ∪ Site_Connections site)).
  split; [done|]. split; [by rewrite Hsites|].
  split; [by rewrite Hmem, lookup_insert_eq|]. split; [done|].
  unfold count_matches. simpl.
  rewrite size_union, size_singleton by set_solver. lia.
Qed.

Lemma handleUnregister_count_matches now c cl p site w :
  client_mem w !! c = Some cl →
  Client_site cl = Some p →
  site_mem w !! p = Some site →
  sites w !! Site_ID site = Some p →
  c ∈ Site_Connections site →
  count_matches site →
  Site_Count site ≤ int_max →
  (∀ m, m ∈ Site_Connections site →
        ∃ clm, client_mem w !! m = Some clm ∧
               chan_closed (Client_send clm) = false ∧
               chan_full (Client_send clm) = false) →
  ∃ w' site',
    handleUnregister now c w = Ok w' ∧
    site_mem w' !! p = Some site' ∧
    Site_Connections site' = Site_Connections site ∖ {[c]} ∧
    count_matches site' ∧
    (sites w' !! Site_ID site = Some p ↔ Site_Connections site' ≠ ∅) ∧
    (sites w' !! Site_ID site = None ↔ Site_Connections site' = ∅).
Proof.
  intros Hc Hp Hsite Hreg Hin [Hcount Hpos] Hmax Hroom.
  destruct (Hroom c Hin) as (cl0 & Hcl0 & Hopen & _).
  assert (cl0 = cl) as -> by congruence.
  rewrite (handleUnregister_member _ _ _ _ _ _ Hc Hp Hsite Hin Hopen).
  assert (size (Site_Connections site ∖ {[c]})
          = (size (Site_Connections site) - 1)%nat) as Hsize.
  { rewrite size_difference by set_solver. by rewrite size_singleton. }
  assert (size (Site_Connections site) ≠ 0%nat) as Hne.
  { intros Hz. apply size_empty_inv in Hz. set_solver. }
  assert ((if wrap_int (Site_Count site - 1) <? 0 then 0
           else wrap_int (Site_Count site - 1)) = Site_Count site - 1) as Hdec.
  { rewrite wrap_int_small by (unfold int_min, int_max in *; lia).
    destruct (Z.ltb_spec (Site_Count site - 1) 0); lia. }
  set (site1 := {| Site_ID := Site_ID site;
                   Site_Count := Site_Count site - 1;
                   Site_Connections := Site_Connections site ∖ {[c]} |}).
  assert (count_matches site1) as Hcm1.
  { unfold count_matches. simpl. rewrite Hsize. lia. }
  unfold detached. rewrite Hdec. fold site1.
  destruct (decide (size (Site_Connections site ∖ {[c]}) = 0%nat)) as [Hz|Hnz].
  - eexists _, site1. split; [done|]. simpl.
    split; [apply lookup_insert_eq|]. split; [done|]. split; [done|].
    apply size_empty_inv, leibniz_equiv in Hz.
    rewrite lookup_delete_eq. by split; split.
  - destruct (broadcastToSite_spec (Site_ID site) (Site_Count site - 1) now
                (set_client_mem
                   (set_site_mem w (<[p := site1]> (site_mem w)))
                   (<[c := with_send cl
                             {| chan_buf := chan_buf (Client_send cl);
                                chan_closed := true |}]> (client_mem w)))
                p site1)
      as (w' & conns' & Hrun & Hsites & _ & Hmem & Hconns & _).
    { done. }
    { apply lookup_insert_eq. }
    { intros m Hm. simpl in Hm. apply elem_of_difference in Hm as [Hm Hmc].
      destruct (Hroom m Hm) as (clm & ? & ? & _). exists clm. split; [|done].
      simpl. rewrite lookup_insert_ne; [done|]. set_solver. }
    assert (conns' = Site_Connections site ∖ {[c]}) as ->.
    { apply set_eq. intros m. rewrite Hconns. split; [by intros [? _]|].
      intros Hm. split; [done|]. intros (clm & Hclm & Hfull).
      simpl in Hm. apply elem_of_difference in Hm as [Hm Hmc].
      simpl in Hclm. rewrite lookup_insert_ne in Hclm by set_solver.
      destruct (Hroom m Hm) as (clm' & Hclm' & _ & Hnf). congruence. }
    exists w', (with_Connections site1 (Site_Connections site ∖ {[c]})).
    split; [done|]. split; [by rewrite Hmem, lookup_insert_eq|].
    split; [done|]. split; [done|]. rewrite Hsites. simpl.
    assert (Site_Connections site ∖ {[c]} ≠ ∅) as Hnonempty.
    { intros Hempty. apply Hnz. rewrite Hempty. apply size_empty. }
    rewrite Hreg. by split; split.
Qed.

(** * The hub between the events of a sequential run *)

(** ** What [deliver] does to a client *)

Lemma deliver_site message cl : Client_site (deliver message cl) = Client_site cl.
Proof. unfold deliver. by destruct (chan_full (Client_send cl)). Qed.

Lemma deliver_closed message cl :
  chan_closed (Client_send (deliver message cl)) = chan_full (Client_send cl).
Proof. unfold deliver. by destruct (chan_full (Client_send cl)). Qed.

Lemma deliver_capacity message cl :
  (length (chan_buf (Client_send cl)) ≤ send_capacity)%nat →
  (length (chan_buf (Client_send (deliver message cl))) ≤ send_capacity)%nat.
Proof.
  unfold deliver, chan_full. case_bool_decide as Hfull; simpl; [done|].
  rewrite length_app. simpl. lia.
Qed.

Lemma hub_inv_NewHub : hub_inv NewHub.
Proof. split; intros *; simpl; by rewrite ?lookup_empty. Qed.

(** ** A broadcast pass keeps the invariant *)

Lemma pass_keeps_inv message w w' p site conns' :
  hub_inv w →
  site_mem w !! p = Some site →
  sites w' = sites w →
  site_mem w' = <[p := with_Connections site conns']> (site_mem w) →
  (∀ c, c ∈ conns' ↔
        c ∈ Site_Connections site ∧
        ¬ ∃ cl, client_mem w !! c = Some cl ∧ chan_full (Client_send cl) = true) →
  (∀ c, c ∉ Site_Connections site → client_mem w' !! c = client_mem w !! c) →
  (∀ c cl, c ∈ Site_Connections site → client_mem w !! c = Some cl →
           client_mem w' !! c = Some (deliver message cl)) →
  hub_inv w'.
Proof.
  intros Hinv Hsite Hsites Hmem Hconns Hout Hin.
  assert (∀ x cl', client_mem w' !! x = Some cl' →
            ∃ cl, client_mem w !! x = Some cl ∧
                  ((x ∈ Site_Connections site ∧ cl' = deliver message cl ∧
                    Client_site cl = Some p ∧
                    chan_closed (Client_send cl) = false) ∨
                   ((x ∉ Site_Connections site) ∧ cl' = cl))) as Hback.
  { intros x cl' Hx. destruct (decide (x ∈ Site_Connections site)) as [Hm|Hm].
    - destruct (inv_member w Hinv p site x Hsite Hm) as (cl & Hcl & Hp & Hopen).
      exists cl. split; [done|]. left. rewrite (Hin x cl Hm Hcl) in Hx.
      injection Hx as <-. done.
    - rewrite (Hout x Hm) in Hx. exists cl'. split; [done|]. by right. }
  assert (∀ q s', site_mem w' !! q = Some s' →
            ∃ s, site_mem w !! q = Some s ∧ Site_ID s' = Site_ID s ∧
                 ((q = p ∧ s = site ∧ Site_Connections s' = conns') ∨
                  (q ≠ p ∧ s' = s))) as Hsback.
  { intros q s' Hq. rewrite Hmem in Hq. destruct (decide (q = p)) as [->|Hne].
    - rewrite lookup_insert_eq in Hq. injection Hq as <-.
      exists site. split; [done|]. split; [done|]. by left.
    - rewrite lookup_insert_ne in Hq by done. exists s'. split; [done|].
      split; [done|]. by right. }
  split.
  - intros k q Hk. rewrite Hsites in Hk.
    destruct (inv_registry w Hinv k q Hk) as (s & Hs & Hid). rewrite Hmem.
    destruct (decide (q = p)) as [->|Hne].
    + rewrite lookup_insert_eq. eexists. split; [done|]. simpl. congruence.
    + rewrite lookup_insert_ne by done. eauto.
  - intros x cl' q Hx Hq. destruct (Hback x cl' Hx) as (cl & Hcl & Hcase).
    assert (Client_site cl = Some q) as Hq'.
    { destruct Hcase as [(_ & -> & _)|[_ ->]]; [|done]. by rewrite deliver_site in Hq. }
    destruct (inv_site w Hinv x cl q Hcl Hq') as [s Hs]. rewrite Hmem.
    destruct (decide (q = p)) as [->|Hne].
    + rewrite lookup_insert_eq. eauto.
    + rewrite lookup_insert_ne by done. eauto.
  - intros q s' m Hq Hm. destruct (Hsback q s' Hq) as (s & Hs & _ & Hcase).
    destruct Hcase as [(-> & -> & Hc')|[Hne ->]].
    + rewrite Hc' in Hm. apply Hconns in Hm as [Hm Hroom].
      destruct (inv_member w Hinv p site m Hsite Hm) as (cl & Hcl & Hp & Hopen).
      exists (deliver message cl). split; [by apply Hin|].
      rewrite deliver_site, deliver_closed. split; [done|].
      destruct (chan_full (Client_send cl)) eqn:Hfull; [|done].
      exfalso. apply Hroom. eauto.
    + destruct (inv_member w Hinv q s m Hs Hm) as (cl & Hcl & Hq' & Hopen).
      exists cl. split; [|done]. rewrite Hout; [done|]. intros Hmp.
      destruct (inv_member w Hinv p site m Hsite Hmp) as (cl2 & Hcl2 & Hp & _).
      congruence.
  - intros x cl' Hx Hnone. destruct (Hback x cl' Hx) as (cl & Hcl & Hcase).
    destruct Hcase as [(_ & -> & Hp & _)|[_ ->]].
    + rewrite deliver_site in Hnone. congruence.
    + by apply (inv_idle w Hinv x).
  - intros x cl' q s' Hx Hq Hs' Hnot.
    destruct (Hback x cl' Hx) as (cl & Hcl & Hcase).
    destruct (Hsback q s' Hs') as (s & Hs & _ & Hscase).
    destruct Hcase as [(Hm & -> & Hp & Hopen)|[Hm ->]].
    + rewrite deliver_site in Hq. assert (q = p) as -> by congruence.
      destruct Hscase as [(_ & _ & Hc')|[Hne _]]; [|done].
      rewrite deliver_closed.
      destruct (chan_full (Client_send cl)) eqn:Hfull; [done|].
      exfalso. apply Hnot. rewrite Hc'. apply Hconns. split; [done|].
      intros (cl0 & Hcl0 & Hf0). congruence.
    + destruct Hscase as [(-> & -> & _)|[Hne ->]].
      * by apply (inv_left w Hinv x cl p site).
      * by apply (inv_left w Hinv x cl q s).
  - intros x cl' Hx. destruct (Hback x cl' Hx) as (cl & Hcl & Hcase).
    destruct Hcase as [(_ & -> & _)|[_ ->]].
    + apply deliver_capacity. by apply (inv_capacity w Hinv x).
    + by apply (inv_capacity w Hinv x).
Qed.

(** In a state that satisfies the invariant a broadcast completes and
    keeps the invariant; it changes neither registry nor command history,
    and no site beyond removing members. *)
Lemma broadcastToSite_inv siteID count now w :
  hub_inv w →
  ∃ w', broadcastToSite siteID count now w = Ok w' ∧
        hub_inv w' ∧ sites w' = sites w ∧ received w' = received w ∧
        sites_shrink w w'.
Proof.
  intros Hinv. destruct (sites w !! siteID) as [p|] eqn:Hreg.
  2:{ exists w. unfold broadcastToSite. rewrite Hreg. split; [done|].
      split; [done|]. split; [done|]. split; [done|].
      intros q. destruct (site_mem w !! q); by constructor. }
  destruct (inv_registry w Hinv siteID p Hreg) as (site & Hsite & Hid).
  destruct (broadcastToSite_spec siteID count now w p site Hreg Hsite)
    as (w' & conns' & Hrun & Hsites & Hrecv & Hmem & Hconns & Hout & Hin).
  { intros c Hc. destruct (inv_member w Hinv p site c Hsite Hc) as (cl & ? & _ & ?).
    eauto. }
  exists w'. split; [done|]. split.
  { by eapply pass_keeps_inv. }
  split; [done|]. split; [done|].
  intros q. rewrite Hmem. destruct (decide (q = p)) as [->|Hne].
  - rewrite lookup_insert_eq, Hsite. constructor. split; [done|]. split; [done|].
    simpl. intros c Hc. by apply Hconns in Hc as [? _].
  - rewrite lookup_insert_ne by done. destruct (site_mem w !! q); by constructor.
Qed.

(** ** Changes of one object that keep the invariant *)

Lemma hub_inv_receive cmd w : hub_inv w → hub_inv (receive cmd w).
Proof. intros [? ? ? ? ? ?]. by split. Qed.

Lemma hub_inv_update_client c cl cl' w :
  hub_inv w →
  client_mem w !! c = Some cl →
  Client_site cl' = Client_site cl →
  chan_closed (Client_send cl') = chan_closed (Client_send cl) →
  (length (chan_buf (Client_send cl')) ≤ send_capacity)%nat →
  hub_inv (set_client_mem w (<[c := cl']> (client_mem w))).
Proof.
  intros Hinv Hc Hsite Hclosed Hcap.
  assert (∀ x clx, <[c := cl']> (client_mem w) !! x = Some clx →
            ∃ cl0, client_mem w !! x = Some cl0 ∧
                   Client_site clx = Client_site cl0 ∧
                   chan_closed (Client_send clx) = chan_closed (Client_send cl0) ∧
                   (length (chan_buf (Client_send clx)) ≤ send_capacity)%nat)
    as Hback.
  { intros x clx Hx. destruct (decide (x = c)) as [->|Hne].
    - rewrite lookup_insert_eq in Hx. injection Hx as <-. eauto.
    - rewrite lookup_insert_ne in Hx by done. exists clx.
      split; [done|]. split; [done|]. split; [done|].
      by apply (inv_capacity w Hinv x). }
  split; simpl.
  - apply (inv_registry w Hinv).
  - intros x clx p Hx Hp. destruct (Hback x clx Hx) as (cl0 & Hcl0 & Hs & _).
    apply (inv_site w Hinv x cl0 p Hcl0). congruence.
  - intros p s m Hp Hm.
    destruct (inv_member w Hinv p s m Hp Hm) as (clm & Hclm & Hsm & Hopen).
    destruct (decide (m = c)) as [->|Hne].
    + rewrite lookup_insert_eq. exists cl'. split; [done|].
      assert (clm = cl) as -> by congruence. split; congruence.
    + rewrite lookup_insert_ne by done. eauto.
  - intros x clx Hx Hnone. destruct (Hback x clx Hx) as (cl0 & Hcl0 & Hs & Hc0 & _).
    rewrite Hc0. apply (inv_idle w Hinv x cl0 Hcl0). congruence.
  - intros x clx p s Hx Hp Hs Hnot.
    destruct (Hback x clx Hx) as (cl0 & Hcl0 & Hs0 & Hc0 & _).
    rewrite Hc0. apply (inv_left w Hinv x cl0 p s Hcl0); [congruence|done|done].
  - intros x clx Hx. by destruct (Hback x clx Hx) as (_ & _ & _ & _ & ?).
Qed.

Lemma hub_inv_delete_key k w :
  hub_inv w → hub_inv (set_sites w (delete k (sites w))).
Proof.
  intros [Hreg ? ? ? ? ?]. split; simpl; try done.
  intros k' p Hk. simpl in Hk.
  apply lookup_delete_Some in Hk as [_ Hk]. by apply Hreg.
Qed.

Lemma hub_inv_handleWebSocket clientIP w :
  hub_inv w → hub_inv (handleWebSocket clientIP w).2.
Proof.
  intros Hinv. unfold handleWebSocket. simpl.
  set (c := fresh (dom (client_mem w))).
  assert (client_mem w !! c = None) as Hfresh.
  { apply not_elem_of_dom, is_fresh. }
  assert (∀ x clx, client_mem w !! x = Some clx →
            <[c := {| Client_conn_open := true; Client_site := None;
                      Client_send := make_chan; Client_ip := clientIP |}]>
              (client_mem w) !! x = Some clx) as Hkeep.
  { intros x clx Hx. rewrite lookup_insert_ne; [done|]. congruence. }
  split; simpl.
  - apply (inv_registry w Hinv).
  - intros x clx p Hx Hp. destruct (decide (x = c)) as [->|Hne].
    + rewrite lookup_insert_eq in Hx. injection Hx as <-. done.
    + rewrite lookup_insert_ne in Hx by done. by apply (inv_site w Hinv x clx).
  - intros p s m Hp Hm.
    destruct (inv_member w Hinv p s m Hp Hm) as (clm & Hclm & ? & ?).
    exists clm. split; [by apply Hkeep|done].
  - intros x clx Hx Hnone. destruct (decide (x = c)) as [->|Hne].
    + rewrite lookup_insert_eq in Hx. injection Hx as <-. done.
    + rewrite lookup_insert_ne in Hx by done. by apply (inv_idle w Hinv x).
  - intros x clx p s Hx Hp Hs Hnot. destruct (decide (x = c)) as [->|Hne].
    + rewrite lookup_insert_eq in Hx. injection Hx as <-. done.
    + rewrite lookup_insert_ne in Hx by done.
      by apply (inv_left w Hinv x clx p s).
  - intros x clx Hx. destruct (decide (x = c)) as [->|Hne].
    + rewrite lookup_insert_eq in Hx. injection Hx as <-. simpl.
      unfold send_capacity. lia.
    + rewrite lookup_insert_ne in Hx by done. by apply (inv_capacity w Hinv x).
Qed.

Lemma hub_inv_getSite siteID w p w' :
  hub_inv w → getSite siteID w = (p, w') → hub_inv w'.
Proof.
  intros Hinv Hget.
  destruct (getSite_registers _ _ _ _ Hget (inv_registry w Hinv))
    as (Hwf & _ & Hcm & _ & Hkeep).
  unfold getSite in Hget. destruct (sites w !! siteID) as [p0|] eqn:Hreg.
  { by injection Hget as <- <-. }
  injection Hget as <- <-. split; simpl in *.
  - done.
  - intros x clx q Hx Hq. destruct (inv_site w Hinv x clx q Hx Hq) as [s Hs].
    exists s. by apply Hkeep.
  - intros q s m Hq Hm.
    destruct (decide (q = fresh (dom (site_mem w)))) as [->|Hne].
    + rewrite lookup_insert_eq in Hq. injection Hq as <-. set_solver.
    + rewrite lookup_insert_ne in Hq by done. by apply (inv_member w Hinv q s).
  - apply (inv_idle w Hinv).
  - intros x clx q s Hx Hq Hs Hnot.
    destruct (inv_site w Hinv x clx q Hx Hq) as [s0 Hs0].
    rewrite (Hkeep q s0 Hs0) in Hs. injection Hs as <-.
    by apply (inv_left w Hinv x clx q s0).
  - apply (inv_capacity w Hinv).
Qed.

(** ** Detach and attach keep the invariant *)

Lemma hub_inv_detached c cl p site w :
  hub_inv w →
  client_mem w !! c = Some cl →
  Client_site cl = Some p →
  site_mem w !! p = Some site →
  hub_inv (detached c cl p site w).
Proof.
  intros Hinv Hc Hp Hsite. unfold detached.
  set (cl1 := with_send cl {| chan_buf := chan_buf (Client_send cl);
                              chan_closed := true |}).
  set (s1 := {| Site_ID := Site_ID site;
                Site_Count := _;
                Site_Connections := Site_Connections site ∖ {[c]} |}).
  assert (∀ x clx, <[c := cl1]> (client_mem w) !! x = Some clx →
            (x = c ∧ clx = cl1) ∨ (x ≠ c ∧ client_mem w !! x = Some clx))
    as Hback.
  { intros x clx Hx. destruct (decide (x = c)) as [->|Hne].
    - rewrite lookup_insert_eq in Hx. injection Hx as <-. by left.
    - rewrite lookup_insert_ne in Hx by done. by right. }
  assert (∀ q s, <[p := s1]> (site_mem w) !! q = Some s →
            (q = p ∧ s = s1) ∨ (q ≠ p ∧ site_mem w !! q = Some s)) as Hsback.
  { intros q s Hq. destruct (decide (q = p)) as [->|Hne].
    - rewrite lookup_insert_eq in Hq. injection Hq as <-. by left.
    - rewrite lookup_insert_ne in Hq by done. by right. }
  split; simpl.
  - intros k q Hk. simpl in Hk.
    destruct (inv_registry w Hinv k q Hk) as (s & Hs & Hid). simpl.
    destruct (decide (q = p)) as [->|Hne].
    + rewrite lookup_insert_eq. eexists. split; [done|]. simpl. congruence.
    + rewrite lookup_insert_ne by done. eauto.
  - intros x clx q Hx Hq.
    assert (is_Some (site_mem w !! q)) as [s Hs].
    { destruct (Hback x clx Hx) as [[-> ->]|[_ Hx']].
      - apply (inv_site w Hinv c cl q Hc). done.
      - by apply (inv_site w Hinv x clx q). }
    destruct (decide (q = p)) as [->|Hne].
    + rewrite lookup_insert_eq. eauto.
    + rewrite lookup_insert_ne by done. eauto.
  - intros q s m Hq Hm. destruct (Hsback q s Hq) as [[-> ->]|[Hne Hq']].
    + simpl in Hm. apply elem_of_difference in Hm as [Hm Hmc].
      destruct (inv_member w Hinv p site m Hsite Hm) as (clm & Hclm & ? & ?).
      exists clm. split; [|done]. rewrite lookup_insert_ne; [done|]. set_solver.
    + destruct (inv_member w Hinv q s m Hq' Hm) as (clm & Hclm & Hqm & ?).
      exists clm. split; [|done]. rewrite lookup_insert_ne; [done|].
      intros <-. congruence.
  - intros x clx Hx Hnone. destruct (Hback x clx Hx) as [[-> ->]|[_ Hx']].
    + simpl in Hnone. congruence.
    + by apply (inv_idle w Hinv x).
  - intros x clx q s Hx Hq Hs Hnot.
    destruct (Hback x clx Hx) as [[-> ->]|[Hne Hx']]; [done|].
    destruct (Hsback q s Hs) as [[-> ->]|[Hneq Hs']].
    + apply (inv_left w Hinv x clx p site Hx' Hq Hsite). simpl in Hnot.
      set_solver.
    + by apply (inv_left w Hinv x clx q s).
  - intros x clx Hx. destruct (Hback x clx Hx) as [[-> ->]|[_ Hx']].
    + simpl. by apply (inv_capacity w Hinv c).
    + by apply (inv_capacity w Hinv x).
Qed.

(** The state in which a client without a site has been given site [p] and
    added to its members, whatever the count written. *)
Lemma hub_inv_attach c cl p site n w :
  hub_inv w →
  client_mem w !! c = Some cl →
  Client_site cl = None →
  site_mem w !! p = Some site →
  hub_inv
    (set_site_mem
       (set_client_mem w (<[c := with_site cl (Some p)]> (client_mem w)))
       (<[p := {| Site_ID := Site_ID site; Site_Count := n;
                  Site_Connections := {[c]} ∪ Site_Connections site |}]>
          (site_mem w))).
Proof.
  intros Hinv Hc Hnone Hsite.
  set (cl1 := with_site cl (Some p)).
  set (s1 := {| Site_ID := Site_ID site; Site_Count := n;
                Site_Connections := {[c]} ∪ Site_Connections site |}).
  assert (∀ x clx, <[c := cl1]> (client_mem w) !! x = Some clx →
            (x = c ∧ clx = cl1) ∨ (x ≠ c ∧ client_mem w !! x = Some clx))
    as Hback.
  { intros x clx Hx. destruct (decide (x = c)) as [->|Hne].
    - rewrite lookup_insert_eq in Hx. injection Hx as <-. by left.
    - rewrite lookup_insert_ne in Hx by done. by right. }
  assert (∀ q s, <[p := s1]> (site_mem w) !! q = Some s →
            (q = p ∧ s = s1) ∨ (q ≠ p ∧ site_mem w !! q = Some s)) as Hsback.
  { intros q s Hq. destruct (decide (q = p)) as [->|Hne].
    - rewrite lookup_insert_eq in Hq. injection Hq as <-. by left.
    - rewrite lookup_insert_ne in Hq by done. by right. }
  assert (∀ q s m, site_mem w !! q = Some s → m ∈ Site_Connections s → m ≠ c)
    as Hother.
  { intros q s m Hq Hm ->.
    destruct (inv_member w Hinv q s c Hq Hm) as (cl0 & ? & ? & _). congruence. }
  split; simpl.
  - intros k q Hk. simpl in Hk.
    destruct (inv_registry w Hinv k q Hk) as (s & Hs & Hid). simpl.
    destruct (decide (q = p)) as [->|Hne].
    + rewrite lookup_insert_eq. eexists. split; [done|]. simpl. congruence.
    + rewrite lookup_insert_ne by done. eauto.
  - intros x clx q Hx Hq.
    assert (is_Some (site_mem w !! q)) as [s Hs].
    { destruct (Hback x clx Hx) as [[-> ->]|[_ Hx']].
      - simpl in Hq. injection Hq as <-. eauto.
      - by apply (inv_site w Hinv x clx q). }
    destruct (decide (q = p)) as [->|Hne].
    + rewrite lookup_insert_eq. eauto.
    + rewrite lookup_insert_ne by done. eauto.
  - intros q s m Hq Hm. destruct (Hsback q s Hq) as [[-> ->]|[Hne Hq']].
    + simpl in Hm. apply elem_of_union in Hm as [Hm|Hm].
      * apply elem_of_singleton in Hm as ->. exists cl1.
        split; [apply lookup_insert_eq|]. split; [done|]. simpl.
        by apply (inv_idle w Hinv c).
      * destruct (inv_member w Hinv p site m Hsite Hm) as (clm & Hclm & ? & ?).
        exists clm. split; [|done]. rewrite lookup_insert_ne; [done|].
        intros <-. by apply (Hother p site c).
    + destruct (inv_member w Hinv q s m Hq' Hm) as (clm & Hclm & ? & ?).
      exists clm. split; [|done]. rewrite lookup_insert_ne; [done|].
      intros <-. by apply (Hother q s c).
  - intros x clx Hx Hn. destruct (Hback x clx Hx) as [[-> ->]|[_ Hx']]; [done|].
    by apply (inv_idle w Hinv x).
  - intros x clx q s Hx Hq Hs Hnot.
    destruct (Hback x clx Hx) as [[-> ->]|[Hne Hx']].
    + simpl in Hq. injection Hq as <-.
      destruct (Hsback p s Hs) as [[_ ->]|[? _]]; [|done].
      simpl in Hnot. set_solver.
    + destruct (Hsback q s Hs) as [[-> ->]|[Hneq Hs']].
      * apply (inv_left w Hinv x clx p site Hx' Hq Hsite). simpl in Hnot.
        set_solver.
      * by apply (inv_left w Hinv x clx q s).
  - intros x clx Hx. destruct (Hback x clx Hx) as [[-> ->]|[_ Hx']].
    + simpl. by apply (inv_capacity w Hinv c).
    + by apply (inv_capacity w Hinv x).
Qed.

Lemma sites_shrink_back w w' q s' :
  sites_shrink w w' → site_mem w' !! q = Some s' →
  ∃ s, site_mem w !! q = Some s ∧ site_shrinks s s'.
Proof.
  intros Hsh Hq. specialize (Hsh q). rewrite Hq in Hsh.
  destruct (site_mem w !! q) as [s|]; inversion Hsh; subst. eauto.
Qed.

Lemma sites_shrink_forth w w' q s :
  sites_shrink w w' → site_mem w !! q = Some s →
  ∃ s', site_mem w' !! q = Some s' ∧ site_shrinks s s'.
Proof.
  intros Hsh Hq. specialize (Hsh q). rewrite Hq in Hsh.
  destruct (site_mem w' !! q) as [s'|]; inversion Hsh; subst. eauto.
Qed.

Lemma counts_le_shrink n w w' :
  sites_shrink w w' → counts_le n w → counts_le n w'.
Proof.
  intros Hsh Hn p s' Hs'.
  destruct (sites_shrink_back _ _ _ _ Hsh Hs') as (s & Hs & _ & Hcount & Hsub).
  destruct (Hn p s Hs) as [Hlo Hhi]. apply subseteq_size in Hsub. lia.
Qed.

Lemma counts_le_mono n n' w : n ≤ n' → counts_le n w → counts_le n' w.
Proof. intros Hle Hn p s Hs. destruct (Hn p s Hs). lia. Qed.

Lemma sites_shrink_refl w : sites_shrink w w.
Proof. intros q. destruct (site_mem w !! q); by constructor. Qed.

(** A broadcast of a count of at least one keeps the queues in order. *)
Lemma broadcast_loop_queues message l :
  Message_Type message = "update" → 1 ≤ Message_Count message →
  ∀ conns clients conns' clients',
  broadcast_loop message l conns clients = Ok (conns', clients') →
  (∀ c cl m, clients !! c = Some cl → m ∈ chan_buf (Client_send cl) →
             Message_Type m = "update" ∧ 1 ≤ Message_Count m) →
  (∀ c cl m, clients' !! c = Some cl → m ∈ chan_buf (Client_send cl) →
             Message_Type m = "update" ∧ 1 ≤ Message_Count m).
Proof.
  intros Hty Hcount. induction l as [|x l IH];
    intros conns clients conns' clients' Hrun Hq.
  - simpl in Hrun. by injection Hrun as <- <-.
  - rewrite broadcast_loop_cons in Hrun.
    destruct (clients !! x) as [clx|] eqn:Hx; [|done].
    destruct (chan_closed (Client_send clx)); [done|].
    apply (IH _ _ _ _ Hrun). intros c cl m Hc Hm.
    destruct (decide (c = x)) as [->|Hne].
    + rewrite lookup_insert_eq in Hc. injection Hc as <-.
      unfold deliver in Hm. destruct (chan_full (Client_send clx)); simpl in Hm.
      * by apply (Hq x clx m).
      * apply elem_of_app in Hm as [Hm|Hm]; [by apply (Hq x clx m)|].
        apply list_elem_of_singleton in Hm as ->. done.
    + rewrite lookup_insert_ne in Hc by done. by apply (Hq c cl m).
Qed.

Lemma broadcastToSite_queues siteID count now w w' :
  1 ≤ count →
  broadcastToSite siteID count now w = Ok w' →
  queues_ok w → queues_ok w'.
Proof.
  intros Hcount. unfold broadcastToSite.
  destruct (sites w !! siteID) as [p|]; [|by intros [= <-]].
  intros Hrun. apply bind_Ok_inv in Hrun as (site & _ & Hrun).
  apply bind_Ok_inv in Hrun as ([conns clients] & Hloop & [= <-]).
  intros Hq c cl m. simpl.
  by apply (broadcast_loop_queues (update_message siteID count now) _
              eq_refl Hcount _ _ _ _ Hloop).
Qed.

(** In a state that satisfies the invariant, the detach of an allocated
    client completes and keeps the invariant; every client keeps its site
    reference, the client detached is no member of its site, no count
    falls below the number of members, and no update with a count below
    one is queued. *)
Lemma handleUnregister_inv now c w :
  hub_inv w →
  is_Some (client_mem w !! c) →
  ∃ w', handleUnregister now c w = Ok w' ∧
        hub_inv w' ∧
        received w' = received w ∧
        (∀ x cl, client_mem w !! x = Some cl →
           ∃ cl', client_mem w' !! x = Some cl' ∧
                  Client_site cl' = Client_site cl) ∧
        (∀ q s, site_mem w !! q = Some s →
           ∃ s', site_mem w' !! q = Some s' ∧ Site_ID s' = Site_ID s) ∧
        (∀ cl p s', client_mem w' !! c = Some cl → Client_site cl = Some p →
           site_mem w' !! p = Some s' → c ∉ Site_Connections s') ∧
        (∀ n, counts_le n w → n ≤ int_max →
              counts_le n w' ∧ (queues_ok w → queues_ok w')).
Proof.
  intros Hinv [cl Hc].
  destruct (Client_site cl) as [p|] eqn:Hp.
  2:{ exists w. rewrite (handleUnregister_noop now c cl w Hc) by auto.
      split; [done|]. split; [done|]. split; [done|]. split; [eauto|].
      split; [eauto|]. split; [|done]. intros cl0 p s' Hc0. congruence. }
  destruct (inv_site w Hinv c cl p Hc Hp) as [site Hsite].
  destruct (decide (c ∈ Site_Connections site)) as [Hin|Hnotin].
  2:{ exists w. rewrite (handleUnregister_noop now c cl w Hc) by (right; eauto).
      split; [done|]. split; [done|]. split; [done|]. split; [eauto|].
      split; [eauto|]. split; [|done]. intros cl0 p0 s' Hc0 Hp0 Hs'.
      assert (cl0 = cl) as -> by congruence.
      assert (p0 = p) as -> by congruence. congruence. }
  destruct (inv_member w Hinv p site c Hsite Hin) as (cl0 & Hcl0 & _ & Hopen).
  assert (cl0 = cl) as -> by congruence.
  rewrite (handleUnregister_member _ _ _ _ _ _ Hc Hp Hsite Hin Hopen).
  pose proof (hub_inv_detached c cl p site w Hinv Hc Hp Hsite) as Hinv1.
  assert (∀ n, counts_le n w → n ≤ int_max →
               counts_le n (detached c cl p site w)) as Hcnt1.
  { intros n Hn Hmax q s Hq. unfold detached in Hq. simpl in Hq.
    destruct (decide (q = p)) as [->|Hne].
    - rewrite lookup_insert_eq in Hq. injection Hq as <-. simpl.
      destruct (Hn p site Hsite) as [Hlo Hhi].
      assert (size (Site_Connections site ∖ {[c]})
              = (size (Site_Connections site) - 1)%nat) as ->.
      { rewrite size_difference by set_solver. by rewrite size_singleton. }
      assert (size (Site_Connections site) ≠ 0%nat) as Hnz.
      { intros Hz. apply size_empty_inv in Hz. set_solver. }
      rewrite wrap_int_small by (unfold int_min, int_max in *; lia).
      destruct (Z.ltb_spec (Site_Count site - 1) 0); lia.
    - rewrite lookup_insert_ne in Hq by done. by apply (Hn q s). }
  assert (queues_ok w → queues_ok (detached c cl p site w)) as Hqd.
  { intros Hq x clx m Hx. unfold detached in Hx. simpl in Hx.
    destruct (decide (x = c)) as [->|Hne].
    - rewrite lookup_insert_eq in Hx. injection Hx as <-. simpl.
      by apply (Hq c cl m).
    - rewrite lookup_insert_ne in Hx by done. by apply (Hq x clx m). }
  set (w1 := detached c cl p site w) in *.
  assert ((∀ x clx, client_mem w !! x = Some clx →
             ∃ cl', client_mem w1 !! x = Some cl' ∧
                    Client_site cl' = Client_site clx) ∧
          (∀ q s, site_mem w !! q = Some s →
             ∃ s', site_mem w1 !! q = Some s' ∧ Site_ID s' = Site_ID s ∧
                   (q = p → c ∉ Site_Connections s'))) as [Hcl1 Hs1].
  { split.
    - intros x clx Hx. unfold w1, detached. simpl.
      destruct (decide (x = c)) as [->|Hne].
      + rewrite lookup_insert_eq. eexists. split; [done|]. simpl. congruence.
      + rewrite lookup_insert_ne by done. eauto.
    - intros q s Hq. unfold w1, detached. simpl.
      destruct (decide (q = p)) as [->|Hne].
      + rewrite lookup_insert_eq. eexists. split; [done|]. simpl.
        split; [congruence|]. set_solver.
      + rewrite lookup_insert_ne by done. exists s. split; [done|].
        split; [done|]. by intros ->. }
  assert (∀ w' : State,
            (∀ x clx, client_mem w1 !! x = Some clx →
               ∃ cl', client_mem w' !! x = Some cl' ∧
                      Client_site cl' = Client_site clx) →
            sites_shrink w1 w' →
            (∀ n, counts_le n w → n ≤ int_max → queues_ok w1 → queues_ok w') →
            (∀ x clx, client_mem w !! x = Some clx →
               ∃ cl', client_mem w' !! x = Some cl' ∧
                      Client_site cl' = Client_site clx) ∧
            (∀ q s, site_mem w !! q = Some s →
               ∃ s', site_mem w' !! q = Some s' ∧ Site_ID s' = Site_ID s) ∧
            (∀ cl0 p0 s', client_mem w' !! c = Some cl0 →
               Client_site cl0 = Some p0 →
               site_mem w' !! p0 = Some s' → c ∉ Site_Connections s') ∧
            (∀ n, counts_le n w → n ≤ int_max →
                  counts_le n w' ∧ (queues_ok w → queues_ok w'))) as Hpost.
  { intros w' Hcl' Hsh Hq'.
    assert (∀ q s, site_mem w1 !! q = Some s →
              ∃ s', site_mem w' !! q = Some s' ∧ Site_ID s' = Site_ID s ∧
                    Site_Connections s' ⊆ Site_Connections s) as Hs'.
    { intros q s Hq.
      destruct (sites_shrink_forth _ _ _ _ Hsh Hq) as (s' & ? & ? & _ & ?).
      eauto. }
    split; [|split; [|split]].
    - intros x clx Hx. destruct (Hcl1 x clx Hx) as (cl1 & Hx1 & Heq1).
      destruct (Hcl' x cl1 Hx1) as (cl2 & Hx2 & Heq2). exists cl2.
      split; [done|]. congruence.
    - intros q s Hq. destruct (Hs1 q s Hq) as (s1 & Hq1 & Hid1 & _).
      destruct (Hs' q s1 Hq1) as (s2 & Hq2 & Hid2 & _). exists s2.
      split; [done|]. congruence.
    - intros cl0 p0 s' Hc0 Hp0 Hs0.
      destruct (Hcl1 c cl Hc) as (cl1 & Hx1 & Heq1).
      destruct (Hcl' c cl1 Hx1) as (cl2 & Hx2 & Heq2).
      assert (p0 = p) as -> by congruence.
      destruct (Hs1 p site Hsite) as (s1 & Hq1 & _ & Hnot1).
      destruct (Hs' p s1 Hq1) as (s2 & Hq2 & _ & Hsub).
      assert (s' = s2) as -> by congruence.
      intros Hc2. by apply (Hnot1 eq_refl), Hsub.
    - intros n Hn Hmax. split.
      + apply (counts_le_shrink n w1 w' Hsh). by apply Hcnt1.
      + intros Hq. by apply (Hq' n Hn Hmax), Hqd. }
  destruct (decide (size (Site_Connections site ∖ {[c]}) = 0%nat)) as [Hz|Hnz].
  - pose proof (hub_inv_delete_key (Site_ID site) w1 Hinv1) as Hinv2.
    eexists. split; [done|]. split; [exact Hinv2|]. split; [done|].
    apply Hpost.
    + intros x clx Hx. exists clx. by split.
    + exact (sites_shrink_refl w1).
    + intros k _ _ Hq. exact Hq.
  - destruct (broadcastToSite_inv (Site_ID site)
                (if wrap_int (Site_Count site - 1) <? 0 then 0
                 else wrap_int (Site_Count site - 1)) now w1 Hinv1)
      as (w' & Hrun & Hinv' & _ & Hrecv & Hsh).
    exists w'. split; [done|]. split; [done|]. split; [done|].
    pose proof Hrun as Hrun'.
    apply broadcastToSite_frame in Hrun as (_ & _ & _ & Hcm).
    apply Hpost; [|done|].
    + intros x clx Hx. destruct (Hcm x clx Hx) as (cl' & ? & ? & _). eauto.
    + intros k Hk Hmax. refine (broadcastToSite_queues _ _ _ _ _ _ Hrun').
      destruct (Hk p site Hsite) as [Hlo Hhi].
      rewrite size_difference, size_singleton in Hnz by set_solver.
      rewrite wrap_int_small by (unfold int_min, int_max in *; lia).
      destruct (Z.ltb_spec (Site_Count site - 1) 0); lia.
Qed.

(** ** The read loop under the invariant *)

Lemma readPump_step_join t1 t2 c msg w :
  Message_Type msg = "join" →
  Message_SiteID msg ≠ "" →
  readPump_step HubFirst t1 t2 c (Decoded msg) w =
    (other ← holds_other_site c (TrimSpace (Message_SiteID msg)) w;
     w1 ← (if other : bool then Run_step t1 (Unregister c) w else Ok w);
     needs ← needs_site c (TrimSpace (Message_SiteID msg)) w1;
     if needs : bool then
       w3 ← resolve_site c (TrimSpace (Message_SiteID msg)) w1;
       w4 ← Run_step t2 (Register c) w3;
       Ok (Continue, w4)
     else Ok (Continue, w1)).
Proof.
  intros Hty Hid. rewrite readPump_step_hub_first. by rewrite bool_decide_eq_true_2.
Qed.

Lemma readPump_step_not_join t1 t2 c msg w :
  ¬ (Message_Type msg = "join" ∧ Message_SiteID msg ≠ "") →
  readPump_step HubFirst t1 t2 c (Decoded msg) w = Ok (Continue, w).
Proof. intros Hno. rewrite readPump_step_hub_first. by rewrite bool_decide_eq_false_2. Qed.

Lemma getSite_counts siteID w p w' n :
  getSite siteID w = (p, w') → 0 ≤ n → counts_le n w → counts_le n w'.
Proof.
  unfold getSite. intros Hget Hn Hle.
  destruct (sites w !! siteID) as [p0|]; injection Hget as <- <-; [done|].
  intros q s Hq. simpl in Hq.
  destruct (decide (q = fresh (dom (site_mem w)))) as [->|Hne].
  - rewrite lookup_insert_eq in Hq. injection Hq as <-.
    unfold Site_Connections, Site_Count. rewrite size_empty. lia.
  - rewrite lookup_insert_ne in Hq by done. by apply (Hle q s).
Qed.

(** The first join of a client that has no site. *)
Lemma readPump_join_idle t1 t2 c cl msg w :
  hub_inv w →
  client_mem w !! c = Some cl →
  Client_site cl = None →
  Message_Type msg = "join" →
  Message_SiteID msg ≠ "" →
  ∃ w', readPump_step HubFirst t1 t2 c (Decoded msg) w = Ok (Continue, w') ∧
        hub_inv w' ∧
        received w' = received w ++ [Register c] ∧
        (counts_inv w → Z.of_nat (length (received w')) ≤ int_max →
         counts_inv w' ∧ (queues_ok w → queues_ok w')).
Proof.
  intros Hinv Hc Hnone Hty Hid. rewrite readPump_step_join by done.
  set (siteID := TrimSpace (Message_SiteID msg)).
  unfold holds_other_site, needs_site.
  deref_with Hc. rewrite Hnone, !bind_Ok. deref_with Hc. rewrite Hnone, !bind_Ok.
  unfold resolve_site. destruct (getSite siteID w) as [p w2] eqn:Hget.
  pose proof (hub_inv_getSite _ _ _ _ Hinv Hget) as Hinv2.
  destruct (getSite_registers _ _ _ _ Hget (inv_registry w Hinv))
    as (_ & Hreg2 & Hcm2 & Hrecv2 & _).
  destruct (inv_registry w2 Hinv2 _ _ Hreg2) as (site2 & Hsite2 & Hid2).
  assert (client_mem w2 !! c = Some cl) as Hc2 by by rewrite Hcm2.
  deref_with Hc2. rewrite bind_Ok.
  unfold Run_step, handleRegister. simpl.
  rewrite (deref_Some _ c _ (lookup_insert_eq _ _ _)), bind_Ok. simpl.
  deref_with Hsite2.
  pose proof (hub_inv_attach c cl p site2 (wrap_int (Site_Count site2 + 1))
                (receive (Register c) w2) (hub_inv_receive _ _ Hinv2)
                Hc2 Hnone Hsite2) as Hinv3.
  destruct (broadcastToSite_inv (Site_ID site2)
              (wrap_int (Site_Count site2 + 1)) t2 _ Hinv3)
    as (w' & Hrun & Hinv' & _ & Hrecv' & Hsh).
  simpl in Hrecv'. rewrite Hrecv2 in Hrecv'.
  exists w'. split; [|split; [done|split; [done|]]].
  { etrans; [|by rewrite <- (bind_Ok (λ w4, Ok (Continue, w4)) w')].
    f_equal. exact Hrun. }
  unfold counts_inv. rewrite Hrecv', length_app. simpl.
  intros Hcnt Hmax.
  pose proof (getSite_counts _ _ _ _ _ Hget (Nat2Z.is_nonneg _) Hcnt) as Hcnt2.
  split.
  2:{ intros Hqs. refine (broadcastToSite_queues _ _ _ _ _ _ Hrun _).
      - destruct (Hcnt2 p site2 Hsite2) as [Hlo Hhi].
        rewrite wrap_int_small by (unfold int_min, int_max in *; lia). lia.
      - intros x clx m Hx. simpl in Hx. rewrite Hcm2 in Hx.
        destruct (decide (x = c)) as [->|Hne].
        + rewrite lookup_insert_eq in Hx. injection Hx as <-. simpl.
          by apply (Hqs c cl m).
        + rewrite lookup_insert_ne in Hx by done. by apply (Hqs x clx m). }
  apply (counts_le_shrink _ _ _ Hsh).
  intros q s Hq. simpl in Hq. destruct (decide (q = p)) as [->|Hne].
  - rewrite lookup_insert_eq in Hq. injection Hq as <-. simpl.
    destruct (Hcnt2 p site2 Hsite2) as [Hlo Hhi].
    rewrite wrap_int_small by (unfold int_min, int_max in *; lia).
    rewrite size_union_alt, size_singleton.
    assert (size (Site_Connections site2 ∖ {[c]}) ≤ size (Site_Connections site2))%nat
      by (apply subseteq_size; set_solver).
    lia.
  - rewrite lookup_insert_ne in Hq by done.
    destruct (Hcnt2 q s Hq). lia.
Qed.

(** A join for the key of the site the client refers to. *)
Lemma readPump_join_same t1 t2 c cl p site msg w :
  client_mem w !! c = Some cl →
  Client_site cl = Some p →
  site_mem w !! p = Some site →
  Message_Type msg = "join" →
  Message_SiteID msg ≠ "" →
  Site_ID site = TrimSpace (Message_SiteID msg) →
  readPump_step HubFirst t1 t2 c (Decoded msg) w = Ok (Continue, w).
Proof.
  intros Hc Hp Hsite Hty Hid Hsame. rewrite readPump_step_join by done.
  unfold holds_other_site, needs_site.
  deref_with Hc. rewrite Hp. deref_with Hsite.
  rewrite bool_decide_eq_false_2 by (intros Hne; by apply Hne).
  rewrite !bind_Ok. deref_with Hc. rewrite Hp. deref_with Hsite.
  by rewrite bool_decide_eq_false_2 by (intros Hne; by apply Hne).
Qed.

Lemma switches_or_not c inp w : switches c inp w ∨ ¬ switches c inp w.
Proof.
  destruct inp as [| |msg];
    try (right; intros (? & ? & ? & ? & Heq & _); discriminate Heq).
  destruct (decide (Message_Type msg = "join")) as [Hty|Hty].
  2:{ right. intros (? & ? & ? & ? & [= <-] & ? & _). done. }
  destruct (decide (Message_SiteID msg = "")) as [Hid|Hid].
  { right. intros (? & ? & ? & ? & [= <-] & _ & ? & _). done. }
  destruct (client_mem w !! c) as [cl|] eqn:Hc.
  2:{ right. intros (? & ? & ? & ? & _ & _ & _ & ? & _). congruence. }
  destruct (Client_site cl) as [p|] eqn:Hp.
  2:{ right. intros (? & ? & ? & ? & _ & _ & _ & ? & ? & _). congruence. }
  destruct (site_mem w !! p) as [site|] eqn:Hsite.
  2:{ right. intros (? & ? & ? & ? & _ & _ & _ & ? & ? & ? & _). congruence. }
  destruct (decide (Site_ID site = TrimSpace (Message_SiteID msg))) as [Hs|Hs].
  - right. intros (? & ? & ? & ? & [= <-] & _ & _ & ? & ? & ? & Hne).
    apply Hne. congruence.
  - left. by exists msg, cl, p, site.
Qed.

(** A join for another key by a client that refers to a site panics,
    member or not. *)
Lemma readPump_switch_panics t1 t2 c inp w :
  hub_inv w → switches c inp w →
  ∃ e, readPump_step HubFirst t1 t2 c inp w = Panic e.
Proof.
  intros Hinv (msg & cl & p & site & -> & Hty & Hid & Hc & Hp & Hsite & Hne).
  rewrite readPump_step_join by done.
  set (siteID := TrimSpace (Message_SiteID msg)) in *.
  assert (holds_other_site c siteID w = Ok true) as ->.
  { unfold holds_other_site. deref_with Hc. rewrite Hp. deref_with Hsite.
    by rewrite bool_decide_eq_true_2. }
  rewrite bind_Ok.
  change (Run_step t1 (Unregister c) w)
    with (handleUnregister t1 c (receive (Unregister c) w)).
  destruct (handleUnregister_inv t1 c (receive (Unregister c) w)
              (hub_inv_receive _ _ Hinv))
    as (w1 & -> & Hinv1 & _ & Hcl1 & Hs1 & Hnot1 & _); [by eexists|].
  rewrite bind_Ok.
  destruct (Hcl1 c cl Hc) as (cl1 & Hc1 & Hp1). rewrite Hp in Hp1.
  destruct (Hs1 p site Hsite) as (s1 & Hsite1 & Hid1).
  assert (chan_closed (Client_send cl1) = true) as Hclosed1.
  { apply (inv_left w1 Hinv1 c cl1 p s1 Hc1 Hp1 Hsite1).
    by apply (Hnot1 cl1 p s1). }
  assert (needs_site c siteID w1 = Ok true) as ->.
  { unfold needs_site. deref_with Hc1. rewrite Hp1. deref_with Hsite1.
    rewrite bool_decide_eq_true_2; [done|congruence]. }
  rewrite bind_Ok. unfold resolve_site.
  destruct (getSite siteID w1) as [pb w2] eqn:Hget.
  destruct (getSite_registers _ _ _ _ Hget (inv_registry w1 Hinv1))
    as (Hwf2 & Hreg2 & Hcm2 & _ & _).
  destruct (Hwf2 _ _ Hreg2) as (sb & Hsb & Hidb).
  rewrite Hcm2. deref_with Hc1. rewrite bind_Ok.
  destruct (handleRegister_closed_panics t2 c (with_site cl1 (Some pb)) pb sb
              (receive (Register c)
                 (set_client_mem w2
                    (<[c := with_site cl1 (Some pb)]> (client_mem w1)))))
    as (e & He).
  - apply lookup_insert_eq.
  - done.
  - done.
  - simpl. by rewrite Hidb.
  - done.
  - unfold Run_step. rewrite He. by eauto.
Qed.

(** Every other turn of the read loop of an allocated client completes and
    keeps the invariant; the history of commands only grows, and no count
    falls below the number of members. *)
Lemma readPump_step_inv t1 t2 c inp w :
  hub_inv w →
  is_Some (client_mem w !! c) →
  ¬ switches c inp w →
  ∃ ctl w', readPump_step HubFirst t1 t2 c inp w = Ok (ctl, w') ∧
            hub_inv w' ∧
            (length (received w) ≤ length (received w'))%nat ∧
            (counts_inv w → Z.of_nat (length (received w')) ≤ int_max →
             counts_inv w' ∧ (queues_ok w → queues_ok w')).
Proof.
  intros Hinv [cl Hc] Hno. destruct inp as [| |msg].
  - rewrite readPump_step_hub_first.
    change (Run_step t1 (Unregister c) w)
      with (handleUnregister t1 c (receive (Unregister c) w)).
    destruct (handleUnregister_inv t1 c (receive (Unregister c) w)
                (hub_inv_receive _ _ Hinv))
      as (w1 & -> & Hinv1 & Hrecv1 & Hcl1 & _ & _ & Hcnt1); [by eexists|].
    rewrite bind_Ok. destruct (Hcl1 c cl Hc) as (cl1 & Hc1 & Hp1).
    unfold conn_Close. deref_with Hc1. rewrite bind_Ok.
    eexists _, _. split; [done|]. split; [|split].
    + apply (hub_inv_update_client c cl1 _ w1 Hinv1 Hc1); [done|done|].
      simpl. by apply (inv_capacity w1 Hinv1 c).
    + simpl. rewrite Hrecv1. simpl. rewrite length_app. lia.
    + unfold counts_inv. simpl. rewrite Hrecv1. simpl. intros Hcnt Hmax.
      destruct (Hcnt1 (Z.of_nat (length (received w ++ [Unregister c]))))
        as [Hcnt' Hq']; [|done|].
      { apply (counts_le_mono (Z.of_nat (length (received w)))); [|exact Hcnt].
        rewrite length_app. lia. }
      split; [exact Hcnt'|]. intros Hq x clx m Hx. simpl in Hx.
      destruct (decide (x = c)) as [->|Hne].
      * rewrite lookup_insert_eq in Hx. injection Hx as <-. simpl.
        by apply (Hq' Hq c cl1 m).
      * rewrite lookup_insert_ne in Hx by done. by apply (Hq' Hq x clx m).
  - by exists Continue, w.
  - destruct (decide (Message_Type msg = "join" ∧ Message_SiteID msg ≠ ""))
      as [[Hty Hid]|Hnj].
    2:{ exists Continue, w. by rewrite readPump_step_not_join. }
    destruct (Client_site cl) as [p|] eqn:Hp.
    + destruct (inv_site w Hinv c cl p Hc Hp) as [site Hsite].
      destruct (decide (Site_ID site = TrimSpace (Message_SiteID msg)))
        as [Hsame|Hother].
      * exists Continue, w.
        by rewrite (readPump_join_same _ _ _ _ _ _ _ _ Hc Hp Hsite Hty Hid Hsame).
      * exfalso. apply Hno. by exists msg, cl, p, site.
    + destruct (readPump_join_idle t1 t2 c cl msg w Hinv Hc Hp Hty Hid)
        as (w' & ? & ? & Hrecv & ?).
      exists Continue, w'. split; [done|]. split; [done|]. split; [|done].
      rewrite Hrecv, length_app. lia.
Qed.

(** ** Every event keeps the invariant *)

Lemma writePump_recv_inv c w r :
  hub_inv w →
  writePump_recv c w = Ok r →
  hub_inv (match r with Some (_, _, w') => w' | None => w end) ∧
  received (match r with Some (_, _, w') => w' | None => w end) = received w ∧
  site_mem (match r with Some (_, _, w') => w' | None => w end) = site_mem w ∧
  (queues_ok w →
   queues_ok (match r with Some (_, _, w') => w' | None => w end)).
Proof.
  intros Hinv. unfold writePump_recv.
  destruct (client_mem w !! c) as [cl|] eqn:Hc.
  2:{ unfold deref. by rewrite Hc. }
  deref_with Hc. pose proof (inv_capacity w Hinv c cl Hc) as Hcap.
  destruct (chan_buf (Client_send cl)) as [|message rest] eqn:Hbuf.
  - destruct (chan_closed (Client_send cl)).
    + unfold conn_Close. deref_with Hc. rewrite bind_Ok. intros [= <-].
      split; [|split; [done|split; [done|]]].
      * apply (hub_inv_update_client c cl _ w Hinv Hc); [done|done|].
        simpl. by rewrite Hbuf.
      * intros Hq x clx m Hx. simpl in Hx.
        destruct (decide (x = c)) as [->|Hne].
        -- rewrite lookup_insert_eq in Hx. injection Hx as <-. simpl.
           by apply (Hq c cl m).
        -- rewrite lookup_insert_ne in Hx by done. by apply (Hq x clx m).
    + by intros [= <-].
  - intros [= <-]. split; [|split; [done|split; [done|]]].
    + apply (hub_inv_update_client c cl _ w Hinv Hc); [done|done|].
      simpl in *. lia.
    + intros Hq x clx m Hx. simpl in Hx.
      destruct (decide (x = c)) as [->|Hne].
      * rewrite lookup_insert_eq in Hx. injection Hx as <-. simpl.
        intros Hm. apply (Hq c cl m Hc). rewrite Hbuf. by right.
      * rewrite lookup_insert_ne in Hx by done. by apply (Hq x clx m).
Qed.

Lemma run_event_inv now e w w' :
  hub_inv w → run_event now e w = Ok w' →
  hub_inv w' ∧
  (length (received w) ≤ length (received w'))%nat ∧
  (counts_inv w → Z.of_nat (length (received w')) ≤ int_max →
   counts_inv w' ∧ (queues_ok w → queues_ok w')).
Proof.
  intros Hinv. destruct e as [clientIP|c inp|c]; simpl.
  - intros [= <-]. split; [by apply hub_inv_handleWebSocket|].
    split; [done|]. intros Hcnt _. split; [done|].
    intros Hq x clx m Hx. unfold handleWebSocket in Hx. simpl in Hx.
    destruct (decide (x = fresh (dom (client_mem w)))) as [->|Hne].
    + rewrite lookup_insert_eq in Hx. injection Hx as <-. simpl.
      intros Hm. by apply elem_of_nil in Hm.
    + rewrite lookup_insert_ne in Hx by done. by apply (Hq x clx m).
  - intros Hrun. apply bind_Ok_inv in Hrun as ([ctl w1] & Hrun & [= <-]).
    destruct (client_mem w !! c) as [cl|] eqn:Hc.
    + destruct (switches_or_not c inp w) as [Hsw|Hno].
      * destruct (readPump_switch_panics now now c inp w Hinv Hsw) as (e & He).
        congruence.
      * destruct (readPump_step_inv now now c inp w Hinv)
          as (ctl' & w2 & Hrun2 & ? & ? & ?); [by eexists|done|].
        rewrite Hrun2 in Hrun. injection Hrun as _ <-. done.
    + assert (w1 = w) as ->; [|done].
      destruct inp as [| |msg].
      * unfold readPump_step, Run_step, handleUnregister, deref in Hrun.
        simpl in Hrun. by rewrite Hc in Hrun.
      * by injection Hrun as _ <-.
      * destruct (decide (Message_Type msg = "join" ∧ Message_SiteID msg ≠ ""))
          as [[Hty Hid]|Hnj].
        -- rewrite readPump_step_join in Hrun by done.
           unfold holds_other_site, deref in Hrun. by rewrite Hc in Hrun.
        -- rewrite readPump_step_not_join in Hrun by done.
           by injection Hrun as _ <-.
  - intros Hrun. apply bind_Ok_inv in Hrun as (r & Hrun & [= <-]).
    destruct (writePump_recv_inv c w r Hinv Hrun) as (? & Hrecv & Hsm & Hq).
    split; [done|]. split; [by rewrite Hrecv|].
    unfold counts_inv, counts_le. rewrite Hrecv, Hsm. by split.
Qed.

Lemma run_events_inv es :
  ∀ w w',
  hub_inv w → run_events es w = Ok w' →
  hub_inv w' ∧
  (length (received w) ≤ length (received w'))%nat ∧
  (counts_inv w → Z.of_nat (length (received w')) ≤ int_max →
   counts_inv w' ∧ (queues_ok w → queues_ok w')).
Proof.
  induction es as [|[now e] es IH]; intros w w' Hinv Hrun; simpl in Hrun.
  - injection Hrun as <-. done.
  - apply bind_Ok_inv in Hrun as (w1 & Hstep & Hrun).
    destruct (run_event_inv now e w w1 Hinv Hstep) as (Hinv1 & Hlen1 & Hcnt1).
    destruct (IH w1 w' Hinv1 Hrun) as (Hinv' & Hlen' & Hcnt').
    split; [done|]. split; [lia|]. intros Hcnt Hmax.
    destruct Hcnt1 as [Hc1 Hq1]; [done|lia|].
    destruct Hcnt' as [Hc' Hq']; [done|done|].
    split; [done|]. intros Hq. by apply Hq', Hq1.
Qed.

(** * The new hub, and the count in a frame *)

Lemma counts_inv_NewHub : counts_inv NewHub.
Proof. intros p s Hs. simpl in Hs. by rewrite lookup_empty in Hs. Qed.

Lemma marshal_count_member m :
  Message_Count m ≠ 0 →
  json_member "count" (marshal_Message m) = Some (JNumber (Message_Count m)).
Proof.
  intros Hnz. unfold marshal_Message, omitempty_string, omitempty_int.
  destruct (decide (Message_SiteID m = "")); destruct (decide (Message_Count m = 0));
    done.
Qed.

(** * First join and last leave *)





(** * The write loop *)

(** X10: given enough turns, the write loop of a client hands the queued
    messages to the connection in the order they were queued and empties
    the queue; it then waits if the queue is open, and returns with the
    connection closed if the queue is closed.  Nothing else changes. *)
Theorem writePump_drains_queue fuel c cl w :
  client_mem w !! c = Some cl →
  (length (chan_buf (Client_send cl)) < fuel)%nat →
  writePump_run fuel c w =
    Ok (chan_buf (Client_send cl),
        (if chan_closed (Client_send cl) then Returned else Waiting),
        set_client_mem w
          (<[c := {| Client_conn_open :=
                       (if chan_closed (Client_send cl) then false
                        else Client_conn_open cl);
                     Client_site := Client_site cl;
                     Client_send :=
                       {| chan_buf := [];
                          chan_closed := chan_closed (Client_send cl) |};
                     Client_ip := Client_ip cl |}]> (client_mem w))).
Proof.
  remember (chan_buf (Client_send cl)) as buf eqn:Hbuf.
  revert fuel cl w Hbuf.
  induction buf as [|m rest IH]; intros fuel cl w Hbuf Hc Hfuel.
  - destruct fuel as [|fuel]; [simpl in Hfuel; lia|]. simpl.
    unfold writePump_recv. deref_with Hc. rewrite <- Hbuf.
    destruct cl as [open site [buf closed] ip]. simpl in *. subst buf.
    destruct closed.
    + unfold conn_Close. deref_with Hc. by rewrite !bind_Ok.
    + rewrite bind_Ok. rewrite insert_id by done. by destruct w.
  - destruct fuel as [|fuel]; [simpl in Hfuel; lia|]. simpl.
    unfold writePump_recv. deref_with Hc. rewrite <- Hbuf. rewrite bind_Ok.
    set (cl1 := with_send cl {| chan_buf := rest;
                                 chan_closed := chan_closed (Client_send cl) |}).
    rewrite (IH fuel cl1 (set_client_mem w (<[c := cl1]> (client_mem w))));
      [|done|apply lookup_insert_eq|simpl in Hfuel; lia].
    rewrite bind_Ok. simpl. unfold set_client_mem. simpl.
    by rewrite insert_insert_eq.
Qed.

Lemma writePump_drains_queue_witness :
  writePump_run 2 1 joined_state =
    Ok ([update_message "blog" 1 0], Waiting,
        set_client_mem joined_state
          (<[1%positive := example_client (Some 1%positive) 0]>
             (client_mem joined_state))).
Proof.
  refine (writePump_drains_queue 2 1%positive
            (example_client (Some 1%positive) 1) joined_state _ _).
  - reflexivity.
  - simpl. lia.
Defined.

(** * The shutdown notice *)






(** * The address of the client and the script configuration *)

(** The first field of [Split]: the longest prefix without the separator. *)
Lemma Split_first_field sep s :
  ∃ field fields rest,
    Split sep s = field :: fields ∧
    s = (field +:+ rest)%string ∧
    (rest = "" ∨ ∃ rest', rest = String sep rest') ∧
    (∀ pre post, field ≠ (pre +:+ String sep post)%string).
Proof.
  induction s as [|a s (field & fields & rest & Hsplit & Hs & Hrest & Hfree)].
  - exists "", [], "". simpl. split; [done|]. split; [done|]. split; [by left|].
    intros [|b pre] post; [change ("" ≠ String sep post)
                          |change ("" ≠ String b (pre +:+ String sep post))];
      discriminate.
  - simpl. destruct (decide (a = sep)) as [->|Hne].
    + exists "", (Split sep s), (String sep s). split; [done|]. split; [done|].
      split; [right; eauto|].
      intros [|b pre] post; [change ("" ≠ String sep post)
                            |change ("" ≠ String b (pre +:+ String sep post))];
        discriminate.
    + rewrite Hsplit. exists (String a field), fields, rest.
      split; [done|]. split.
      { change (String a s = String a (field +:+ rest)). by f_equal. }
      split; [done|].
      intros [|b pre] post.
      * change (String a field ≠ String sep post). congruence.
      * change (String a field ≠ String b (pre +:+ String sep post)).
        intros [= _ Hf]. by apply (Hfree pre post).
Qed.

(** X12: when the [X-Forwarded-For] header is not empty, [getRealIP]
    returns its first comma-separated field: the longest prefix of the
    header without a comma, taken as it stands (not trimmed). *)
Theorem getRealIP_forwarded_first_field r :
  Request_Header r "X-Forwarded-For" ≠ "" →
  ∃ ip rest,
    getRealIP r = Some ip ∧
    Request_Header r "X-Forwarded-For" = (ip +:+ rest)%string ∧
    (rest = "" ∨ ∃ rest', rest = String ","%char rest') ∧
    (∀ pre post, ip ≠ (pre +:+ String ","%char post)%string).
Proof.
  intros Hfwd. unfold getRealIP. rewrite decide_True by done.
  destruct (Split_first_field ","%char (Request_Header r "X-Forwarded-For"))
    as (field & fields & rest & Hsplit & Hs & Hrest & Hfree).
  exists field, rest. by rewrite Hsplit.
Qed.

Lemma getRealIP_forwarded_first_field_witness :
  ∃ ip rest,
    getRealIP {| Request_Header :=
                   (λ name, if decide (name = "X-Forwarded-For")
                            then "203.0.113.7, 10.0.0.1" else "");
                 Request_RemoteAddr := "10.0.0.1:41000";
                 Request_Query := ∅ |} = Some ip ∧
    "203.0.113.7, 10.0.0.1" = (ip +:+ rest)%string ∧
    (rest = "" ∨ ∃ rest', rest = String ","%char rest') ∧
    (∀ pre post, ip ≠ (pre +:+ String ","%char post)%string).
Proof.
  refine (getRealIP_forwarded_first_field
            {| Request_Header :=
                 (λ name, if decide (name = "X-Forwarded-For")
                          then "203.0.113.7, 10.0.0.1" else "");
               Request_RemoteAddr := "10.0.0.1:41000";
               Request_Query := ∅ |} _).
  simpl. discriminate.
Defined.

(** X13: [getRealIP] never fails (the index into the result of [Split] is
    in range), and the address it returns is empty exactly when
    [X-Forwarded-For] starts with a comma, or when none of the three
    headers is set and the remote address of the request is empty. *)
Theorem getRealIP_empty_iff r :
  is_Some (getRealIP r) ∧
  (getRealIP r = Some "" ↔
   (∃ rest, Request_Header r "X-Forwarded-For" = String ","%char rest) ∨
   (Request_Header r "X-Forwarded-For" = "" ∧
    Request_Header r "X-Real-IP" = "" ∧
    Request_Header r "CF-Connecting-IP" = "" ∧
    Request_RemoteAddr r = "")).
Proof.
  unfold getRealIP.
  destruct (decide (Request_Header r "X-Forwarded-For" ≠ "")) as [Hfwd|Hfwd].
  - destruct (Split_first_field ","%char (Request_Header r "X-Forwarded-For"))
      as (field & fields & rest & Hsplit & Hs & Hrest & Hfree).
    rewrite Hsplit. simpl. split; [done|]. split.
    + intros [= ->]. left. simpl in Hs.
      destruct Hrest as [->|[rest' ->]]; [done|eauto].
    + intros [[rest' Hh]|[Hh _]]; [|done]. rewrite Hh in Hs.
      destruct field as [|a field]; [done|]. simpl in Hs. injection Hs as <- _.
      destruct (Hfree "" field). done.
  - apply dec_stable in Hfwd. rewrite Hfwd.
    destruct (decide (Request_Header r "X-Real-IP" ≠ "")) as [Hreal|Hreal].
    { split; [done|]. split; [by intros [= ?]|]. intros [[? ?]|(_ & ? & _)]; done. }
    apply dec_stable in Hreal. rewrite Hreal.
    destruct (decide (Request_Header r "CF-Connecting-IP" ≠ "")) as [Hcf|Hcf].
    { split; [done|]. split; [by intros [= ?]|].
      intros [[? ?]|(_ & _ & ? & _)]; done. }
    apply dec_stable in Hcf. rewrite Hcf. split; [done|]. split.
    + intros [= ->]. by right.
    + intros [[? ?]|(_ & _ & _ & ->)]; done.
Qed.

(** X14: whatever the query and the [Referer] of the request, and however
    [Atoi] and [url.Parse] behave, the configuration [parseJSConfig] hands
    to the script template has a site key, a display element and a type
    that are not empty; a [siteId] parameter that is not empty is taken as
    the site key, as it stands. *)
Theorem parseJSConfig_never_empty Atoi url_Parse_Host r :
  JSConfig_SiteID (parseJSConfig Atoi url_Parse_Host r) ≠ "" ∧
  JSConfig_DisplayElementID (parseJSConfig Atoi url_Parse_Host r) ≠ "" ∧
  JSConfig_Type (parseJSConfig Atoi url_Parse_Host r) ≠ "" ∧
  (Values_Get (Request_Query r) "siteId" ≠ "" →
   JSConfig_SiteID (parseJSConfig Atoi url_Parse_Host r)
   = Values_Get (Request_Query r) "siteId").
Proof.
  assert (∀ key d, d ≠ "" → getParam (Request_Query r) key d ≠ "") as Hdef.
  { intros key d Hd. unfold getParam. by destruct (decide _). }
  unfold parseJSConfig.
  set (params := Request_Query r).
  set (config := {| JSConfig_SiteID := getParam params "siteId" "" |}).
  assert (JSConfig_DisplayElementID config ≠ "") as Hel by (by apply Hdef).
  assert (JSConfig_Type config ≠ "") as Hty by (by apply Hdef).
  assert (Values_Get params "siteId" ≠ "" →
          JSConfig_SiteID config = Values_Get params "siteId") as Hkey.
  { intros Hv. simpl. unfold getParam. by rewrite decide_True. }
  destruct (decide (JSConfig_SiteID config = "")) as [Hnone|Hsome]; [|done].
  assert (Values_Get params "siteId" = "") as Hq.
  { destruct (decide (Values_Get params "siteId" = "")) as [|Hv]; [done|].
    rewrite (Hkey Hv) in Hnone. done. }
  destruct (decide (Request_Header r "Referer" ≠ "")) as [Href|Href].
  - destruct (url_Parse_Host (Request_Header r "Referer")) as [host|].
    + destruct (decide (JSConfig_SiteID (with_SiteID config host) = ""));
        simpl; by rewrite ?Hq.
    + rewrite decide_True by done. simpl. by rewrite Hq.
  - rewrite decide_True by done. simpl. by rewrite Hq.
Qed.

Lemma ParseBool_false str :
  ParseBool str = Some false ↔
  str ∈ ["0"; "f"; "F"; "false"; "FALSE"; "False"].
Proof.
  unfold ParseBool.
  destruct (bool_decide (str ∈ ["1"; "t"; "T"; "true"; "TRUE"; "True"]))
    eqn:Htrue.
  - apply bool_decide_eq_true_1 in Htrue. split; [done|].
    intros Hfalse. set_solver.
  - destruct (bool_decide (str ∈ ["0"; "f"; "F"; "false"; "FALSE"; "False"]))
      eqn:Hfalse.
    + by apply bool_decide_eq_true_1 in Hfalse.
    + apply bool_decide_eq_false_1 in Hfalse. by split.
Qed.

(** X15: the [debug] flag of the configuration is on by default and is
    switched off only by a [debug] parameter that is one of the six
    spellings of false that [ParseBool] accepts; any other value, [no] or
    [off] among them, leaves it on. *)
Theorem parseJSConfig_debug_off_iff Atoi url_Parse_Host r :
  JSConfig_Debug (parseJSConfig Atoi url_Parse_Host r) = false ↔
  Values_Get (Request_Query r) "debug"
    ∈ ["0"; "f"; "F"; "false"; "FALSE"; "False"].
Proof.
  assert (JSConfig_Debug (parseJSConfig Atoi url_Parse_Host r)
          = getBoolParam (Request_Query r) "debug" true) as ->.
  { unfold parseJSConfig. repeat (destruct (decide _) || destruct (url_Parse_Host _));
      reflexivity. }
  rewrite <- ParseBool_false. unfold getBoolParam.
  destruct (decide (Values_Get (Request_Query r) "debug" ≠ "")) as [Hv|Hv].
  - destruct (ParseBool _) as [[|]|]; split; congruence.
  - apply dec_stable in Hv. rewrite Hv. by split.
Qed.

(** * A member leaves and others remain *)

(** X16: when a member of a registered site is detached and other members
    remain, all with an open queue, the detach completes: it closes the
    queue of the leaving client and queues nothing for it, lowers the
    count by one, and passes the update with the new count over every
    remaining member (queued where there is room, the member shed where
    the queue is full); the site stays registered and no other client is
    touched. *)
Theorem leave_notifies_remaining now c cl p site w :
  client_mem w !! c = Some cl →
  Client_site cl = Some p →
  site_mem w !! p = Some site →
  sites w !! Site_ID site = Some p →
  c ∈ Site_Connections site →
  Site_Connections site ∖ {[c]} ≠ ∅ →
  1 ≤ Site_Count site ≤ int_max →
  (∀ m, m ∈ Site_Connections site →
        ∃ clm, client_mem w !! m = Some clm ∧
               chan_closed (Client_send clm) = false) →
  ∃ w' conns',
    handleUnregister now c w = Ok w' ∧
    sites w' = sites w ∧
    received w' = received w ∧
    site_mem w' =
      <[p := {| Site_ID := Site_ID site; Site_Count := Site_Count site - 1;
                Site_Connections := conns' |}]> (site_mem w) ∧
    (∀ m, m ∈ conns' ↔
          m ∈ Site_Connections site ∧ m ≠ c ∧
          ¬ ∃ clm, client_mem w !! m = Some clm ∧
                   chan_full (Client_send clm) = true) ∧
    client_mem w' !! c =
      Some (with_send cl {| chan_buf := chan_buf (Client_send cl);
                            chan_closed := true |}) ∧
    (∀ m clm, m ∈ Site_Connections site → m ≠ c →
              client_mem w !! m = Some clm →
              client_mem w' !! m =
                Some (deliver (update_message (Site_ID site)
                                 (Site_Count site - 1) now) clm)) ∧
    (∀ m, m ∉ Site_Connections site → client_mem w' !! m = client_mem w !! m).
Proof.
  intros Hc Hp Hsite Hreg Hin Hrest Hcount Hopen.
  destruct (Hopen c Hin) as (cl0 & Hcl0 & Hcopen).
  assert (cl0 = cl) as -> by congruence.
  rewrite (handleUnregister_member _ _ _ _ _ _ Hc Hp Hsite Hin Hcopen).
  rewrite decide_False.
  2:{ intros Hz. apply size_empty_inv, leibniz_equiv in Hz. done. }
  assert ((if wrap_int (Site_Count site - 1) <? 0 then 0
           else wrap_int (Site_Count site - 1)) = Site_Count site - 1) as Hdec.
  { rewrite wrap_int_small by (unfold int_min, int_max in *; lia).
    destruct (Z.ltb_spec (Site_Count site - 1) 0); lia. }
  unfold detached. rewrite Hdec.
  set (site1 := {| Site_ID := Site_ID site; Site_Count := Site_Count site - 1;
                   Site_Connections := Site_Connections site ∖ {[c]} |}).
  set (closed := with_send cl {| chan_buf := chan_buf (Client_send cl);
                                 chan_closed := true |}).
  destruct (broadcastToSite_spec (Site_ID site) (Site_Count site - 1) now
              (set_client_mem (set_site_mem w (<[p := site1]> (site_mem w)))
                 (<[c := closed]> (client_mem w)))
              p site1)
    as (w' & conns' & Hrun & Hsites & Hrecv & Hmem & Hconns & Hout & Hdel).
  { done. }
  { apply lookup_insert_eq. }
  { intros m Hm. simpl in Hm. apply elem_of_difference in Hm as [Hm Hmc].
    destruct (Hopen m Hm) as (clm & ? & ?). exists clm. split; [|done].
    simpl. rewrite lookup_insert_ne; [done|]. set_solver. }
  exists w', conns'. split; [done|]. split; [done|]. split; [done|].
  split.
  { rewrite Hmem. simpl. by rewrite insert_insert_eq. }
  split.
  { intros m. rewrite Hconns. simpl. rewrite elem_of_difference.
    rewrite not_elem_of_singleton. split.
    - intros [[Hm Hmc] Hnf]. split; [done|]. split; [done|].
      intros (clm & Hclm & Hfull). apply Hnf. exists clm.
      by rewrite lookup_insert_ne.
    - intros (Hm & Hmc & Hnf). split; [done|].
      intros (clm & Hclm & Hfull). apply Hnf. exists clm.
      by rewrite lookup_insert_ne in Hclm. }
  split.
  { rewrite Hout by (simpl; set_solver). simpl. apply lookup_insert_eq. }
  split.
  { intros m clm Hm Hmc Hclm. apply Hdel; [simpl; set_solver|].
    simpl. by rewrite lookup_insert_ne. }
  intros m Hm. rewrite Hout by (simpl; set_solver). simpl.
  rewrite lookup_insert_ne; [done|]. intros ->. done.
Qed.

Lemma leave_notifies_remaining_witness :
  ∃ w' conns',
    handleUnregister 7 2 slow_member_state = Ok w' ∧
    sites w' = sites slow_member_state ∧
    received w' = received slow_member_state ∧
    site_mem w' =
      <[1%positive := {| Site_ID := "blog"; Site_Count := 2 - 1;
                         Site_Connections := conns' |}]>
        (site_mem slow_member_state) ∧
    (∀ m, m ∈ conns' ↔
          m ∈ Site_Connections slow_member_site ∧ m ≠ 2%positive ∧
          ¬ ∃ clm, client_mem slow_member_state !! m = Some clm ∧
                   chan_full (Client_send clm) = true) ∧
    client_mem w' !! 2%positive =
      Some (with_send (example_client (Some 1%positive) 0)
              {| chan_buf := []; chan_closed := true |}) ∧
    (∀ m clm, m ∈ Site_Connections slow_member_site → m ≠ 2%positive →
              client_mem slow_member_state !! m = Some clm →
              client_mem w' !! m =
                Some (deliver (update_message "blog" (2 - 1) 7) clm)) ∧
    (∀ m, m ∉ Site_Connections slow_member_site →
          client_mem w' !! m = client_mem slow_member_state !! m).
Proof.
  refine (leave_notifies_remaining 7 2%positive
            (example_client (Some 1%positive) 0) 1%positive slow_member_site
            slow_member_state _ _ _ _ _ _ _ _).
  - reflexivity.
  - reflexivity.
  - reflexivity.
  - reflexivity.
  - simpl. set_solver.
  - simpl. intros Hempty.
    assert (1%positive ∈ ({[1%positive; 2%positive]} ∖ {[2%positive]}
                          : gset positive)) as Hone by set_solver.
    rewrite Hempty in Hone. set_solver.
  - unfold int_max. simpl. lia.
  - intros m Hm. simpl in Hm.
    apply elem_of_union in Hm as [Hm|Hm]; apply elem_of_singleton in Hm;
      subst m; eexists; (split; [reflexivity|reflexivity]).
Defined.

(** * A client without a site joins *)



(** * The order of the pass, on an example *)

Lemma broadcast_loop_perm_witness :
  broadcast_loop (update_message "blog" 2 0) [1%positive; 2%positive]
    {[1%positive; 2%positive]} (client_mem slow_member_state)
  = broadcast_loop (update_message "blog" 2 0) [2%positive; 1%positive]
      {[1%positive; 2%positive]} (client_mem slow_member_state).
Proof.
  refine (broadcast_loop_perm (update_message "blog" 2 0)
            [1%positive; 2%positive] [2%positive; 1%positive] _
            {[1%positive; 2%positive]} (client_mem slow_member_state) _).
  - apply perm_swap.
  - intros c Hc. apply elem_of_cons in Hc as [->|Hc]; [by eexists|].
    apply list_elem_of_singleton in Hc as ->. by eexists.
Defined.

(** * Trimmed keys *)

(** Whether a byte sequence starts with a white-space rune is decided by
    its first bytes. *)
Lemma leading_space_app l l' :
  leading_space l ≠ 0%nat → leading_space (l ++ l') = leading_space l.
Proof.
  destruct l as [|a [|b [|c l]]]; simpl;
    repeat match goal with
           | |- context [match ?x with _ => _ end] => is_var x; destruct x
           end; try done.
Qed.

Lemma trim_with_drop width fuel :
  ∀ l, ∃ n, trim_with width fuel l = drop n l.
Proof.
  induction fuel as [|fuel IH]; intros l; simpl; [by exists 0%nat|].
  destruct (width l) as [|k]; [by exists 0%nat|].
  destruct (IH (drop (S k) l)) as [n ->]. exists (S k + n)%nat.
  by rewrite drop_drop.
Qed.

Lemma trim_with_done width fuel :
  width [] = 0%nat →
  ∀ l, (length l ≤ fuel)%nat → width (trim_with width fuel l) = 0%nat.
Proof.
  intros Hnil. induction fuel as [|fuel IH]; intros l Hlen; simpl.
  - destruct l; [done|simpl in Hlen; lia].
  - destruct (width l) as [|k] eqn:Hw; [done|]. apply IH.
    destruct l as [|x l]; [congruence|]. simpl in *.
    rewrite length_drop. lia.
Qed.

Lemma trim_with_none width fuel l :
  width l = 0%nat → trim_with width fuel l = l.
Proof. intros Hw. destruct fuel; simpl; [done|]. by rewrite Hw. Qed.

Lemma string_of_bytes_of_string s : string_of_bytes (bytes_of_string s) = s.
Proof.
  unfold string_of_bytes, bytes_of_string.
  induction s as [|a s IH]; [done|].
  change (String (Ascii.ascii_of_N (Ascii.N_of_ascii a))
            (String.string_of_list_ascii
               (Ascii.ascii_of_N <$>
                  (Ascii.N_of_ascii <$> String.list_ascii_of_string s)))
          = String a s).
  by rewrite Ascii.ascii_N_embedding, IH.
Qed.

Lemma bytes_of_string_bounded s : Forall (λ b, (b < 256)%N) (bytes_of_string s).
Proof.
  unfold bytes_of_string. apply Forall_fmap, Forall_forall.
  intros a _. simpl. apply Ascii.N_ascii_bounded.
Qed.

Lemma bytes_of_string_of_bytes l :
  Forall (λ b, (b < 256)%N) l → bytes_of_string (string_of_bytes l) = l.
Proof.
  intros Hl. unfold string_of_bytes, bytes_of_string.
  rewrite String.list_ascii_of_string_of_list_ascii.
  induction Hl as [|b l Hb Hl IH]; [done|].
  rewrite !fmap_cons, IH. by rewrite Ascii.N_ascii_embedding.
Qed.

(** The bytes of a trimmed string start and end with no white-space
    rune. *)
Lemma TrimSpace_bytes s :
  leading_space (bytes_of_string (TrimSpace s)) = 0%nat ∧
  trailing_space (reverse (bytes_of_string (TrimSpace s))) = 0%nat.
Proof.
  unfold TrimSpace.
  set (b := bytes_of_string s).
  set (b1 := trim_with leading_space (length b) b).
  set (b2 := trim_with trailing_space (length b1) (reverse b1)).
  assert (leading_space b1 = 0%nat) as Hlead by (by apply trim_with_done).
  assert (trailing_space b2 = 0%nat) as Htrail.
  { apply trim_with_done; [done|]. by rewrite length_reverse. }
  destruct (trim_with_drop leading_space (length b) b) as [n1 Hb1].
  destruct (trim_with_drop trailing_space (length b1) (reverse b1)) as [n2 Hb2].
  fold b1 in Hb1. fold b2 in Hb2.
  assert (Forall (λ x, (x < 256)%N) b1) as Hbound1.
  { rewrite Hb1. apply Forall_drop, bytes_of_string_bounded. }
  assert (reverse b2 = take (length b1 - n2) b1) as Hpre.
  { rewrite Hb2, drop_reverse. by rewrite reverse_involutive. }
  rewrite bytes_of_string_of_bytes.
  2:{ rewrite Hpre. by apply Forall_take. }
  split; [|by rewrite reverse_involutive].
  rewrite Hpre.
  destruct (decide (leading_space (take (length b1 - n2) b1) = 0%nat))
    as [|Hne]; [done|].
  pose proof (leading_space_app _ (drop (length b1 - n2) b1) Hne) as Happ.
  rewrite take_drop in Happ. congruence.
Qed.

(** A string that starts and ends with no white-space rune is left as it
    is. *)
Lemma TrimSpace_none s :
  leading_space (bytes_of_string s) = 0%nat →
  trailing_space (reverse (bytes_of_string s)) = 0%nat →
  TrimSpace s = s.
Proof.
  intros Hlead Htrail. unfold TrimSpace.
  rewrite (trim_with_none leading_space) by done.
  rewrite (trim_with_none trailing_space) by done.
  rewrite reverse_involutive. apply string_of_bytes_of_string.
Qed.

Lemma TrimSpace_idemp s : TrimSpace (TrimSpace s) = TrimSpace s.
Proof. destruct (TrimSpace_bytes s). by apply TrimSpace_none. Qed.

(** The keys the operations of the hub leave in the registry. *)
Lemma getSite_keys siteID w k p :
  sites (getSite siteID w).2 !! k = Some p →
  k = siteID ∨ sites w !! k = Some p.
Proof.
  unfold getSite. destruct (sites w !! siteID) as [q|] eqn:Hreg; simpl.
  - by right.
  - destruct (decide (k = siteID)) as [->|Hne]; [by left|].
    rewrite lookup_insert_ne by done. by right.
Qed.

Lemma handleUnregister_keys now c w w' k p :
  handleUnregister now c w = Ok w' →
  sites w' !! k = Some p → sites w !! k = Some p.
Proof.
  unfold handleUnregister. intros Hrun.
  apply bind_Ok_inv in Hrun as (cl & _ & Hrun).
  destruct (Client_site cl) as [q|]; [|by injection Hrun as <-].
  apply bind_Ok_inv in Hrun as (site & _ & Hrun).
  destruct (decide (c ∈ Site_Connections site)); [|by injection Hrun as <-].
  apply bind_Ok_inv in Hrun as (ch & _ & Hrun).
  destruct (decide _) as [_|_].
  - injection Hrun as <-. simpl. intros Hk.
    by apply lookup_delete_Some in Hk as [_ Hk].
  - destruct (broadcastToSite_frame _ _ _ _ _ Hrun) as (-> & _). done.
Qed.

Lemma handleRegister_keys now c w w' :
  handleRegister now c w = Ok w' → sites w' = sites w.
Proof.
  unfold handleRegister. intros Hrun.
  apply bind_Ok_inv in Hrun as (cl & _ & Hrun).
  destruct (Client_site cl) as [q|]; [|by injection Hrun as <-].
  apply bind_Ok_inv in Hrun as (site & _ & Hrun).
  by destruct (broadcastToSite_frame _ _ _ _ _ Hrun) as (-> & _).
Qed.

(** * Sequential runs in which no queue fills up *)

Lemma no_backlog_spec w :
  no_backlog w = true ↔
  ∀ c cl, client_mem w !! c = Some cl → chan_full (Client_send cl) = false.
Proof. unfold no_backlog. by rewrite bool_decide_eq_true. Qed.

(** A pass that finds no full queue sheds nobody. *)
Lemma broadcast_loop_no_shed message l :
  ∀ conns clients conns' clients',
  NoDup l →
  (∀ c cl, c ∈ l → clients !! c = Some cl →
           chan_full (Client_send cl) = false) →
  broadcast_loop message l conns clients = Ok (conns', clients') →
  conns' = conns.
Proof.
  induction l as [|c l IH]; intros conns clients conns' clients' Hnd Hroom Hrun.
  - simpl in Hrun. by injection Hrun as <- _.
  - apply NoDup_cons in Hnd as [Hcl Hnd]. simpl in Hrun.
    apply bind_Ok_inv in Hrun as (cl & Hc & Hrun). apply deref_Ok_inv in Hc.
    unfold try_send in Hrun.
    destruct (chan_closed (Client_send cl)); [discriminate|].
    rewrite (Hroom c cl) in Hrun by (done || left).
    apply IH in Hrun; [done|done|].
    intros x clx Hx Hclx. rewrite lookup_insert_ne in Hclx by (by intros ->).
    apply (Hroom x clx); [by right|done].
Qed.

Lemma broadcastToSite_no_shed siteID count now w w' :
  (∀ c cl, client_mem w !! c = Some cl → chan_full (Client_send cl) = false) →
  broadcastToSite siteID count now w = Ok w' →
  sites w' = sites w ∧ site_mem w' = site_mem w.
Proof.
  intros Hroom. unfold broadcastToSite.
  destruct (sites w !! siteID) as [p|]; [|by intros [= <-]].
  intros Hrun. apply bind_Ok_inv in Hrun as (site & Hsite & Hrun).
  apply deref_Ok_inv in Hsite.
  apply bind_Ok_inv in Hrun as ([conns clients] & Hloop & Hrun).
  injection Hrun as <-. simpl. split; [done|].
  apply broadcast_loop_no_shed in Hloop as ->;
    [|apply NoDup_elements|intros c cl _; apply Hroom].
  apply insert_id. rewrite Hsite. by destruct site.
Qed.

Lemma tidy_ext w w' :
  sites w' = sites w → site_mem w' = site_mem w → tidy w → tidy w'.
Proof.
  intros Hs Hm [Hcount Hreg Hmem]. split.
  - intros p s. rewrite Hm. apply Hcount.
  - intros k p. rewrite Hs, Hm. apply Hreg.
  - intros p s. rewrite Hs, Hm. apply Hmem.
Qed.

Lemma tidy_NewHub : tidy NewHub.
Proof.
  split; simpl; intros ? ?; rewrite lookup_empty; done.
Qed.

Lemma handleUnregister_tidy now c w w' :
  hub_inv w → tidy w →
  (∀ p s, site_mem w !! p = Some s → Site_Count s < int_max) →
  (∀ x cl, client_mem w !! x = Some cl → chan_full (Client_send cl) = false) →
  handleUnregister now c w = Ok w' →
  tidy w'.
Proof.
  intros Hinv Ht Hmax Hroom Hrun.
  destruct (client_mem w !! c) as [cl|] eqn:Hc.
  2:{ unfold handleUnregister, deref in Hrun. rewrite Hc in Hrun. discriminate. }
  destruct (Client_site cl) as [p|] eqn:Hp.
  2:{ rewrite (handleUnregister_noop now c cl w Hc) in Hrun by auto.
      by injection Hrun as <-. }
  destruct (inv_site w Hinv c cl p Hc Hp) as [site Hsite].
  destruct (decide (c ∈ Site_Connections site)) as [Hin|Hnotin].
  2:{ rewrite (handleUnregister_noop now c cl w Hc) in Hrun by (right; eauto).
      by injection Hrun as <-. }
  destruct (inv_member w Hinv p site c Hsite Hin) as (cl0 & Hcl0 & _ & Hopen).
  assert (cl0 = cl) as -> by congruence.
  rewrite (handleUnregister_member _ _ _ _ _ _ Hc Hp Hsite Hin Hopen) in Hrun.
  destruct Ht as [Hcount Hreg Hmem].
  destruct (Hcount p site Hsite) as [Hcnt Hpos].
  pose proof (Hmax p site Hsite) as Hlt.
  assert (size (Site_Connections site ∖ {[c]})
          = (size (Site_Connections site) - 1)%nat) as Hsize.
  { rewrite size_difference by set_solver. by rewrite size_singleton. }
  assert (size (Site_Connections site) ≠ 0%nat) as Hne.
  { intros Hz. apply size_empty_inv in Hz. set_solver. }
  assert ((if wrap_int (Site_Count site - 1) <? 0 then 0
           else wrap_int (Site_Count site - 1)) = Site_Count site - 1) as Hdec.
  { rewrite wrap_int_small by (unfold int_min, int_max in *; lia).
    destruct (Z.ltb_spec (Site_Count site - 1) 0); lia. }
  unfold detached in Hrun. rewrite Hdec in Hrun.
  set (site1 := {| Site_ID := Site_ID site; Site_Count := Site_Count site - 1;
                   Site_Connections := Site_Connections site ∖ {[c]} |}) in Hrun.
  assert (count_matches site1) as Hcm1.
  { unfold count_matches. simpl. rewrite Hsize. lia. }
  assert (sites w !! Site_ID site = Some p) as Hself.
  { apply Hmem; [done|]. set_solver. }
  pose proof (inv_registry w Hinv) as Hwf.
  assert (∀ q s, <[p := site1]> (site_mem w) !! q = Some s → count_matches s)
    as Hcount1.
  { intros q s Hq. destruct (decide (q = p)) as [->|Hqp].
    - rewrite lookup_insert_eq in Hq. by injection Hq as <-.
    - rewrite lookup_insert_ne in Hq by done. by apply (Hcount q). }
  destruct (decide (size (Site_Connections site ∖ {[c]}) = 0%nat)) as [Hz|Hnz].
  - injection Hrun as <-. apply size_empty_inv, leibniz_equiv in Hz.
    split; simpl.
    + exact Hcount1.
    + intros k q Hk. apply lookup_delete_Some in Hk as [Hkne Hk].
      destruct (Hreg k q Hk) as (s & Hs & Hsne).
      destruct (decide (q = p)) as [->|Hqp].
      * destruct (Hwf k p Hk) as (s' & Hs' & Hid).
        assert (s' = site) as -> by congruence. done.
      * exists s. by rewrite lookup_insert_ne.
    + intros q s Hq Hsne. destruct (decide (q = p)) as [->|Hqp].
      * rewrite lookup_insert_eq in Hq. injection Hq as <-. done.
      * rewrite lookup_insert_ne in Hq by done.
        pose proof (Hmem q s Hq Hsne) as Hk.
        rewrite lookup_delete_ne; [done|]. intros Heq. rewrite Heq in Hself.
        congruence.
  - apply broadcastToSite_no_shed in Hrun as [Hs' Hm'].
    2:{ intros x clx Hx. simpl in Hx. destruct (decide (x = c)) as [->|Hxc].
        - rewrite lookup_insert_eq in Hx. injection Hx as <-.
          apply (Hroom c cl Hc).
        - rewrite lookup_insert_ne in Hx by done. eauto. }
    simpl in Hs', Hm'. split.
    + intros q s. rewrite Hm'. apply Hcount1.
    + intros k q. rewrite Hs', Hm'. intros Hk.
      destruct (decide (q = p)) as [->|Hqp].
      * exists site1. rewrite lookup_insert_eq. split; [done|]. simpl.
        intros Hempty. apply Hnz. rewrite Hempty. apply size_empty.
      * destruct (Hreg k q Hk) as (s & Hs & Hsne). exists s.
        by rewrite lookup_insert_ne.
    + intros q s. rewrite Hs', Hm'. intros Hq Hsne.
      destruct (decide (q = p)) as [->|Hqp].
      * rewrite lookup_insert_eq in Hq. by injection Hq as <-.
      * rewrite lookup_insert_ne in Hq by done. by apply Hmem.
Qed.

Lemma readPump_step_tidy t1 t2 c inp w ctl w' :
  hub_inv w → tidy w →
  (∀ p s, site_mem w !! p = Some s → Site_Count s < int_max) →
  (∀ x cl, client_mem w !! x = Some cl → chan_full (Client_send cl) = false) →
  readPump_step HubFirst t1 t2 c inp w = Ok (ctl, w') →
  tidy w'.
Proof.
  intros Hinv Ht Hmax Hroom Hrun. destruct inp as [| |msg].
  - rewrite readPump_step_hub_first in Hrun.
    change (Run_step t1 (Unregister c) w)
      with (handleUnregister t1 c (receive (Unregister c) w)) in Hrun.
    apply bind_Ok_inv in Hrun as (w1 & Hun & Hrun).
    apply bind_Ok_inv in Hrun as (w2 & Hclose & Hrun). injection Hrun as _ <-.
    unfold conn_Close in Hclose.
    apply bind_Ok_inv in Hclose as (cl1 & _ & Hclose). injection Hclose as <-.
    apply (tidy_ext w1); [done|done|].
    apply (handleUnregister_tidy t1 c (receive (Unregister c) w));
      [by apply hub_inv_receive|by apply (tidy_ext w)|done|done|done].
  - by injection Hrun as _ <-.
  - destruct (decide (Message_Type msg = "join" ∧ Message_SiteID msg ≠ ""))
      as [[Hty Hid]|Hnj].
    2:{ rewrite readPump_step_not_join in Hrun by done. by injection Hrun as _ <-. }
    destruct (client_mem w !! c) as [cl|] eqn:Hc.
    2:{ rewrite readPump_step_join in Hrun by done.
        unfold holds_other_site, deref in Hrun. rewrite Hc in Hrun. discriminate. }
    destruct (Client_site cl) as [p0|] eqn:Hp.
    { destruct (inv_site w Hinv c cl p0 Hc Hp) as [site0 Hsite0].
      destruct (decide (Site_ID site0 = TrimSpace (Message_SiteID msg)))
        as [Hsame|Hother].
      - rewrite (readPump_join_same _ _ _ _ _ _ _ _ Hc Hp Hsite0 Hty Hid Hsame)
          in Hrun. by injection Hrun as _ <-.
      - destruct (readPump_switch_panics t1 t2 c (Decoded msg) w Hinv)
          as (e & He); [by exists msg, cl, p0, site0|congruence]. }
    rewrite readPump_step_join in Hrun by done.
    set (k := TrimSpace (Message_SiteID msg)) in *.
    unfold holds_other_site, needs_site in Hrun.
    rewrite (deref_Some _ _ _ Hc), !bind_Ok, Hp, !bind_Ok in Hrun.
    rewrite (deref_Some _ _ _ Hc), !bind_Ok, Hp, !bind_Ok in Hrun.
    unfold resolve_site in Hrun. destruct (getSite k w) as [p w2] eqn:Hget.
    pose proof (hub_inv_getSite k w p w2 Hinv Hget) as Hinv2.
    destruct (getSite_registers k w p w2 Hget (inv_registry w Hinv))
      as (Hwf2 & Hreg2 & Hcm2 & _ & _).
    assert (client_mem w2 !! c = Some cl) as Hc2 by (by rewrite Hcm2).
    rewrite (deref_Some _ _ _ Hc2), !bind_Ok in Hrun.
    destruct (Hwf2 k p Hreg2) as (site & Hsite & Hsid).
    (* the facts of [tidy] that hold after [getSite] *)
    destruct Ht as [Hcount Hreg Hmem].
    assert ((∀ q s, site_mem w2 !! q = Some s →
                    count_matches s ∧ Site_Count s < int_max) ∧
            (∀ k' q, sites w2 !! k' = Some q → k' ≠ k →
                     ∃ s, site_mem w2 !! q = Some s ∧ Site_Connections s ≠ ∅) ∧
            (∀ q s, site_mem w2 !! q = Some s → Site_Connections s ≠ ∅ →
                    sites w2 !! Site_ID s = Some q))
      as (Hcount2 & Hreg2' & Hmem2).
    { destruct (getSite_cases k w p w2 Hget) as [[Hk ->]|(Hk & Hfresh & ->)].
      - split; [|split]; [by eauto|by eauto|done].
      - simpl. assert (site_mem w !! p = None) as Hpnone.
        { rewrite Hfresh. apply getSite_fresh. }
        split; [|split].
        + intros q s Hq. destruct (decide (q = p)) as [->|Hqp].
          * rewrite lookup_insert_eq in Hq. injection Hq as <-.
            unfold count_matches, int_max, Site_Connections, Site_Count.
            rewrite size_empty. lia.
          * rewrite lookup_insert_ne in Hq by done. eauto.
        + intros k' q Hk' Hne. rewrite lookup_insert_ne in Hk' by done.
          destruct (Hreg k' q Hk') as (s & Hs & Hsne). exists s.
          rewrite lookup_insert_ne; [done|]. intros ->. congruence.
        + intros q s Hq Hsne. destruct (decide (q = p)) as [->|Hqp].
          * rewrite lookup_insert_eq in Hq. injection Hq as <-. done.
          * rewrite lookup_insert_ne in Hq by done.
            pose proof (Hmem q s Hq Hsne) as Hks.
            rewrite lookup_insert_ne; [done|]. intros Heq.
            rewrite <- Heq in Hks. congruence. }
    destruct (Hcount2 p site Hsite) as [[Hcnt Hpos] Hlt].
    assert (c ∉ Site_Connections site) as Hnew.
    { intros Hin.
      destruct (inv_member w2 Hinv2 p site c Hsite Hin) as (cl0 & Hcl0 & Hp0 & _).
      congruence. }
    set (w3 := set_client_mem w2 (<[c := with_site cl (Some p)]> (client_mem w2)))
      in Hrun.
    change (Run_step t2 (Register c) w3)
      with (handleRegister t2 c (receive (Register c) w3)) in Hrun.
    rewrite (handleRegister_attached t2 c (with_site cl (Some p)) p site
               (receive (Register c) w3)) in Hrun;
      [|apply lookup_insert_eq|done|done|unfold int_min; lia].
    apply bind_Ok_inv in Hrun as (w4 & Hrun & Hret). injection Hret as _ <-.
    apply broadcastToSite_no_shed in Hrun as [Hs' Hm'].
    2:{ intros x clx Hx. simpl in Hx. destruct (decide (x = c)) as [->|Hxc].
        - rewrite lookup_insert_eq in Hx. injection Hx as <-.
          apply (Hroom c cl Hc).
        - rewrite lookup_insert_ne, Hcm2 in Hx by done. eauto. }
    simpl in Hs', Hm'. split.
    + intros q s. rewrite Hm'. intros Hq. destruct (decide (q = p)) as [->|Hqp].
      * rewrite lookup_insert_eq in Hq. injection Hq as <-.
        unfold count_matches, attached. simpl.
        rewrite size_union, size_singleton by set_solver. lia.
      * rewrite lookup_insert_ne in Hq by done. by apply (Hcount2 q s).
    + intros k' q. rewrite Hs', Hm'. intros Hk'.
      destruct (decide (q = p)) as [->|Hqp].
      * exists (attached c site). rewrite lookup_insert_eq. split; [done|].
        simpl. set_solver.
      * destruct (Hreg2' k' q Hk') as (s & Hs & Hsne); [congruence|].
        exists s. by rewrite lookup_insert_ne.
    + intros q s. rewrite Hs', Hm'. intros Hq Hsne.
      destruct (decide (q = p)) as [->|Hqp].
      * rewrite lookup_insert_eq in Hq. injection Hq as <-. simpl.
        by rewrite Hsid.
      * rewrite lookup_insert_ne in Hq by done. by apply Hmem2.
Qed.

Lemma run_event_tidy now e w w' :
  hub_inv w → tidy w →
  (∀ p s, site_mem w !! p = Some s → Site_Count s < int_max) →
  no_backlog w = true →
  run_event now e w = Ok w' →
  tidy w'.
Proof.
  intros Hinv Ht Hmax Hnb Hev.
  pose proof (proj1 (no_backlog_spec w) Hnb) as Hroom.
  destruct e as [clientIP|c inp|c]; simpl in Hev.
  - injection Hev as <-. by apply (tidy_ext w).
  - apply bind_Ok_inv in Hev as ([ctl w2] & Hstep & Hev). injection Hev as <-.
    by apply (readPump_step_tidy now now c inp w ctl w2).
  - apply bind_Ok_inv in Hev as (r & Hrecv & Hev). injection Hev as <-.
    unfold writePump_recv in Hrecv.
    apply bind_Ok_inv in Hrecv as (cl & _ & Hrecv).
    destruct (chan_buf (Client_send cl)).
    + destruct (chan_closed (Client_send cl)).
      * apply bind_Ok_inv in Hrecv as (w2 & Hclose & Hrecv).
        injection Hrecv as <-. unfold conn_Close in Hclose.
        apply bind_Ok_inv in Hclose as (cl2 & _ & Hclose).
        injection Hclose as <-. by apply (tidy_ext w).
      * by injection Hrecv as <-.
    + injection Hrecv as <-. by apply (tidy_ext w).
Qed.

Lemma run_events_tidy es :
  ∀ w w',
  hub_inv w → counts_inv w → tidy w →
  calm es w = true →
  run_events es w = Ok w' →
  Z.of_nat (length (received w')) < int_max →
  tidy w'.
Proof.
  induction es as [|[now e] es IH]; intros w w' Hinv Hcounts Ht Hcalm Hrun Hmax;
    simpl in Hcalm, Hrun.
  - by injection Hrun as <-.
  - apply andb_true_iff in Hcalm as [Hnb Hcalm].
    apply bind_Ok_inv in Hrun as (w1 & Hev & Hrun). rewrite Hev in Hcalm.
    destruct (run_event_inv now e w w1 Hinv Hev) as (Hinv1 & Hlen1 & Hcnt1).
    destruct (run_events_inv es w1 w' Hinv1 Hrun) as (_ & Hlen' & _).
    destruct (Hcnt1 Hcounts) as [Hcounts1 _]; [lia|].
    apply (IH w1 w'); try done.
    apply (run_event_tidy now e w w1); try done.
    intros p s Hs. destruct (Hcounts p s Hs). lia.
Qed.

(** X21: along a sequential run from the new hub (every event is over,
    the commands of a reader's turn handled, before the next event begins;
    a run that completes contains no switch of site) in which no [send]
    queue is full when an event starts and the hub receives fewer commands
    than the largest int, the count of every site is the number of its
    members, and a key is registered exactly when a site with this [ID]
    has members. *)
Theorem calm_run_counts_members es w :
  calm es NewHub = true →
  run_events es NewHub = Ok w →
  Z.of_nat (length (received w)) < int_max →
  (∀ p s, site_mem w !! p = Some s →
          Site_Count s = Z.of_nat (size (Site_Connections s))) ∧
  (∀ k, is_Some (sites w !! k) ↔
        ∃ p s, site_mem w !! p = Some s ∧ Site_ID s = k ∧
               Site_Connections s ≠ ∅).
Proof.
  intros Hcalm Hrun Hmax.
  destruct (run_events_tidy es NewHub w hub_inv_NewHub counts_inv_NewHub
              tidy_NewHub Hcalm Hrun Hmax) as [Hcount Hreg Hmem].
  destruct (run_events_inv es NewHub w hub_inv_NewHub Hrun) as (Hinv & _).
  split.
  - intros p s Hs. by destruct (Hcount p s Hs).
  - intros k. split.
    + intros [p Hk]. destruct (Hreg k p Hk) as (s & Hs & Hne).
      destruct (inv_registry w Hinv k p Hk) as (s' & Hs' & Hid).
      assert (s' = s) as -> by congruence. by exists p, s.
    + intros (p & s & Hs & <- & Hne). exists p. by apply Hmem.
Qed.

Lemma calm_run_counts_members_witness :
  ∃ w, run_events three_join NewHub = Ok w ∧
       (∀ p s, site_mem w !! p = Some s →
               Site_Count s = Z.of_nat (size (Site_Connections s))) ∧
       (∀ k, is_Some (sites w !! k) ↔
             ∃ p s, site_mem w !! p = Some s ∧ Site_ID s = k ∧
                    Site_Connections s ≠ ∅).
Proof.
  eexists. split; [vm_compute; reflexivity|].
  apply (calm_run_counts_members three_join).
  - vm_compute. reflexivity.
  - vm_compute. reflexivity.
  - vm_compute. reflexivity.
Defined.
(** * The server step by step *)

(** ** What the handlers keep, whenever they complete *)

Lemma broadcastToSite_shrinks siteID count now w w' :
  broadcastToSite siteID count now w = Ok w' → sites_shrink w w'.
Proof.
  unfold broadcastToSite. destruct (sites w !! siteID) as [p|].
  2:{ intros [= <-]. apply sites_shrink_refl. }
  intros Hrun. apply bind_Ok_inv in Hrun as (site & Hsite & Hrun).
  apply deref_Ok_inv in Hsite.
  apply bind_Ok_inv in Hrun as ([conns clients] & Hloop & Hrun).
  injection Hrun as <-.
  destruct (broadcast_loop_frame _ _ _ _ _ _ Hloop) as (Hsub & _).
  intros q. simpl. destruct (decide (q = p)) as [->|Hne].
  - rewrite lookup_insert_eq, Hsite. by constructor.
  - rewrite lookup_insert_ne by done.
    destruct (site_mem w !! q); by constructor.
Qed.

Lemma handleUnregister_counts now c w w' n :
  handleUnregister now c w = Ok w' →
  counts_le n w → n ≤ int_max →
  counts_le n w' ∧ (queues_ok w → queues_ok w').
Proof.
  unfold handleUnregister. intros Hrun Hn Hmax.
  apply bind_Ok_inv in Hrun as (cl & Hc & Hrun). apply deref_Ok_inv in Hc.
  destruct (Client_site cl) as [p|] eqn:Hp; [|by injection Hrun as <-].
  apply bind_Ok_inv in Hrun as (site & Hsite & Hrun). apply deref_Ok_inv in Hsite.
  destruct (decide (c ∈ Site_Connections site)) as [Hin|Hnotin];
    [|by injection Hrun as <-].
  apply bind_Ok_inv in Hrun as (ch & Hch & Hrun).
  assert (chan_buf ch = chan_buf (Client_send cl)) as Hbuf.
  { unfold close_chan in Hch. destruct (chan_closed (Client_send cl)); [done|].
    by injection Hch as <-. }
  destruct (Hn p site Hsite) as [Hlo Hhi].
  assert (size (Site_Connections site ∖ {[c]})
          = (size (Site_Connections site) - 1)%nat) as Hsize.
  { rewrite size_difference by set_solver. by rewrite size_singleton. }
  assert (size (Site_Connections site) ≠ 0%nat) as Hne.
  { intros Hz. apply size_empty_inv in Hz. set_solver. }
  assert ((if wrap_int (Site_Count site - 1) <? 0 then 0
           else wrap_int (Site_Count site - 1)) = Site_Count site - 1) as Hdec.
  { rewrite wrap_int_small by (unfold int_min, int_max in *; lia).
    destruct (Z.ltb_spec (Site_Count site - 1) 0); lia. }
  rewrite Hdec in Hrun.
  set (w1 := set_client_mem
               (set_site_mem w
                  (<[p := {| Site_ID := Site_ID site;
                             Site_Count := Site_Count site - 1;
                             Site_Connections := Site_Connections site ∖ {[c]} |}]>
                     (site_mem w)))
               (<[c := with_send cl ch]> (client_mem w))) in Hrun.
  assert (counts_le n w1) as Hn1.
  { intros q s Hq. simpl in Hq. destruct (decide (q = p)) as [->|Hqp].
    - rewrite lookup_insert_eq in Hq. injection Hq as <-. simpl.
      rewrite Hsize. lia.
    - rewrite lookup_insert_ne in Hq by done. by apply (Hn q s). }
  assert (queues_ok w → queues_ok w1) as Hq1.
  { intros Hq x clx m Hx. simpl in Hx. destruct (decide (x = c)) as [->|Hxc].
    - rewrite lookup_insert_eq in Hx. injection Hx as <-. simpl. rewrite Hbuf.
      by apply (Hq c cl m).
    - rewrite lookup_insert_ne in Hx by done. by apply (Hq x clx m). }
  destruct (decide (size (Site_Connections site ∖ {[c]}) = 0%nat)) as [Hz|Hnz].
  - injection Hrun as <-. split; [exact Hn1|]. intros Hq. by apply Hq1.
  - split.
    + apply (counts_le_shrink n w1 w'); [|done].
      by apply (broadcastToSite_shrinks _ _ _ _ _ Hrun).
    + intros Hq. assert (1 ≤ Site_Count site - 1) as Hone by lia.
      apply (broadcastToSite_queues _ _ _ _ _ Hone Hrun). by apply Hq1.
Qed.

Lemma handleRegister_counts now c w w' n :
  handleRegister now c w = Ok w' →
  counts_le n w → 0 ≤ n < int_max →
  counts_le (n + 1) w' ∧ (queues_ok w → queues_ok w').
Proof.
  unfold handleRegister. intros Hrun Hn Hmax.
  apply bind_Ok_inv in Hrun as (cl & Hc & Hrun).
  destruct (Client_site cl) as [p|] eqn:Hp.
  2:{ injection Hrun as <-. split; [|done].
      apply (counts_le_mono n); [lia|done]. }
  apply bind_Ok_inv in Hrun as (site & Hsite & Hrun). apply deref_Ok_inv in Hsite.
  simpl in Hrun. destruct (Hn p site Hsite) as [Hlo Hhi].
  rewrite wrap_int_small in Hrun by (unfold int_min, int_max in *; lia).
  split.
  - apply (counts_le_shrink (n + 1) _ w' (broadcastToSite_shrinks _ _ _ _ _ Hrun)).
    intros q s Hq. simpl in Hq. destruct (decide (q = p)) as [->|Hqp].
    + rewrite lookup_insert_eq in Hq. injection Hq as <-. simpl.
      assert (size ({[c]} ∪ Site_Connections site)
              ≤ 1 + size (Site_Connections site))%nat.
      { rewrite size_union_alt, size_singleton.
        assert (size (Site_Connections site ∖ {[c]})
                ≤ size (Site_Connections site))%nat
          by (apply subseteq_size; set_solver).
        lia. }
      lia.
    + rewrite lookup_insert_ne in Hq by done.
      destruct (Hn q s Hq). lia.
  - intros Hq. assert (1 ≤ Site_Count site + 1) as Hone by lia.
    by apply (broadcastToSite_queues _ _ _ _ _ Hone Hrun).
Qed.

(** ** What the steps keep *)

Lemma send_command_cases sv cmd c r :
  (pending sv = None ∧
   send_command sv cmd c r
   = {| shared := receive cmd (shared sv); pending := Some cmd;
        readers := <[c := r]> (readers sv) |}) ∨
  (pending sv ≠ None ∧ send_command sv cmd c r = sv).
Proof. unfold send_command. destruct (pending sv); [by right|by left]. Qed.

Lemma conn_Close_frame c w w' :
  conn_Close c w = Ok w' →
  sites w' = sites w ∧ site_mem w' = site_mem w ∧ received w' = received w ∧
  (queues_ok w → queues_ok w').
Proof.
  unfold conn_Close. intros Hrun.
  apply bind_Ok_inv in Hrun as (cl & Hc & [= <-]). apply deref_Ok_inv in Hc.
  split; [done|split; [done|split; [done|]]]. intros Hq x clx m Hx. simpl in Hx.
  destruct (decide (x = c)) as [->|Hxc].
  - rewrite lookup_insert_eq in Hx. injection Hx as <-. simpl. by apply (Hq c cl m).
  - rewrite lookup_insert_ne in Hx by done. by apply (Hq x clx m).
Qed.

Lemma writePump_recv_frame c w r :
  writePump_recv c w = Ok r →
  let w' := match r with Some (_, _, w1) => w1 | None => w end in
  sites w' = sites w ∧ site_mem w' = site_mem w ∧ received w' = received w ∧
  (queues_ok w → queues_ok w').
Proof.
  unfold writePump_recv. intros Hrun.
  apply bind_Ok_inv in Hrun as (cl & Hc & Hrun). apply deref_Ok_inv in Hc.
  destruct (chan_buf (Client_send cl)) as [|message rest] eqn:Hbuf.
  - destruct (chan_closed (Client_send cl)).
    + apply bind_Ok_inv in Hrun as (w1 & Hclose & [= <-]).
      by apply conn_Close_frame in Hclose.
    + by injection Hrun as <-.
  - injection Hrun as <-. simpl. split; [done|split; [done|split; [done|]]].
    intros Hq x clx m' Hx. simpl in Hx. destruct (decide (x = c)) as [->|Hxc].
    + rewrite lookup_insert_eq in Hx. injection Hx as <-. simpl. intros Hm.
      apply (Hq c cl m' Hc). rewrite Hbuf. by apply list_elem_of_further.
    + rewrite lookup_insert_ne in Hx by done. by apply (Hq x clx m').
Qed.

(** The hub never forgets a command it has received. *)
Lemma fire_received now a sv sv' :
  fire now a sv = Ok sv' →
  (length (received (shared sv)) ≤ length (received (shared sv')))%nat.
Proof.
  assert (∀ cmd c r,
            (length (received (shared sv))
             ≤ length (received (shared (send_command sv cmd c r))))%nat) as Hsend.
  { intros cmd c r. destruct (send_command_cases sv cmd c r) as [[_ ->]|[_ ->]];
      simpl; [|done]. rewrite length_app. lia. }
  destruct a as [ip|c inp|c| |c]; simpl.
  - by intros [= <-].
  - destruct (readers sv !! c) as [[]|]; try by intros [= <-].
    destruct inp as [| |msg]; try by intros [= <-].
    destruct (bool_decide _); [|by intros [= <-]].
    intros Hrun. apply bind_Ok_inv in Hrun as ([] & _ & [= <-]); [apply Hsend|done].
  - destruct (readers sv !! c) as [[ |k|p| | | | ]|]; try by intros [= <-].
    + intros Hrun. apply bind_Ok_inv in Hrun as ([] & _ & Hrun).
      * destruct (getSite k (shared sv)) as [p w1] eqn:Hget.
        injection Hrun as <-. simpl.
        by destruct (getSite_cases _ _ _ _ Hget) as [[_ ->]|(_ & _ & ->)].
      * by injection Hrun as <-.
    + intros Hrun. by apply bind_Ok_inv in Hrun as (cl & _ & [= <-]).
    + intros Hrun. apply bind_Ok_inv in Hrun as (w1 & Hclose & [= <-]). simpl.
      apply conn_Close_frame in Hclose as (_ & _ & -> & _). done.
  - destruct (pending sv) as [[c|c]|]; try by intros [= <-].
    + intros Hrun. apply bind_Ok_inv in Hrun as (w1 & Hh & [= <-]). simpl.
      by destruct (handleRegister_frame _ _ _ _ Hh) as (-> & _).
    + intros Hrun. apply bind_Ok_inv in Hrun as (w1 & Hh & [= <-]). simpl.
      by destruct (handleUnregister_frame _ _ _ _ Hh) as (-> & _).
  - destruct (readers sv !! c); [|by intros [= <-]].
    intros Hrun. apply bind_Ok_inv in Hrun as (res & Hw & [= <-]). simpl.
    by destruct (writePump_recv_frame _ _ _ Hw) as (_ & _ & -> & _).
Qed.

Lemma run_actions_received acts :
  ∀ sv sv', run_actions acts sv = Ok sv' →
  (length (received (shared sv)) ≤ length (received (shared sv')))%nat.
Proof.
  induction acts as [|[now a] acts IH]; intros sv sv' Hrun; simpl in Hrun.
  - by injection Hrun as <-.
  - apply bind_Ok_inv in Hrun as (sv1 & Hfire & Hrun).
    apply fire_received in Hfire. apply IH in Hrun. lia.
Qed.

Lemma fire_keys now a sv sv' :
  fire now a sv = Ok sv' → keys_trimmed sv → keys_trimmed sv'.
Proof.
  intros Hfire [Hk Hr].
  assert (∀ w c r,
            sites w = sites (shared sv) →
            (∀ k, r = AtTest k → TrimSpace k = k) →
            keys_trimmed (with_reader sv w c r)) as Hwith.
  { intros w c r Hw Hres. split; simpl.
    - rewrite Hw. apply Hk.
    - intros x k Hx. destruct (decide (x = c)) as [->|Hxc].
      + rewrite lookup_insert_eq in Hx. injection Hx as ->. by apply Hres.
      + rewrite lookup_insert_ne in Hx by done. by apply (Hr x). }
  assert (∀ cmd c r,
            (∀ k, r = AtTest k → TrimSpace k = k) →
            keys_trimmed (send_command sv cmd c r)) as Hsend.
  { intros cmd c r Hres.
    destruct (send_command_cases sv cmd c r) as [[_ ->]|[_ ->]]; [|by split].
    apply (Hwith (receive cmd (shared sv)) c r eq_refl Hres). }
  destruct a as [ip|c inp|c| |c]; simpl in Hfire.
  - injection Hfire as <-. by apply Hwith.
  - destruct (readers sv !! c) as [[]|]; try (injection Hfire as <-; by split).
    destruct inp as [| |msg]; try (injection Hfire as <-; by split).
    + injection Hfire as <-. by apply Hwith.
    + destruct (bool_decide _); [|injection Hfire as <-; by split].
      apply bind_Ok_inv in Hfire as ([] & _ & [= <-]).
      * apply Hsend. intros k [= <-]. apply TrimSpace_idemp.
      * apply Hwith; [done|]. intros k [= <-]. apply TrimSpace_idemp.
  - destruct (readers sv !! c) as [[ |k|p| | | | ]|] eqn:Hc;
      try (injection Hfire as <-; by split).
    + apply bind_Ok_inv in Hfire as ([] & _ & Hfire).
      * destruct (getSite k (shared sv)) as [p w1] eqn:Hget.
        injection Hfire as <-. split; simpl.
        -- intros k' p' Hk'.
           assert (w1 = (getSite k (shared sv)).2) as -> by by rewrite Hget.
           apply getSite_keys in Hk' as [->|Hk']; [by apply (Hr c)|by apply (Hk k' p')].
        -- intros x k' Hx. destruct (decide (x = c)) as [->|Hxc].
           ++ by rewrite lookup_insert_eq in Hx.
           ++ rewrite lookup_insert_ne in Hx by done. by apply (Hr x).
      * injection Hfire as <-. by apply Hwith.
    + apply bind_Ok_inv in Hfire as (cl & _ & [= <-]). by apply Hwith.
    + injection Hfire as <-. by apply Hsend.
    + injection Hfire as <-. by apply Hsend.
    + apply bind_Ok_inv in Hfire as (w1 & Hclose & [= <-]).
      apply conn_Close_frame in Hclose as (Hs & _). by apply Hwith.
  - destruct (pending sv) as [[c|c]|]; try (injection Hfire as <-; by split).
    + apply bind_Ok_inv in Hfire as (w1 & Hh & [= <-]). split; simpl; [|done].
      rewrite (handleRegister_keys _ _ _ _ Hh). apply Hk.
    + apply bind_Ok_inv in Hfire as (w1 & Hh & [= <-]). split; simpl; [|done].
      intros k p Hkp. apply (Hk k p). by apply (handleUnregister_keys _ _ _ _ _ _ Hh).
  - destruct (readers sv !! c); [|injection Hfire as <-; by split].
    apply bind_Ok_inv in Hfire as (res & Hw & [= <-]). split; simpl; [|done].
    destruct (writePump_recv_frame _ _ _ Hw) as (-> & _). apply Hk.
Qed.

Lemma run_actions_keys acts :
  ∀ sv sv', run_actions acts sv = Ok sv' → keys_trimmed sv → keys_trimmed sv'.
Proof.
  induction acts as [|[now a] acts IH]; intros sv sv' Hrun Hinv; simpl in Hrun.
  - by injection Hrun as <-.
  - apply bind_Ok_inv in Hrun as (sv1 & Hfire & Hrun).
    apply (IH sv1 sv' Hrun). by apply (fire_keys _ _ _ _ Hfire).
Qed.

Lemma keys_trimmed_boot : keys_trimmed boot.
Proof. split; simpl; intros ?; intros; by rewrite lookup_empty in *. Qed.

Lemma counted_boot : counted boot.
Proof.
  split; [done|]. split.
  - intros p s Hp. simpl in Hp. by rewrite lookup_empty in Hp.
  - intros c cl m Hc. simpl in Hc. by rewrite lookup_empty in Hc.
Qed.

Lemma fire_counted now a sv sv' :
  fire now a sv = Ok sv' →
  Z.of_nat (length (received (shared sv'))) ≤ int_max →
  counted sv → counted sv'.
Proof.
  intros Hfire Hmax (Hpos & Hcnt & Hq).
  assert (∀ w c r,
            site_mem w = site_mem (shared sv) → received w = received (shared sv) →
            queues_ok w → counted (with_reader sv w c r)) as Hwith.
  { intros w c r Hm Hrec Hqw. unfold counted, handled, counts_le. simpl.
    rewrite Hm, Hrec. done. }
  assert (∀ cmd c r, counted (send_command sv cmd c r)) as Hsend.
  { intros cmd c r.
    destruct (send_command_cases sv cmd c r) as [[Hnone ->]|[_ ->]]; [|done].
    unfold counted, handled in *. rewrite Hnone in *. simpl.
    rewrite length_app. simpl.
    split; [destruct cmd; lia|]. split; [|done].
    apply (counts_le_mono (Z.of_nat (length (received (shared sv))) - 0));
      [destruct cmd; lia|done]. }
  destruct a as [ip|c inp|c| |c]; simpl in Hfire.
  - injection Hfire as <-. apply Hwith; [done|done|].
    intros x clx m Hx. simpl in Hx.
    destruct (decide (x = fresh (dom (client_mem (shared sv))))) as [->|Hne].
    + rewrite lookup_insert_eq in Hx. injection Hx as <-. simpl.
      intros Hm. by apply elem_of_nil in Hm.
    + rewrite lookup_insert_ne in Hx by done. by apply (Hq x clx m).
  - destruct (readers sv !! c) as [[]|]; try (injection Hfire as <-; exact (conj Hpos (conj Hcnt Hq))).
    destruct inp as [| |msg]; try (injection Hfire as <-; exact (conj Hpos (conj Hcnt Hq))).
    destruct (bool_decide _); [|injection Hfire as <-; exact (conj Hpos (conj Hcnt Hq))].
    apply bind_Ok_inv in Hfire as ([] & _ & [= <-]); [apply Hsend|by apply Hwith].
  - destruct (readers sv !! c) as [[ |k|p| | | | ]|] eqn:Hc;
      try (injection Hfire as <-; exact (conj Hpos (conj Hcnt Hq))).
    + apply bind_Ok_inv in Hfire as ([] & _ & Hfire).
      * destruct (getSite k (shared sv)) as [p w1] eqn:Hget.
        injection Hfire as <-.
        pose proof (getSite_counts _ _ _ _ _ Hget Hpos Hcnt) as Hcnt1.
        assert (received w1 = received (shared sv) ∧
                client_mem w1 = client_mem (shared sv)) as [Hrec Hcl]
          by by destruct (getSite_cases _ _ _ _ Hget) as [[_ ->]|(_ & _ & ->)].
        unfold counted, handled in *. simpl. rewrite Hrec.
        split; [done|]. split; [done|].
        unfold queues_ok. rewrite Hcl. apply Hq.
      * injection Hfire as <-. by apply Hwith.
    + apply bind_Ok_inv in Hfire as (cl & Hcl & [= <-]). apply deref_Ok_inv in Hcl.
      apply Hwith; [done|done|].
      intros x clx m Hx. simpl in Hx. destruct (decide (x = c)) as [->|Hxc].
      * rewrite lookup_insert_eq in Hx. injection Hx as <-. simpl.
        by apply (Hq c cl m).
      * rewrite lookup_insert_ne in Hx by done. by apply (Hq x clx m).
    + injection Hfire as <-. apply Hsend.
    + injection Hfire as <-. apply Hsend.
    + apply bind_Ok_inv in Hfire as (w1 & Hclose & [= <-]).
      apply conn_Close_frame in Hclose as (_ & Hm & Hrec & Hqw).
      apply Hwith; [done|done|by apply Hqw].
  - destruct (pending sv) as [[c|c]|] eqn:Hpend;
      try (injection Hfire as <-; exact (conj Hpos (conj Hcnt Hq))).
    + apply bind_Ok_inv in Hfire as (w1 & Hh & [= <-]).
      unfold counted, handled in *. rewrite Hpend in *. simpl in *.
      destruct (handleRegister_frame _ _ _ _ Hh) as (Hrec & _).
      rewrite Hrec in *.
      destruct (handleRegister_counts _ _ _ _ _ Hh Hcnt ltac:(lia)) as [Hcnt1 Hq1].
      split; [lia|]. split; [|by apply Hq1].
      eapply counts_le_mono; [|exact Hcnt1]. lia.
    + apply bind_Ok_inv in Hfire as (w1 & Hh & [= <-]).
      unfold counted, handled in *. rewrite Hpend in *. simpl in *.
      destruct (handleUnregister_frame _ _ _ _ Hh) as (Hrec & _).
      rewrite Hrec in *.
      destruct (handleUnregister_counts _ _ _ _ _ Hh Hcnt ltac:(lia)) as [Hcnt1 Hq1].
      split; [lia|]. split; [|by apply Hq1].
      eapply counts_le_mono; [|exact Hcnt1]. lia.
  - destruct (readers sv !! c); [|injection Hfire as <-; exact (conj Hpos (conj Hcnt Hq))].
    apply bind_Ok_inv in Hfire as (res & Hw & [= <-]).
    destruct (writePump_recv_frame _ _ _ Hw) as (_ & Hm & Hrec & Hqw).
    unfold counted, handled, counts_le in *. simpl in *. rewrite Hm, Hrec.
    split; [done|]. split; [done|by apply Hqw].
Qed.

Lemma run_actions_counted acts :
  ∀ sv sv', run_actions acts sv = Ok sv' →
  Z.of_nat (length (received (shared sv'))) ≤ int_max →
  counted sv → counted sv'.
Proof.
  induction acts as [|[now a] acts IH]; intros sv sv' Hrun Hmax Hinv; simpl in Hrun.
  - by injection Hrun as <-.
  - apply bind_Ok_inv in Hrun as (sv1 & Hfire & Hrun).
    apply (IH sv1 sv' Hrun Hmax). apply (fire_counted _ _ _ _ Hfire); [|done].
    apply run_actions_received in Hrun. lia.
Qed.

(** The step-by-step run of [first_join] ends in the state with one viewer
    on [blog]. *)
Lemma first_join_joined_state :
  ∃ sv, run_actions first_join boot = Ok sv ∧ shared sv = joined_state.
Proof. eexists. split; [vm_compute; reflexivity|reflexivity]. Qed.

Lemma reachable_joined_state : reachable joined_state.
Proof.
  destruct first_join_joined_state as (sv & Hrun & Hw).
  by exists first_join, sv.
Qed.

(** ** Counts, queues and keys in the states the server gets into *)

(** X6: in every state the server gets into, before [main] starts its
    shutdown loop, with at most [int_max] commands received, whatever the
    order in which the readers, the writers and the hub took their steps,
    the count of every site is at least the number of its members and at
    most the number of commands the hub has received. *)
Theorem reachable_count_covers w p s :
  reachable w →
  Z.of_nat (length (received w)) ≤ int_max →
  site_mem w !! p = Some s →
  Z.of_nat (size (Site_Connections s)) ≤ Site_Count s
  ≤ Z.of_nat (length (received w)).
Proof.
  intros (acts & sv & Hrun & <-) Hmax Hs.
  destruct (run_actions_counted acts boot sv Hrun Hmax counted_boot)
    as (_ & Hcnt & _).
  destruct (Hcnt p s Hs) as [Hlo Hhi]. split; [done|].
  unfold handled in Hhi. destruct (pending sv) as [[]|]; lia.
Qed.

Lemma reachable_count_covers_witness :
  Z.of_nat (size ({[1%positive]} : gset positive)) ≤ 1
  ≤ Z.of_nat (length (received joined_state)).
Proof.
  refine (reachable_count_covers joined_state 1%positive
            {| Site_ID := "blog"; Site_Count := 1;
               Site_Connections := {[1%positive]} |} _ _ _).
  - apply reachable_joined_state.
  - unfold int_max. simpl. lia.
  - reflexivity.
Defined.

(** X7: in every state the server gets into, before [main] starts its
    shutdown loop, with at most [int_max] commands received, whatever the
    order in which the readers, the writers and the hub took their steps,
    every message waiting in a queue is an update with a count of at
    least one, so the frame written for it has the [count] member. *)
Theorem reachable_updates_counted w c cl m :
  reachable w →
  Z.of_nat (length (received w)) ≤ int_max →
  client_mem w !! c = Some cl →
  m ∈ chan_buf (Client_send cl) →
  Message_Type m = "update" ∧ 1 ≤ Message_Count m ∧
  json_member "count" (marshal_Message m) = Some (JNumber (Message_Count m)).
Proof.
  intros (acts & sv & Hrun & <-) Hmax Hc Hm.
  destruct (run_actions_counted acts boot sv Hrun Hmax counted_boot)
    as (_ & _ & Hq).
  destruct (Hq c cl m Hc Hm) as [Hty Hcount].
  split; [done|]. split; [done|]. apply marshal_count_member. lia.
Qed.

Lemma reachable_updates_counted_witness :
  Message_Type (update_message "blog" 1 0) = "update" ∧
  1 ≤ Message_Count (update_message "blog" 1 0) ∧
  json_member "count" (marshal_Message (update_message "blog" 1 0))
  = Some (JNumber (Message_Count (update_message "blog" 1 0))).
Proof.
  apply (reachable_updates_counted joined_state 1%positive
           (example_client (Some 1%positive) 1)).
  - apply reachable_joined_state.
  - unfold int_max. simpl. lia.
  - reflexivity.
  - simpl. constructor.
Defined.

(** X20: in every state the server gets into, before [main] starts its
    shutdown loop, whatever the order in which the readers, the writers
    and the hub took their steps, a key of the registry is a trimmed
    string: trimming it again changes nothing, and its bytes start and end
    with no white-space rune. *)
Theorem reachable_keys_trimmed w k p :
  reachable w →
  sites w !! k = Some p →
  TrimSpace k = k ∧
  leading_space (bytes_of_string k) = 0%nat ∧
  trailing_space (reverse (bytes_of_string k)) = 0%nat.
Proof.
  intros (acts & sv & Hrun & <-) Hk.
  destruct (run_actions_keys acts boot sv Hrun keys_trimmed_boot) as [Hkeys _].
  assert (TrimSpace k = k) as Htrim by by apply (Hkeys k p).
  split; [done|]. rewrite <- Htrim. apply TrimSpace_bytes.
Qed.

Lemma reachable_keys_trimmed_witness :
  TrimSpace "blog" = "blog" ∧
  leading_space (bytes_of_string "blog") = 0%nat ∧
  trailing_space (reverse (bytes_of_string "blog")) = 0%nat.
Proof.
  apply (reachable_keys_trimmed joined_state "blog" 1%positive).
  - apply reachable_joined_state.
  - reflexivity.
Defined.

(** ** The turns of the read loop as runs of the steps *)

Lemma fire_Frame_error now c w pd rs :
  rs !! c = Some AtRead →
  fire now (Frame c ReadError) (mkServer w pd rs)
  = Ok (mkServer w pd (<[c := AtDefer]> rs)).
Proof. intros Hc. unfold fire. simpl. by rewrite Hc. Qed.

Lemma fire_Frame_join now c msg w rs :
  rs !! c = Some AtRead →
  Message_Type msg = "join" ∧ Message_SiteID msg ≠ "" →
  fire now (Frame c (Decoded msg)) (mkServer w None rs)
  = (other ← holds_other_site c (TrimSpace (Message_SiteID msg)) w;
     if other : bool
     then Ok (mkServer (receive (Unregister c) w) (Some (Unregister c))
                (<[c := AtTest (TrimSpace (Message_SiteID msg))]> rs))
     else Ok (mkServer w None
                (<[c := AtTest (TrimSpace (Message_SiteID msg))]> rs))).
Proof.
  intros Hc Hjoin. unfold fire. simpl. rewrite Hc.
  by rewrite bool_decide_eq_true_2.
Qed.

Lemma fire_test now c k w pd rs :
  rs !! c = Some (AtTest k) →
  fire now (ReaderStep c) (mkServer w pd rs)
  = (needs ← needs_site c k w;
     if needs : bool then
       let '(site, w1) := getSite k w in
       Ok (mkServer w1 pd (<[c := AtAssign site]> rs))
     else Ok (mkServer w pd (<[c := AtRead]> rs))).
Proof. intros Hc. unfold fire. simpl. by rewrite Hc. Qed.

Lemma fire_assign now c p w pd rs :
  rs !! c = Some (AtAssign p) →
  fire now (ReaderStep c) (mkServer w pd rs)
  = (cl ← deref (client_mem w) c;
     Ok (mkServer
           (set_client_mem w (<[c := with_site cl (Some p)]> (client_mem w)))
           pd (<[c := AtRegister]> rs))).
Proof. intros Hc. unfold fire. simpl. by rewrite Hc. Qed.

Lemma fire_register now c w rs :
  rs !! c = Some AtRegister →
  fire now (ReaderStep c) (mkServer w None rs)
  = Ok (mkServer (receive (Register c) w) (Some (Register c))
          (<[c := AtRead]> rs)).
Proof. intros Hc. unfold fire. simpl. by rewrite Hc. Qed.

Lemma fire_defer now c w rs :
  rs !! c = Some AtDefer →
  fire now (ReaderStep c) (mkServer w None rs)
  = Ok (mkServer (receive (Unregister c) w) (Some (Unregister c))
          (<[c := AtClose]> rs)).
Proof. intros Hc. unfold fire. simpl. by rewrite Hc. Qed.

Lemma fire_close now c w pd rs :
  rs !! c = Some AtClose →
  fire now (ReaderStep c) (mkServer w pd rs)
  = (w1 ← conn_Close c w; Ok (mkServer w1 pd (<[c := Gone]> rs))).
Proof. intros Hc. unfold fire. simpl. by rewrite Hc. Qed.

Lemma fire_hub now cmd w rs :
  fire now HubStep (mkServer (receive cmd w) (Some cmd) rs)
  = (w1 ← Run_step now cmd w; Ok (mkServer w1 None rs)).
Proof. by destruct cmd. Qed.

Lemma fire_hub_late now c w rs :
  fire now HubStep (mkServer w (Some (Unregister c)) rs)
  = (w1 ← handleUnregister now c w; Ok (mkServer w1 None rs)).
Proof. done. Qed.

Lemma bind_Panic {A B} (f : A → outcome B) (e : panic) : (Panic e ≫= f) = Panic e.
Proof. reflexivity. Qed.

(** A turn of the read loop, in either order, is what the steps of the
    reader and of the hub give when nobody else takes a step in between:
    the reader reads the frame, and it and the hub go on until the reader
    is back at [ReadMessage], or gone. *)
Lemma readPump_step_is_a_run o t1 t2 c inp sv :
  pending sv = None →
  readers sv !! c = Some AtRead →
  match readPump_step o t1 t2 c inp (shared sv) with
  | Ok (ctl, w') =>
      ∃ acts sv', run_actions acts sv = Ok sv' ∧ shared sv' = w' ∧
                  pending sv' = None ∧
                  readers sv' !! c
                  = Some (match ctl with Break => Gone | Continue => AtRead end)
  | Panic e => ∃ acts, run_actions acts sv = Panic e
  end.
Proof.
  destruct sv as [w pd rs]. simpl. intros -> Hc.
  destruct inp as [| |msg]; unfold readPump_step.
  - destruct (Run_step t1 (Unregister c) w) as [w1|e] eqn:Hun.
    2:{ rewrite bind_Panic.
        exists [(t1, Frame c ReadError); (t1, ReaderStep c); (t1, HubStep)].
        cbn [run_actions]. rewrite fire_Frame_error, bind_Ok by done.
        rewrite fire_defer, bind_Ok by apply lookup_insert_eq.
        by rewrite fire_hub, Hun. }
    rewrite bind_Ok.
    destruct (conn_Close c w1) as [w2|e] eqn:Hclose;
      [rewrite bind_Ok|rewrite bind_Panic];
      exists [(t1, Frame c ReadError); (t1, ReaderStep c); (t1, HubStep);
              (t1, ReaderStep c)];
      [eexists|]; cbn [run_actions];
      rewrite fire_Frame_error, bind_Ok by done;
      rewrite fire_defer, bind_Ok by apply lookup_insert_eq;
      rewrite fire_hub, Hun, !bind_Ok;
      rewrite fire_close by apply lookup_insert_eq;
      rewrite Hclose; [|done].
    rewrite !bind_Ok. split; [done|]. simpl.
    split; [done|]. split; [done|]. apply lookup_insert_eq.
  - exists [], (mkServer w None rs). by split.
  - destruct (bool_decide (Message_Type msg = "join" ∧ Message_SiteID msg ≠ ""))
      eqn:Hjoin.
    2:{ exists [], (mkServer w None rs). by split. }
    apply bool_decide_eq_true in Hjoin.
    set (k := TrimSpace (Message_SiteID msg)). cbv zeta.
    destruct (holds_other_site c k w) as [other|e] eqn:Hother.
    2:{ rewrite bind_Panic. exists [(t1, Frame c (Decoded msg))]. cbn [run_actions].
        rewrite fire_Frame_join by done. fold k. by rewrite Hother. }
    rewrite bind_Ok.
    assert (fire t1 (Frame c (Decoded msg)) (mkServer w None rs)
            = Ok (if other
                  then mkServer (receive (Unregister c) w) (Some (Unregister c))
                         (<[c := AtTest k]> rs)
                  else mkServer w None (<[c := AtTest k]> rs))) as Hframe.
    { rewrite fire_Frame_join by done. fold k. rewrite Hother, bind_Ok.
      by destruct other. }
    destruct other; [destruct o|]; cbn [reader_first andb]; cbv beta iota.
    + (* the hub reads the client's site before the reader assigns it *)
      destruct (Run_step t1 (Unregister c) w) as [w1|e] eqn:Hun.
      2:{ rewrite bind_Panic.
          exists [(t1, Frame c (Decoded msg)); (t1, HubStep)]. cbn [run_actions].
          by rewrite Hframe, bind_Ok, fire_hub, Hun. }
      rewrite bind_Ok.
      destruct (needs_site c k w1) as [needs|e] eqn:Hneeds.
      2:{ rewrite bind_Panic.
          exists [(t1, Frame c (Decoded msg)); (t1, HubStep); (t1, ReaderStep c)].
          cbn [run_actions].
          rewrite Hframe, bind_Ok, fire_hub, Hun, !bind_Ok.
          rewrite (fire_test _ _ k) by apply lookup_insert_eq. by rewrite Hneeds. }
      rewrite bind_Ok. destruct needs.
      2:{ exists [(t1, Frame c (Decoded msg)); (t1, HubStep); (t1, ReaderStep c)].
          eexists. cbn [run_actions].
          rewrite Hframe, bind_Ok, fire_hub, Hun, !bind_Ok.
          rewrite (fire_test _ _ k) by apply lookup_insert_eq.
          rewrite Hneeds, !bind_Ok. split; [done|]. simpl.
          split; [done|]. split; [done|]. apply lookup_insert_eq. }
      unfold resolve_site. destruct (getSite k w1) as [p w2] eqn:Hget. cbv beta iota.
      destruct (deref (client_mem w2) c) as [cl|e] eqn:Hcl.
      2:{ rewrite !bind_Panic.
          exists [(t1, Frame c (Decoded msg)); (t1, HubStep); (t1, ReaderStep c);
                  (t1, ReaderStep c)].
          cbn [run_actions].
          rewrite Hframe, bind_Ok, fire_hub, Hun, !bind_Ok.
          rewrite (fire_test _ _ k) by apply lookup_insert_eq.
          rewrite Hneeds, !bind_Ok, Hget, bind_Ok.
          rewrite (fire_assign _ _ p) by apply lookup_insert_eq. by rewrite Hcl. }
      rewrite !bind_Ok.
      destruct (Run_step t2 (Register c) _) as [w4|e] eqn:Hreg;
        [rewrite bind_Ok|rewrite bind_Panic];
        exists [(t1, Frame c (Decoded msg)); (t1, HubStep); (t1, ReaderStep c);
                (t1, ReaderStep c); (t1, ReaderStep c); (t2, HubStep)];
        [eexists|]; cbn [run_actions];
        rewrite Hframe, bind_Ok, fire_hub, Hun, !bind_Ok;
        rewrite (fire_test _ _ k) by apply lookup_insert_eq;
        rewrite Hneeds, !bind_Ok, Hget, bind_Ok;
        rewrite (fire_assign _ _ p) by apply lookup_insert_eq;
        rewrite Hcl, !bind_Ok;
        rewrite fire_register, bind_Ok by apply lookup_insert_eq;
        rewrite fire_hub, Hreg; [|done].
      rewrite !bind_Ok. split; [done|]. simpl.
      split; [done|]. split; [done|]. apply lookup_insert_eq.
    + (* the reader assigns the client's site before the hub reads it *)
      destruct (needs_site c k (receive (Unregister c) w)) as [needs|e] eqn:Hneeds.
      2:{ rewrite bind_Panic.
          exists [(t1, Frame c (Decoded msg)); (t1, ReaderStep c)].
          cbn [run_actions]. rewrite Hframe, bind_Ok.
          rewrite (fire_test _ _ k) by apply lookup_insert_eq. by rewrite Hneeds. }
      rewrite bind_Ok. destruct needs.
      2:{ destruct (handleUnregister t1 c (receive (Unregister c) w))
            as [w1|e] eqn:Hun; [rewrite bind_Ok|rewrite bind_Panic];
            exists [(t1, Frame c (Decoded msg)); (t1, ReaderStep c); (t1, HubStep)];
            [eexists|]; cbn [run_actions]; rewrite Hframe, bind_Ok;
            rewrite (fire_test _ _ k) by apply lookup_insert_eq;
            rewrite Hneeds, !bind_Ok, fire_hub_late, Hun; [|done].
          rewrite !bind_Ok. split; [done|]. simpl.
          split; [done|]. split; [done|]. apply lookup_insert_eq. }
      unfold resolve_site.
      destruct (getSite k (receive (Unregister c) w)) as [p w2] eqn:Hget. cbv beta iota.
      destruct (deref (client_mem w2) c) as [cl|e] eqn:Hcl.
      2:{ rewrite !bind_Panic.
          exists [(t1, Frame c (Decoded msg)); (t1, ReaderStep c);
                  (t1, ReaderStep c)].
          cbn [run_actions]. rewrite Hframe, bind_Ok.
          rewrite (fire_test _ _ k) by apply lookup_insert_eq.
          rewrite Hneeds, !bind_Ok, Hget, bind_Ok.
          rewrite (fire_assign _ _ p) by apply lookup_insert_eq. by rewrite Hcl. }
      rewrite !bind_Ok.
      destruct (handleUnregister t1 c _) as [w1|e] eqn:Hun.
      2:{ rewrite bind_Panic.
          exists [(t1, Frame c (Decoded msg)); (t1, ReaderStep c);
                  (t1, ReaderStep c); (t1, HubStep)].
          cbn [run_actions]. rewrite Hframe, bind_Ok.
          rewrite (fire_test _ _ k) by apply lookup_insert_eq.
          rewrite Hneeds, !bind_Ok, Hget, bind_Ok.
          rewrite (fire_assign _ _ p) by apply lookup_insert_eq.
          by rewrite Hcl, !bind_Ok, fire_hub_late, Hun. }
      rewrite bind_Ok.
      destruct (Run_step t2 (Register c) w1) as [w4|e] eqn:Hreg;
        [rewrite bind_Ok|rewrite bind_Panic];
        exists [(t1, Frame c (Decoded msg)); (t1, ReaderStep c); (t1, ReaderStep c);
                (t1, HubStep); (t2, ReaderStep c); (t2, HubStep)];
        [eexists|]; cbn [run_actions]; rewrite Hframe, bind_Ok;
        rewrite (fire_test _ _ k) by apply lookup_insert_eq;
        rewrite Hneeds, !bind_Ok, Hget, bind_Ok;
        rewrite (fire_assign _ _ p) by apply lookup_insert_eq;
        rewrite Hcl, !bind_Ok, fire_hub_late, Hun, !bind_Ok;
        rewrite fire_register, bind_Ok by apply lookup_insert_eq;
        rewrite fire_hub, Hreg; [|done].
      rewrite !bind_Ok. split; [done|]. simpl.
      split; [done|]. split; [done|]. apply lookup_insert_eq.
    + (* no send on [unregister] *)
      rewrite andb_false_r. cbv beta iota. rewrite bind_Ok.
      destruct (needs_site c k w) as [needs|e] eqn:Hneeds.
      2:{ rewrite bind_Panic.
          exists [(t1, Frame c (Decoded msg)); (t1, ReaderStep c)].
          cbn [run_actions]. rewrite Hframe, bind_Ok.
          rewrite (fire_test _ _ k) by apply lookup_insert_eq. by rewrite Hneeds. }
      rewrite bind_Ok. destruct needs.
      2:{ exists [(t1, Frame c (Decoded msg)); (t1, ReaderStep c)]. eexists.
          cbn [run_actions]. rewrite Hframe, bind_Ok.
          rewrite (fire_test _ _ k) by apply lookup_insert_eq.
          rewrite Hneeds, !bind_Ok. split; [done|]. simpl.
          split; [done|]. split; [done|]. apply lookup_insert_eq. }
      unfold resolve_site. destruct (getSite k w) as [p w2] eqn:Hget. cbv beta iota.
      destruct (deref (client_mem w2) c) as [cl|e] eqn:Hcl.
      2:{ rewrite !bind_Panic.
          exists [(t1, Frame c (Decoded msg)); (t1, ReaderStep c);
                  (t1, ReaderStep c)].
          cbn [run_actions]. rewrite Hframe, bind_Ok.
          rewrite (fire_test _ _ k) by apply lookup_insert_eq.
          rewrite Hneeds, !bind_Ok, Hget, bind_Ok.
          rewrite (fire_assign _ _ p) by apply lookup_insert_eq. by rewrite Hcl. }
      rewrite !bind_Ok.
      destruct (Run_step t2 (Register c) _) as [w4|e] eqn:Hreg;
        [rewrite bind_Ok|rewrite bind_Panic];
        exists [(t1, Frame c (Decoded msg)); (t1, ReaderStep c); (t1, ReaderStep c);
                (t1, ReaderStep c); (t2, HubStep)];
        [eexists|]; cbn [run_actions]; rewrite Hframe, bind_Ok;
        rewrite (fire_test _ _ k) by apply lookup_insert_eq;
        rewrite Hneeds, !bind_Ok, Hget, bind_Ok;
        rewrite (fire_assign _ _ p) by apply lookup_insert_eq;
        rewrite Hcl, !bind_Ok;
        rewrite fire_register, bind_Ok by apply lookup_insert_eq;
        rewrite fire_hub, Hreg; [|done].
      rewrite !bind_Ok. split; [done|]. simpl.
      split; [done|]. split; [done|]. apply lookup_insert_eq.
Qed.

(** The two orders of a switch, and a join overtaken by a reclaim, step by
    step from the start of the server. *)
Example switch_in_order_panics :
  run_actions switch_in_order boot = Panic send_on_closed_channel.
Proof. vm_compute. reflexivity. Qed.

Example switch_overtaken_completes :
  ∃ sv, run_actions switch_overtaken boot = Ok sv ∧
        readPump_step ReaderFirst 5 5 1 (join "news") joined_state
        = Ok (Continue, shared sv) ∧
        pending sv = None ∧ readers sv !! 1%positive = Some AtRead.
Proof.
  eexists. split; [vm_compute; reflexivity|].
  split; [vm_compute; reflexivity|]. split; reflexivity.
Qed.

Example join_overtaken_reclaimed :
  ∃ sv, run_actions join_overtaken boot = Ok sv ∧
        reclaimed_before_attach = Ok (shared sv) ∧
        pending sv = None ∧ readers sv !! 2%positive = Some AtRegister.
Proof.
  eexists. split; [vm_compute; reflexivity|].
  split; [vm_compute; reflexivity|]. split; reflexivity.
Qed.

(** After the overtaken switch, viewer 1 stays a member of [blog] when it
    has gone and its channel is closed: the shutdown loop of [main], and
    the next join of [blog], send on the closed channel. *)
Example shutdown_after_switch_panics :
  ∃ sv blog cl,
    run_actions leave_after_switch boot = Ok sv ∧
    sites (shared sv) !! "blog" = Some 1%positive ∧
    site_mem (shared sv) !! 1%positive = Some blog ∧
    Site_Connections blog = {[1%positive]} ∧
    client_mem (shared sv) !! 1%positive = Some cl ∧
    chan_closed (Client_send cl) = true ∧
    main_shutdown (shared sv) = Panic send_on_closed_channel.
Proof.
  eexists _, _, _. split; [vm_compute; reflexivity|].
  split; [vm_compute; reflexivity|].
  split; [vm_compute; reflexivity|].
  split; [reflexivity|].
  split; [vm_compute; reflexivity|].
  split; [reflexivity|].
  vm_compute. reflexivity.
Qed.

Example join_after_switch_panics :
  run_actions join_after_switch boot = Panic send_on_closed_channel.
Proof. vm_compute. reflexivity. Qed.
